(** * osxphotos: the PhotosDB ingesters and the photos() query

    A shallow embedding of [osxphotos/photosdb.py].  The Python class keeps
    its state in dictionaries keyed by strings; they are modelled by stdpp's
    [gmap].  The rows handed out by the sqlite cursor are the inputs of the
    two ingesters: every query of the source is represented by the list of
    rows it yields, with one record type per query; a column is NULL or a
    value of its declared type, REAL columns being exact rationals.  Python
    exceptions are an explicit error result.  Messages written to the log
    are left out, except for the warning of the shared album views. *)

From Stdlib Require Import QArith.
From stdpp Require Import gmap strings list fin_maps fin_sets.

Open Scope string_scope.
Open Scope list_scope.
Open Scope Z_scope.

(** ** Python values stored in the per-photo dictionaries *)

Inductive pyval :=
| PNone
| PBool (b : bool)
| PInt (z : Z)
| PFloat (q : Q)
| PStr (s : string)
| PDate (q : Q)          (* a datetime, as seconds since the Unix epoch *)
| PList (l : list string).

(** Truth value of a Python object, as used by [if x] and [not x]. *)
Definition truthy (v : pyval) : bool :=
  match v with
  | PNone => false
  | PBool b => b
  | PInt z => negb (z =? 0)
  | PFloat q => negb (Qeq_bool q 0)
  | PStr s => negb (String.eqb s "")
  | PDate _ => true
  | PList l => match l with [] => false | _ => true end
  end.

(** Values read from the database: a column is NULL or holds a value of the
    column's declared type. *)
Definition of_int (o : option Z) : pyval := from_option PInt PNone o.
Definition of_real (o : option Q) : pyval := from_option PFloat PNone o.
Definition of_text (o : option string) : pyval := from_option PStr PNone o.

(** [row[i] == n] for an integer column. *)
Definition int_is (o : option Z) (n : Z) : bool :=
  match o with Some z => z =? n | None => false end.

(** [row[i] == x] for a real column. *)
Definition real_is (o : option Q) (x : Q) : bool :=
  match o with Some q => Qeq_bool q x | None => false end.

(** [row[i] != s] for a text column. *)
Definition text_isnt (o : option string) (s : string) : bool :=
  match o with Some t => negb (String.eqb t s) | None => true end.

(** ** Exceptions *)

Inductive exn := KeyError | TypeError | ValueError | OSError.

Inductive result (A : Type) :=
| Ok (a : A)
| Err (e : exn).
Arguments Ok {A} a.
Arguments Err {A} e.

#[global] Instance result_ret : MRet result := λ _ a, Ok a.
#[global] Instance result_bind : MBind result := λ _ _ k r,
  match r with Ok a => k a | Err e => Err e end.

(** [d[k]] on a dictionary: a missing key raises [KeyError]. *)
Definition getitem `{Countable K} {V} (d : gmap K V) (k : K) : result V :=
  match d !! k with Some v => Ok v | None => Err KeyError end.

(** Monadic left fold, the shape of every [for row in c:] loop. *)
Fixpoint foldM {A S} (f : S → A → result S) (s : S) (l : list A) : result S :=
  match l with
  | [] => Ok s
  | a :: l' => s' ← f s a; foldM f s' l'
  end.

(** ** Dictionaries of one photo *)

Abbreviation dict := (gmap string pyval).

(** A run of assignments [d[k1] = v1; d[k2] = v2; ...]. *)
Definition setitems (d : dict) (kvs : list (string * pyval)) : dict :=
  foldl (λ m kv, <[kv.1 := kv.2]> m) d kvs.
Arguments setitems : simpl never.


(** [a == b] on the values that occur in the dictionaries. *)
Definition num_of (v : pyval) : option Q :=
  match v with
  | PBool b => Some (if b then 1%Q else 0%Q)
  | PInt z => Some (inject_Z z)
  | PFloat q => Some q
  | _ => None
  end.

Definition py_eq (a b : pyval) : bool :=
  match a, b with
  | PNone, PNone => true
  | PStr s, PStr t => String.eqb s t
  | PDate p, PDate q => Qeq_bool p q
  | PList l, PList k => bool_decide (l = k)
  | _, _ =>
      match num_of a, num_of b with
      | Some p, Some q => Qeq_bool p q
      | _, _ => false
      end
  end.

(** [k in d]. *)
Definition has_key `{Countable K} {V} (d : gmap K V) (k : K) : bool :=
  bool_decide (is_Some (d !! k)).

(** ** The state of a [PhotosDB] object *)

(** One entry of [_dbalbum_details]; both ingesters write the same seven
    keys. *)
Record album_details := {
  title : option string;
  cloudlibrarystate : pyval;
  cloudidentifier : pyval;
  cloudlocalstate : pyval;
  cloudownerfirstname : pyval;
  cloudownderlastname : pyval;
  cloudownerhashedpersonid : pyval;
}.

Abbreviation xref := (gmap string (list string)).

Record PhotosDB := {
  _db_version : string;
  _dbphotos : gmap string dict;
  _dbphotos_burst : gmap string (gset string);
  _dbfaces_uuid : xref;
  _dbfaces_person : xref;
  _dbkeywords_uuid : xref;
  _dbkeywords_keyword : xref;
  _dbalbums_uuid : xref;
  _dbalbums_album : xref;
  _dbalbum_details : gmap string album_details;
  _dbvolumes : gmap (Z + string) (option string);
}.

(** The names imported from [_constants], which is not part of the source
    at hand; they are strings. *)
Record Constants := {
  _PHOTO_TYPE : string;
  _MOVIE_TYPE : string;
  _PHOTOS_5_VERSION : string;
  _UNKNOWN_PERSON : string;
}.

(** [if not k in m: m[k] = []] followed by [m[k].append(v)]. *)
Definition xref_add (m : xref) (k v : string) : xref :=
  <[k := default [] (m !! k) ++ [v]]> m.

(** The two cross references filled by one loop: by uuid and by name. *)
Definition xref_pair_add (p : xref * xref) (name uuid : string) : xref * xref :=
  (xref_add p.1 uuid name, xref_add p.2 name uuid).

(** [self._dbphotos_burst[burst_uuid].add(uuid)], creating the set first
    when the group is new. *)
Definition burst_add (m : gmap string (gset string)) (burst_uuid uuid : string)
  : gmap string (gset string) :=
  <[burst_uuid := default ∅ (m !! burst_uuid) ∪ {[uuid]}]> m.

(** Seconds between the Unix epoch and 2001-01-01, the epoch of the
    database. *)
Definition td : Q := 978307200.

(** [datetime.fromtimestamp(x + td)]: adding to NULL raises [TypeError]. *)
Definition fromtimestamp (x : option Q) : result pyval :=
  match x with
  | Some q => Ok (PDate (q + td))
  | None => Err TypeError
  end.

(** [try: fromtimestamp(a + td) except: fromtimestamp(b + td)]. *)
Definition fromtimestamp_or (a b : option Q) : result pyval :=
  match fromtimestamp a with
  | Ok d => Ok d
  | Err _ => fromtimestamp b
  end.

(** The burst flags of one row: a non-NULL group makes it a burst photo,
    and pick types 2 and 4 are the ones not selected. *)
Definition burst_flag (burst_uuid : option string) : pyval :=
  PBool (bool_decide (burst_uuid ≠ None)).

Definition burst_key_flag (burst_uuid : option string) (pick : option Z) : pyval :=
  match burst_uuid with
  | Some _ => PBool (negb (int_is pick 2) && negb (int_is pick 4))
  | None => PNone
  end.

(** [for row in c: if uuid in self._dbphotos: ...update the entry...]. *)
Definition update_photo {R} (key : R → string) (upd : R → dict → result dict)
    (photos : gmap string dict) (row : R) : result (gmap string dict) :=
  match photos !! key row with
  | Some d => d' ← upd row d; Ok (<[key row := d']> photos)
  | None => Ok photos
  end.

Definition join_pass {R} (key : R → string) (upd : R → dict → result dict)
    (photos : gmap string dict) (rows : list R) : result (gmap string dict) :=
  foldM (update_photo key upd) photos rows.

(** [for uuid in self._dbphotos: ...update the entry...]. *)
Definition for_each_photo (f : string → dict → result dict)
    (photos : gmap string dict) : result (gmap string dict) :=
  map_fold (λ uuid d acc, m ← acc; d' ← f uuid d; Ok (<[uuid := d']> m))
           (Ok ∅) photos.

(** The three back references attached to every photo at the end of both
    ingesters. *)
Definition attach_persons (faces_uuid : xref) (uuid : string) (d : dict) : dict :=
  match faces_uuid !! uuid with
  | Some l => setitems d [("hasPersons", PInt 1); ("persons", PList l)]
  | None => setitems d [("hasPersons", PInt 0); ("persons", PList [])]
  end.

Definition attach_albums (albums_uuid : xref) (uuid : string) (d : dict) : dict :=
  match albums_uuid !! uuid with
  | Some l => setitems d [("albums", PList l); ("hasAlbums", PInt 1)]
  | None => setitems d [("albums", PList []); ("hasAlbums", PInt 0)]
  end.

(** ** Rows of the legacy schema (Photos 4 and earlier)

    One record per query of [_process_database4]; the fields are the
    selected columns in order. *)

(* RKPerson.name, RKVersion.uuid *)
Record face_row := { f_name : option string; f_uuid : string }.

(* album uuid, RKVersion.uuid *)
Record album_row := { a_album : string; a_uuid : string }.

(* RKAlbum: uuid, name, cloudLibraryState, cloudIdentifier *)
Record album_details4_row := {
  ad4_uuid : string;
  ad4_name : option string;
  ad4_cloudLibraryState : option Z;
  ad4_cloudIdentifier : option string;
}.

(* keyword title, RKVersion.uuid *)
Record keyword_row := { k_name : string; k_uuid : string }.

(* RKVolume.modelId, RKVolume.name *)
Record volume4_row := { vol4_modelId : Z; vol4_name : option string }.

(* The 27 columns of the photo details query, columns 0 to 26. *)
Record photo4_row := {
  p4_uuid : string;
  p4_modelId : option Z;
  p4_masterUuid : option string;
  p4_filename : option string;
  p4_lastmodifieddate : option Q;
  p4_imageDate : option Q;
  p4_mainRating : option Z;
  p4_hasAdjustments : option Z;
  p4_hasKeywords : option Z;
  p4_imageTimeZoneOffsetSeconds : option Z;
  p4_volumeId : option Z;
  p4_imagePath : option string;
  p4_extendedDescription : option string;
  p4_name : option string;
  p4_isMissing : option Z;
  p4_originalFileName : option string;
  p4_isFavorite : option Z;
  p4_isHidden : option Z;
  p4_latitude : option Q;
  p4_longitude : option Q;
  p4_adjustmentUuid : option string;
  p4_type : option Z;
  p4_UTI : option string;
  p4_burstUuid : option string;
  p4_burstPickType : option Z;
  p4_specialType : option Z;
  p4_masterModelID : option Z;
}.

(* RKVersion.uuid, RKVersion.adjustmentUuid, RKModelResource.modelId,
   resourceTag, UTI, specialType, attachedModelType, resourceType *)
Record edit4_row := {
  e4_uuid : string;
  e4_adjustmentUuid : option string;
  e4_modelId : option Z;
  e4_resourceTag : option string;
  e4_UTI : option string;
  e4_specialType : option Z;
  e4_attachedModelType : option Z;
  e4_resourceType : option Z;
}.

(* RKVersion.uuid, adjustmentUuid, originator, format *)
Record extedit4_row := {
  x4_uuid : string;
  x4_adjustmentUuid : option string;
  x4_originator : option string;
  x4_format : option string;
}.

(* RKVersion.uuid, RKModelResource.modelId, UTI, specialType,
   attachedModelType, resourceType, isOnDisk *)
Record live4_row := {
  l4_uuid : string;
  l4_modelId : option Z;
  l4_UTI : option string;
  l4_specialType : option Z;
  l4_attachedModelType : option Z;
  l4_resourceType : option Z;
  l4_isOnDisk : option Z;
}.

(* RKVersion.uuid, RKMaster.cloudLibraryState, RKCloudResource.available,
   RKCloudResource.status *)
Record cloud4_row := {
  c4_uuid : string;
  c4_cloudLibraryState : option Z;
  c4_available : option Z;
  c4_status : option Z;
}.

(** What the cursor yields for each query of the legacy ingester. *)
Record store4 := {
  s4_faces : list face_row;
  s4_albums : list album_row;
  s4_album_details : list album_details4_row;
  s4_keywords : list keyword_row;
  s4_volumes : list volume4_row;
  s4_photos : list photo4_row;
  s4_edits : list edit4_row;
  s4_extedits : list extedit4_row;
  s4_live : list live4_row;
  s4_cloud : list cloud4_row;
}.

(** ** Rows of the modern schema (Photos 5) *)

(* ZGENERICALBUM: ZUUID, ZTITLE, ZCLOUDLOCALSTATE, ZCLOUDOWNERFIRSTNAME,
   ZCLOUDOWNERLASTNAME, ZCLOUDOWNERHASHEDPERSONID *)
Record album_details5_row := {
  ad5_uuid : string;
  ad5_title : option string;
  ad5_cloudlocalstate : option Z;
  ad5_cloudownerfirstname : option string;
  ad5_cloudownerlastname : option string;
  ad5_cloudownerhashedpersonid : option string;
}.

(* ZFILESYSTEMVOLUME: ZUUID, ZNAME *)
Record volume5_row := { vol5_uuid : string; vol5_name : option string }.

(* The 25 columns of the photo details query, columns 0 to 24. *)
Record photo5_row := {
  p5_uuid : string;
  p5_masterFingerprint : option string;
  p5_title : option string;
  p5_originalFilename : option string;
  p5_modificationDate : option Q;
  p5_dateCreated : option Q;
  p5_timezoneOffset : option Z;
  p5_inferredTimezoneOffset : option Z;
  p5_timezoneName : option string;
  p5_hidden : option Z;
  p5_favorite : option Z;
  p5_directory : option string;
  p5_filename : option string;
  p5_latitude : option Q;
  p5_longitude : option Q;
  p5_hasAdjustments : option Z;
  p5_cloudBatchPublishDate : option Q;
  p5_kind : option Z;
  p5_uniformTypeIdentifier : option string;
  p5_avalancheUuid : option string;
  p5_avalanchePickType : option Z;
  p5_kindSubtype : option Z;
  p5_customRenderedValue : option Z;
  p5_cameraCaptureDevice : option Z;
  p5_cloudAssetGuid : option string;
}.

(* ZGENERICASSET.ZUUID, ZASSETDESCRIPTION.ZLONGDESCRIPTION *)
Record description5_row := { d5_uuid : string; d5_longDescription : option string }.

(* ZGENERICASSET.ZUUID, ZHASADJUSTMENTS, ZADJUSTMENTFORMATIDENTIFIER *)
Record adjustment5_row := {
  j5_uuid : string;
  j5_hasAdjustments : option Z;
  j5_formatIdentifier : option string;
}.

(* ZGENERICASSET.ZUUID, ZLOCALAVAILABILITY, ZREMOTEAVAILABILITY; the row
   type of both availability queries. *)
Record availability5_row := {
  v5_uuid : string;
  v5_localAvailability : option Z;
  v5_remoteAvailability : option Z;
}.

(* ZGENERICASSET.ZUUID, ZCLOUDMASTER.ZCLOUDLOCALSTATE *)
Record cloud5_row := { c5_uuid : string; c5_cloudLocalState : option Z }.

Record store5 := {
  s5_faces : list face_row;
  s5_albums : list album_row;
  s5_album_details : list album_details5_row;
  s5_keywords : list keyword_row;
  s5_volumes : list volume5_row;
  s5_photos : list photo5_row;
  s5_descriptions : list description5_row;
  s5_adjustments : list adjustment5_row;
  s5_availability_subtype : list availability5_row;     (* first join *)
  s5_availability_fingerprint : list availability5_row; (* second join *)
  s5_cloud : list cloud5_row;
}.

Section Ingest.
Variable C : Constants.

(** ** [_process_database4] *)

(** Faces: rows with a NULL person name are skipped. *)
Definition add_face4 (p : xref * xref) (row : face_row) : xref * xref :=
  match f_name row with
  | None => p
  | Some name => xref_pair_add p name (f_uuid row)
  end.

Definition add_album (p : xref * xref) (row : album_row) : xref * xref :=
  xref_pair_add p (a_album row) (a_uuid row).

Definition add_keyword (p : xref * xref) (row : keyword_row) : xref * xref :=
  xref_pair_add p (k_name row) (k_uuid row).

Definition add_album_details4 (m : gmap string album_details)
    (row : album_details4_row) : gmap string album_details :=
  <[ad4_uuid row :=
      {| title := ad4_name row;
         cloudlibrarystate := of_int (ad4_cloudLibraryState row);
         cloudidentifier := of_text (ad4_cloudIdentifier row);
         cloudlocalstate := PNone;
         cloudownerfirstname := PNone;
         cloudownderlastname := PNone;
         cloudownerhashedpersonid := PNone |}]> m.

Definition add_volume4 (m : gmap (Z + string) (option string))
    (row : volume4_row) : gmap (Z + string) (option string) :=
  <[inl (vol4_modelId row) := vol4_name row]> m.

(** Type code 2 is a photo, 8 a movie, anything else is unknown. *)
Definition type4 (code : option Z) : pyval :=
  if int_is code 2 then PStr (_PHOTO_TYPE C)
  else if int_is code 8 then PStr (_MOVIE_TYPE C)
  else PNone.

(** The dictionary built for one row of the photo details query, in the
    order of the assignments. *)
Definition photo4_info (row : photo4_row) : result dict :=
  lastmod ← fromtimestamp_or (p4_lastmodifieddate row) (p4_imageDate row);
  imagedate ← fromtimestamp (p4_imageDate row);
  Ok (setitems ∅ [
    ("_uuid", PStr (p4_uuid row));
    ("modelID", of_int (p4_modelId row));
    ("masterUuid", of_text (p4_masterUuid row));
    ("filename", of_text (p4_filename row));
    ("lastmodifieddate", lastmod);
    ("imageDate", imagedate);
    ("mainRating", of_int (p4_mainRating row));
    ("hasAdjustments", of_int (p4_hasAdjustments row));
    ("hasKeywords", of_int (p4_hasKeywords row));
    ("imageTimeZoneOffsetSeconds", of_int (p4_imageTimeZoneOffsetSeconds row));
    ("volumeId", of_int (p4_volumeId row));
    ("imagePath", of_text (p4_imagePath row));
    ("extendedDescription", of_text (p4_extendedDescription row));
    ("name", of_text (p4_name row));
    ("isMissing", of_int (p4_isMissing row));
    ("originalFilename", of_text (p4_originalFileName row));
    ("favorite", of_int (p4_isFavorite row));
    ("hidden", of_int (p4_isHidden row));
    ("latitude", of_real (p4_latitude row));
    ("longitude", of_real (p4_longitude row));
    ("adjustmentUuid", of_text (p4_adjustmentUuid row));
    ("adjustmentFormatID", PNone);
    ("type", type4 (p4_type row));
    ("UTI", of_text (p4_UTI row));
    ("burstUUID", of_text (p4_burstUuid row));
    ("burstPickType", of_int (p4_burstPickType row));
    ("burst", burst_flag (p4_burstUuid row));
    ("burst_key", burst_key_flag (p4_burstUuid row) (p4_burstPickType row));
    ("specialType", of_int (p4_specialType row));
    ("masterModelID", of_int (p4_masterModelID row));
    ("panorama", PBool (int_is (p4_specialType row) 1));
    ("slow_mo", PBool (int_is (p4_specialType row) 2));
    ("time_lapse", PBool (int_is (p4_specialType row) 3));
    ("hdr", PBool (int_is (p4_specialType row) 4 || int_is (p4_specialType row) 8));
    ("live_photo", PBool (int_is (p4_specialType row) 5 || int_is (p4_specialType row) 8));
    ("screenshot", PBool (int_is (p4_specialType row) 6));
    ("portrait", PBool (int_is (p4_specialType row) 9));
    ("selfie", PNone);
    ("cloudAssetGUID", PNone);
    ("cloudLocalState", PNone);
    ("cloudLibraryState", PNone);
    ("cloudStatus", PNone);
    ("cloudAvailable", PNone);
    ("incloud", PNone)
  ]).

(** One row of the photo details loop: the entry of the uuid is replaced
    and, for a burst photo, the uuid joins its burst group. *)
Definition add_photo4 (st : gmap string dict * gmap string (gset string))
    (row : photo4_row) : result (gmap string dict * gmap string (gset string)) :=
  d ← photo4_info row;
  Ok (<[p4_uuid row := d]> st.1,
      match p4_burstUuid row with
      | Some b => burst_add st.2 b (p4_uuid row)
      | None => st.2
      end).

(** Edits: the resource is kept when the stored adjustment uuid equals the
    resource tag, the adjustment uuid of the row is neither sentinel and the
    attached model type is 2; a later row overwrites an earlier one. *)
Definition edit4 (row : edit4_row) (d : dict) : result dict :=
  adj ← getitem d "adjustmentUuid";
  if py_eq adj (of_text (e4_resourceTag row))
     && text_isnt (e4_adjustmentUuid row) "UNADJUSTEDNONRAW"
     && text_isnt (e4_adjustmentUuid row) "UNADJUSTED"
     && int_is (e4_attachedModelType row) 2
  then Ok (setitems d [("edit_resource_id", of_int (e4_modelId row))])
  else Ok d.

Definition extedit4 (row : extedit4_row) (d : dict) : result dict :=
  Ok (setitems d [("adjustmentFormatID", of_text (x4_format row))]).

Definition live4 (row : live4_row) (d : dict) : result dict :=
  Ok (setitems d [("live_model_id", of_int (l4_modelId row));
                  ("modeResourceIsOnDisk", PBool (int_is (l4_isOnDisk row) 1))]).

(** Photos without an edit or a live photo get the keys with [None]. *)
Definition backfill4 (d : dict) : dict :=
  let d1 := if has_key d "edit_resource_id" then d
            else setitems d [("edit_resource_id", PNone)] in
  if has_key d1 "live_model_id" then d1
  else setitems d1 [("live_model_id", PNone); ("modeResourceIsOnDisk", PNone)].

Definition cloud4 (row : cloud4_row) (d : dict) : result dict :=
  Ok (setitems d [("cloudLibraryState", of_int (c4_cloudLibraryState row));
                  ("cloudAvailable", of_int (c4_available row));
                  ("cloudStatus", of_int (c4_status row));
                  ("incloud", PBool (int_is (c4_available row) 1))]).

(** The key under which a stored volume id is looked up in [_dbvolumes]. *)
Definition volume_key (v : pyval) : option (Z + string) :=
  match v with
  | PInt z => Some (inl z)
  | PStr s => Some (inr s)
  | _ => None
  end.

(** The last loop of the legacy ingester.  The keywords are fetched with
    [self._dbkeywords_uuid[uuid]] whenever the row says it has keywords,
    and the volume name with [self._dbvolumes[volumeId]]. *)
Definition attach4 (keywords_uuid faces_uuid albums_uuid : xref)
    (volumes : gmap (Z + string) (option string))
    (uuid : string) (d : dict) : result dict :=
  hk ← getitem d "hasKeywords";
  d1 ← (if py_eq hk (PInt 1)
        then kw ← getitem keywords_uuid uuid; Ok (setitems d [("keywords", PList kw)])
        else Ok (setitems d [("keywords", PList [])]));
  let d2 := attach_persons faces_uuid uuid d1 in
  let d3 := attach_albums albums_uuid uuid d2 in
  vid ← getitem d3 "volumeId";
  match vid with
  | PNone => Ok (setitems d3 [("volume", PNone)])
  | _ =>
      match volume_key vid with
      | Some k => name ← getitem volumes k; Ok (setitems d3 [("volume", of_text name)])
      | None => Err KeyError
      end
  end.

(** The ingester proper: the dictionaries start empty, every query is
    walked in the order of the source. *)
Definition ingest4 (version : string) (s : store4) : result PhotosDB :=
  let faces := foldl add_face4 (∅, ∅) (s4_faces s) in
  let albums := foldl add_album (∅, ∅) (s4_albums s) in
  let details := foldl add_album_details4 ∅ (s4_album_details s) in
  let keywords := foldl add_keyword (∅, ∅) (s4_keywords s) in
  let volumes := foldl add_volume4 ∅ (s4_volumes s) in
  pb ← foldM add_photo4 (∅, ∅) (s4_photos s);
  p1 ← join_pass e4_uuid edit4 pb.1 (s4_edits s);
  p2 ← join_pass x4_uuid extedit4 p1 (s4_extedits s);
  p3 ← join_pass l4_uuid live4 p2 (s4_live s);
  let p4 := backfill4 <$> p3 in
  p5 ← join_pass c4_uuid cloud4 p4 (s4_cloud s);
  p6 ← for_each_photo (attach4 keywords.1 faces.1 albums.1 volumes) p5;
  Ok {| _db_version := version;
        _dbphotos := p6;
        _dbphotos_burst := pb.2;
        _dbfaces_uuid := faces.1;
        _dbfaces_person := faces.2;
        _dbkeywords_uuid := keywords.1;
        _dbkeywords_keyword := keywords.2;
        _dbalbums_uuid := albums.1;
        _dbalbums_album := albums.2;
        _dbalbum_details := details;
        _dbvolumes := volumes |}.

(** ** [_process_database5] *)

(** Faces: NULL names are skipped, the empty name becomes the unknown
    person. *)
Definition add_face5 (p : xref * xref) (row : face_row) : xref * xref :=
  match f_name row with
  | None => p
  | Some name =>
      let person_name := if negb (String.eqb name "") then name
                         else _UNKNOWN_PERSON C in
      xref_pair_add p person_name (f_uuid row)
  end.

Definition add_album_details5 (m : gmap string album_details)
    (row : album_details5_row) : gmap string album_details :=
  <[ad5_uuid row :=
      {| title := ad5_title row;
         cloudlibrarystate := PNone;
         cloudidentifier := PNone;
         cloudlocalstate := of_int (ad5_cloudlocalstate row);
         cloudownerfirstname := of_text (ad5_cloudownerfirstname row);
         cloudownderlastname := of_text (ad5_cloudownerlastname row);
         cloudownerhashedpersonid := of_text (ad5_cloudownerhashedpersonid row) |}]> m.

Definition add_volume5 (m : gmap (Z + string) (option string))
    (row : volume5_row) : gmap (Z + string) (option string) :=
  <[inr (vol5_uuid row) := vol5_name row]> m.

(** Kind 0 is a photo, 1 a movie, anything else is unknown. *)
Definition type5 (kind : option Z) : pyval :=
  if int_is kind 0 then PStr (_PHOTO_TYPE C)
  else if int_is kind 1 then PStr (_MOVIE_TYPE C)
  else PNone.

(** Latitude and longitude both equal to -180.0 stand for no location. *)
Definition no_location (row : photo5_row) : bool :=
  real_is (p5_latitude row) (-180) && real_is (p5_longitude row) (-180).

Definition photo5_info (row : photo5_row) : result dict :=
  lastmod ← fromtimestamp_or (p5_modificationDate row) (p5_dateCreated row);
  imagedate ← fromtimestamp (p5_dateCreated row);
  Ok (setitems ∅ [
    ("_uuid", PStr (p5_uuid row));
    ("modelID", PNone);
    ("masterUuid", PNone);
    ("masterFingerprint", of_text (p5_masterFingerprint row));
    ("name", of_text (p5_title row));
    ("lastmodifieddate", lastmod);
    ("imageDate", imagedate);
    ("imageTimeZoneOffsetSeconds", of_int (p5_timezoneOffset row));
    ("hidden", of_int (p5_hidden row));
    ("favorite", of_int (p5_favorite row));
    ("originalFilename", of_text (p5_originalFilename row));
    ("filename", of_text (p5_filename row));
    ("directory", of_text (p5_directory row));
    ("latitude", if no_location row then PNone else of_real (p5_latitude row));
    ("longitude", if no_location row then PNone else of_real (p5_longitude row));
    ("hasAdjustments", of_int (p5_hasAdjustments row));
    ("cloudbatchpublishdate", of_real (p5_cloudBatchPublishDate row));
    ("shared", PBool (bool_decide (p5_cloudBatchPublishDate row ≠ None)));
    ("extendedDescription", PNone);
    ("localAvailability", PNone);
    ("remoteAvailability", PNone);
    ("isMissing", PNone);
    ("adjustmentUuid", PNone);
    ("adjustmentFormatID", PNone);
    ("type", type5 (p5_kind row));
    ("UTI", of_text (p5_uniformTypeIdentifier row));
    ("burstUUID", of_text (p5_avalancheUuid row));
    ("burstPickType", of_int (p5_avalanchePickType row));
    ("burst", burst_flag (p5_avalancheUuid row));
    ("burst_key", burst_key_flag (p5_avalancheUuid row) (p5_avalanchePickType row));
    ("subtype", of_int (p5_kindSubtype row));
    ("live_photo", PBool (int_is (p5_kindSubtype row) 2));
    ("screenshot", PBool (int_is (p5_kindSubtype row) 10));
    ("slow_mo", PBool (int_is (p5_kindSubtype row) 101));
    ("time_lapse", PBool (int_is (p5_kindSubtype row) 102));
    ("customRenderedValue", of_int (p5_customRenderedValue row));
    ("hdr", PBool (int_is (p5_customRenderedValue row) 3));
    ("portrait", PBool (int_is (p5_customRenderedValue row) 8));
    ("panorama", PBool (int_is (p5_kindSubtype row) 1
                        || int_is (p5_customRenderedValue row) 6));
    ("selfie", PBool (int_is (p5_cameraCaptureDevice row) 1));
    ("cloudAssetGUID", of_text (p5_cloudAssetGuid row));
    ("cloudLocalState", PNone);
    ("incloud", PNone);
    ("cloudLibraryState", PNone);
    ("cloudStatus", PNone);
    ("cloudAvailable", PNone)
  ]).

Definition add_photo5 (st : gmap string dict * gmap string (gset string))
    (row : photo5_row) : result (gmap string dict * gmap string (gset string)) :=
  d ← photo5_info row;
  Ok (<[p5_uuid row := d]> st.1,
      match p5_avalancheUuid row with
      | Some b => burst_add st.2 b (p5_uuid row)
      | None => st.2
      end).

Definition description5 (row : description5_row) (d : dict) : result dict :=
  Ok (setitems d [("extendedDescription", of_text (d5_longDescription row))]).

Definition adjustment5 (row : adjustment5_row) (d : dict) : result dict :=
  Ok (setitems d [("adjustmentFormatID", of_text (j5_formatIdentifier row))]).

(** The body shared by the two availability loops: the photo is missing
    unless its local availability is 1. *)
Definition availability5 (row : availability5_row) (d : dict) : result dict :=
  Ok (setitems d [
    ("localAvailability", of_int (v5_localAvailability row));
    ("remoteAvailability", of_int (v5_remoteAvailability row));
    ("isMissing", PInt (if int_is (v5_localAvailability row) 1 then 0 else 1))
  ]).

Definition cloud5 (row : cloud5_row) (d : dict) : result dict :=
  Ok (setitems d [("cloudLocalState", of_int (c5_cloudLocalState row));
                  ("incloud", PBool (int_is (c5_cloudLocalState row) 3))]).

(** The last loop of the modern ingester; the keywords are attached when
    the uuid is a key of [_dbkeywords_uuid]. *)
Definition attach5 (keywords_uuid faces_uuid albums_uuid : xref)
    (uuid : string) (d : dict) : result dict :=
  let d1 := match keywords_uuid !! uuid with
            | Some l => setitems d [("hasKeywords", PInt 1); ("keywords", PList l)]
            | None => setitems d [("hasKeywords", PInt 0); ("keywords", PList [])]
            end in
  Ok (attach_albums albums_uuid uuid (attach_persons faces_uuid uuid d1)).

Definition ingest5 (version : string) (s : store5) : result PhotosDB :=
  let faces := foldl add_face5 (∅, ∅) (s5_faces s) in
  let albums := foldl add_album (∅, ∅) (s5_albums s) in
  let details := foldl add_album_details5 ∅ (s5_album_details s) in
  let keywords := foldl add_keyword (∅, ∅) (s5_keywords s) in
  let volumes := foldl add_volume5 ∅ (s5_volumes s) in
  pb ← foldM add_photo5 (∅, ∅) (s5_photos s);
  p1 ← join_pass d5_uuid description5 pb.1 (s5_descriptions s);
  p2 ← join_pass j5_uuid adjustment5 p1 (s5_adjustments s);
  p3 ← join_pass v5_uuid availability5 p2 (s5_availability_subtype s);
  p4 ← join_pass v5_uuid availability5 p3 (s5_availability_fingerprint s);
  p5 ← join_pass c5_uuid cloud5 p4 (s5_cloud s);
  p6 ← for_each_photo (attach5 keywords.1 faces.1 albums.1) p5;
  Ok {| _db_version := version;
        _dbphotos := p6;
        _dbphotos_burst := pb.2;
        _dbfaces_uuid := faces.1;
        _dbfaces_person := faces.2;
        _dbkeywords_uuid := keywords.1;
        _dbkeywords_keyword := keywords.2;
        _dbalbums_uuid := albums.1;
        _dbalbums_album := albums.2;
        _dbalbum_details := details;
        _dbvolumes := volumes |}.

End Ingest.

(** ** The query [photos()] *)

Record query := {
  q_keywords : option (list string);
  q_uuid : option (list string);
  q_persons : option (list string);
  q_albums : option (list string);
  q_images : bool;
  q_movies : bool;
  q_from_date : option Q;
  q_to_date : option Q;
}.

(** Truth value of an optional list argument: [None] and [[]] are false. *)
Definition given {A} (o : option (list A)) : bool :=
  match o with Some (_ :: _) => true | _ => false end.

Definition values {A} (o : option (list A)) : list A := default [] o.

(** [not any([keywords, uuid, persons, albums, from_date, to_date])];
    a datetime is always true. *)
Definition no_criteria (q : query) : bool :=
  negb (given (q_keywords q) || given (q_uuid q) || given (q_persons q)
        || given (q_albums q) || bool_decide (is_Some (q_from_date q))
        || bool_decide (is_Some (q_to_date q))).

(** [album_titles]: the album ids recorded under each title. *)
Definition album_titles (details : gmap string album_details)
  : gmap (option string) (list string) :=
  map_fold (λ album_id det acc,
              <[title det := default [] (acc !! title det) ++ [album_id]]> acc)
           ∅ details.

(** The members of all the albums of one title, by
    [album_set.update(self._dbalbums_album[album_id])]. *)
Definition album_set (db : PhotosDB) (ids : list string) : result (gset string) :=
  foldM (λ acc album_id,
           members ← getitem (_dbalbums_album db) album_id;
           Ok (acc ∪ list_to_set members))
        ∅ ids.

(** One set per requested album title that exists. *)
Definition albums_sets (db : PhotosDB) (albums : list string)
  : result (list (gset string)) :=
  let titles := album_titles (_dbalbum_details db) in
  foldM (λ sets album,
           match titles !! Some album with
           | Some ids => s ← album_set db ids; Ok (sets ++ [s])
           | None => Ok sets
           end)
        [] albums.

(** One singleton per requested uuid that exists. *)
Definition uuid_sets (db : PhotosDB) (uuids : list string) : list (gset string) :=
  flat_map (λ u, if has_key (_dbphotos db) u then [{[u]}] else []) uuids.

(** One set per requested name that is a key of the cross reference. *)
Definition xref_sets (m : xref) (names : list string) : list (gset string) :=
  flat_map (λ name, match m !! name with
                    | Some l => [list_to_set l]
                    | None => []
                    end) names.

(** [{k: v for k, v in dsel.items() if test(v["imageDate"])}]. *)
Definition date_select (test : Q → bool) (dsel : gmap string dict)
  : result (gmap string dict) :=
  map_fold (λ k v acc,
              m ← acc;
              d ← getitem v "imageDate";
              match d with
              | PDate t => Ok (if test t then <[k := v]> m else m)
              | _ => Err TypeError
              end)
           (Ok ∅) dsel.

Definition date_sets (db : PhotosDB) (from_date to_date : option Q)
  : result (list (gset string)) :=
  if bool_decide (is_Some from_date) || bool_decide (is_Some to_date) then
    d1 ← match from_date with
         | Some f => date_select (λ t, Qle_bool f t) (_dbphotos db)
         | None => Ok (_dbphotos db)
         end;
    d2 ← match to_date with
         | Some t' => date_select (λ t, Qle_bool t t') d1
         | None => Ok d1
         end;
    Ok [dom d2]
  else Ok [].

(** [photos_sets], in the order in which the source appends to it. *)
Definition photos_sets (db : PhotosDB) (q : query) : result (list (gset string)) :=
  if no_criteria q then Ok [dom (_dbphotos db)]
  else
    a ← (if given (q_albums q) then albums_sets db (values (q_albums q)) else Ok []);
    let u := if given (q_uuid q) then uuid_sets db (values (q_uuid q)) else [] in
    let k := if given (q_keywords q)
             then xref_sets (_dbkeywords_keyword db) (values (q_keywords q)) else [] in
    let p := if given (q_persons q)
             then xref_sets (_dbfaces_person db) (values (q_persons q)) else [] in
    d ← date_sets db (q_from_date q) (q_to_date q);
    Ok (a ++ u ++ k ++ p ++ d).

(** [set.intersection(s, *rest)]. *)
Definition set_intersection (s : gset string) (rest : list (gset string)) : gset string :=
  foldl (∩) s rest.

Section Query.
Variable C : Constants.

(** The body of the final loop for one uuid of the intersection: [Ok true]
    when the photo is appended to the result. *)
Definition keep (db : PhotosDB) (q : query) (p : string) : result bool :=
  info ← getitem (_dbphotos db) p;
  burst ← getitem info "burst";
  skip ← (if truthy burst
          then bk ← getitem info "burst_key"; Ok (negb (truthy bk))
          else Ok false);
  if (skip : bool) then Ok false
  else
    is_image ← (if q_images q
                then t ← getitem info "type"; Ok (py_eq t (PStr (_PHOTO_TYPE C)))
                else Ok false);
    if (is_image : bool) then Ok true
    else if q_movies q
         then t ← getitem info "type"; Ok (py_eq t (PStr (_MOVIE_TYPE C)))
         else Ok false.

(** The uuids of the [PhotoInfo] objects returned by [photos()]. *)
Definition photos (db : PhotosDB) (q : query) : result (list string) :=
  sets ← photos_sets db q;
  match sets with
  | [] => Ok []
  | s :: rest =>
      foldM (λ photoinfo p,
               k ← keep db q p;
               Ok (if (k : bool) then photoinfo ++ [p] else photoinfo))
            [] (elements (set_intersection s rest))
  end.

(** ** The shared album views *)

Inductive warning := albums_shared_not_implemented.

(** [self._dbalbum_details[k]["cloudownerhashedpersonid"] is not None]. *)
Definition is_shared (db : PhotosDB) (k : string) : result bool :=
  det ← getitem (_dbalbum_details db) k;
  Ok (match cloudownerhashedpersonid det with PNone => false | _ => true end).

(** [[k for k in self._dbalbums_album.keys() if ...is not None]]. *)
Definition shared_album_keys (db : PhotosDB) : result (list string) :=
  foldM (λ keys k,
           shared ← is_shared db k;
           Ok (if (shared : bool) then keys ++ [k] else keys))
        [] (map_to_list (_dbalbums_album db)).*1.

(** [self._db_version < _PHOTOS_5_VERSION], a comparison of two strings. *)
Definition version_below_5 (db : PhotosDB) : bool :=
  String.ltb (_db_version db) (_PHOTOS_5_VERSION C).

(** [albums_shared]: the warnings logged and the titles returned. *)
Definition albums_shared (db : PhotosDB)
  : result (list warning * gset (option string)) :=
  if version_below_5 db then Ok ([albums_shared_not_implemented], ∅)
  else
    keys ← shared_album_keys db;
    albums ← foldM (λ albums album,
                      det ← getitem (_dbalbum_details db) album;
                      Ok (albums ∪ {[title det]}))
                   ∅ keys;
    Ok ([], albums).

(** [albums_shared_as_dict]: the count of every title.  The returned
    dictionary is sorted by descending count; as a mapping it is the one
    below. *)
Definition albums_shared_as_dict (db : PhotosDB)
  : result (list warning * gmap (option string) nat) :=
  if version_below_5 db then Ok ([albums_shared_not_implemented], ∅)
  else
    keys ← shared_album_keys db;
    albums ← foldM (λ albums k,
                      det ← getitem (_dbalbum_details db) k;
                      members ← getitem (_dbalbums_album db) k;
                      Ok (<[title det :=
                              (default 0 (albums !! title det) + length members)%nat]>
                            albums))
                   ∅ keys;
    Ok ([], albums).

End Query.

(** ** The keyword, person and album views *)

(** [keywords_as_dict] and [persons_as_dict]: the number of uuids recorded
    under every key of a cross reference.  The returned dictionary is
    sorted by descending count; as a mapping it is the one below. *)
Definition count_view (m : xref) : result (gmap string nat) :=
  foldM (λ counts k, l ← getitem m k; Ok (<[k := length l]> counts))
        ∅ (map_to_list m).*1.

Definition keywords_as_dict (db : PhotosDB) : result (gmap string nat) :=
  count_view (_dbkeywords_keyword db).

Definition persons_as_dict (db : PhotosDB) : result (gmap string nat) :=
  count_view (_dbfaces_person db).

(** [keywords] and [persons]: the keys of the cross reference as a list,
    here in the order of the map and not in the order of insertion. *)
Definition keywords (db : PhotosDB) : list string :=
  (map_to_list (_dbkeywords_keyword db)).*1.

Definition persons (db : PhotosDB) : list string :=
  (map_to_list (_dbfaces_person db)).*1.

(** [self._dbalbum_details[k]["cloudownerhashedpersonid"] is None]. *)
Definition is_own (db : PhotosDB) (k : string) : result bool :=
  det ← getitem (_dbalbum_details db) k;
  Ok (match cloudownerhashedpersonid det with PNone => true | _ => false end).

Definition own_album_keys (db : PhotosDB) : result (list string) :=
  foldM (λ keys k,
           own ← is_own db k;
           Ok (if (own : bool) then keys ++ [k] else keys))
        [] (map_to_list (_dbalbums_album db)).*1.

(** [albums]: the titles of the albums that are not shared. *)
Definition albums (db : PhotosDB) : result (gset (option string)) :=
  keys ← own_album_keys db;
  foldM (λ albums album,
           det ← getitem (_dbalbum_details db) album;
           Ok (albums ∪ {[title det]}))
        ∅ keys.

(** [albums_as_dict]: the count of every such title, as a mapping. *)
Definition albums_as_dict (db : PhotosDB) : result (gmap (option string) nat) :=
  keys ← own_album_keys db;
  foldM (λ albums k,
           det ← getitem (_dbalbum_details db) k;
           members ← getitem (_dbalbums_album db) k;
           Ok (<[title det :=
                   (default 0 (albums !! title det) + length members)%nat]>
                 albums))
        ∅ keys.

(** ** Temporary files and [_cleanup_tmp_files] *)

(** The part of the world the clean-up touches: the list [self._tmp_files],
    the files that exist, the files whose removal raises, and the calls of
    [os.remove] made so far. *)
Record world := {
  tmp_files : list string;
  existing : gset string;
  undeletable : gset string;
  removals : list string;
}.

(** [l.remove(x)]: the first occurrence goes. *)
Fixpoint remove_first (x : string) (l : list string) : list string :=
  match l with
  | [] => []
  | y :: l' => if bool_decide (x = y) then l' else y :: remove_first x l'
  end.

Definition forget (f : string) (w : world) : world :=
  {| tmp_files := remove_first f (tmp_files w);
     existing := existing w;
     undeletable := undeletable w;
     removals := removals w |}.

(** [os.remove(f)]: the call is recorded; it raises when the file cannot
    be deleted, otherwise the file is gone. *)
Definition os_remove (f : string) (w : world) : result unit * world :=
  if bool_decide (f ∈ undeletable w)
  then (Err OSError,
        {| tmp_files := tmp_files w; existing := existing w;
           undeletable := undeletable w; removals := removals w ++ [f] |})
  else (Ok (),
        {| tmp_files := tmp_files w; existing := existing w ∖ {[f]};
           undeletable := undeletable w; removals := removals w ++ [f] |}).

(** The loop [for f in self._tmp_files:].  The iterator of a Python list is
    an index into the list, read afresh at every step, and the body removes
    entries from the very list it walks.  In the handler the message is
    built with the format ["exception %e removing %s" % (e, f)] when
    debugging is on, and [%e] applied to an exception object raises
    [TypeError]. *)
Fixpoint cleanup_loop (debug : bool) (fuel : nat) (i : nat) (w : world)
  : option (result unit * world) :=
  match fuel with
  | O => None
  | S fuel' =>
      match tmp_files w !! i with
      | None => Some (Ok (), w)
      | Some f =>
          if bool_decide (f ∈ existing w) then
            match os_remove f w with
            | (Ok _, w1) => cleanup_loop debug fuel' (S i) (forget f w1)
            | (Err _, w1) =>
                if debug then Some (Err TypeError, w1)
                else cleanup_loop debug fuel' (S i) w1
            end
          else cleanup_loop debug fuel' (S i) (forget f w)
      end
  end.

Definition _cleanup_tmp_files (debug : bool) (w : world)
  : option (result unit * world) :=
  cleanup_loop debug (S (length (tmp_files w))) 0 w.

(** ** The two ingestion runs and their dispatch *)

Section Run.
Variable C : Constants.
Variable debug : bool.

(** The ingester followed by the clean-up, which is the last statement of
    the method and is reached only when nothing was raised before it. *)
Definition finish (r : result PhotosDB) (w : world)
  : option (result PhotosDB * world) :=
  match r with
  | Err e => Some (Err e, w)
  | Ok db =>
      match _cleanup_tmp_files debug w with
      | Some (Ok _, w') => Some (Ok db, w')
      | Some (Err e, w') => Some (Err e, w')
      | None => None
      end
  end.

Definition _process_database4 (version : string) (s : store4) (w : world)
  : option (result PhotosDB * world) :=
  finish (ingest4 C version s) w.


End Run.

(** [int(s)] for the version markers, which are strings of decimal digits.
    The signs, blanks and underscores that Python accepts as well are not
    modelled: any other string counts as a [ValueError]. *)
Definition digit_of (a : Ascii.ascii) : option Z :=
  let n := Z.of_N (Ascii.N_of_ascii a) in
  if (48 <=? n) && (n <=? 57) then Some (n - 48) else None.

Fixpoint digits_value (acc : Z) (s : string) : option Z :=
  match s with
  | EmptyString => Some acc
  | String a s' =>
      match digit_of a with
      | Some d => digits_value (10 * acc + d) s'
      | None => None
      end
  end.

Definition int_of_string (s : string) : result Z :=
  match s with
  | EmptyString => Err ValueError
  | _ => match digits_value 0 s with Some z => Ok z | None => Err ValueError end
  end.

Inductive schema := Legacy | Modern.

(** The test [int(self._db_version) < int(_PHOTOS_5_VERSION)] that selects
    the ingester in [__init__]. *)
Definition classify (C : Constants) (version : string) : result schema :=
  v ← int_of_string version;
  t ← int_of_string (_PHOTOS_5_VERSION C);
  Ok (if v <? t then Legacy else Modern).

(** ** Auxiliary notions for the statements *)

(** [writes keys d d']: [d'] is [d] after assignments to keys among
    [keys]. *)
Definition writes (keys : list string) (d d' : dict) : Prop :=
  ∃ kvs, d' = setitems d kvs ∧ kvs.*1 ⊆ keys.

(** The keys assigned after the photo details loop, per ingester. *)
Definition late_keys4 : list string :=
  ["edit_resource_id"; "adjustmentFormatID"; "live_model_id";
   "modeResourceIsOnDisk"; "cloudLibraryState"; "cloudAvailable";
   "cloudStatus"; "incloud"; "keywords"; "hasPersons"; "persons";
   "albums"; "hasAlbums"; "volume"].

Definition late_keys5 : list string :=
  ["extendedDescription"; "adjustmentFormatID"; "localAvailability";
   "remoteAvailability"; "isMissing"; "cloudLocalState"; "incloud";
   "hasKeywords"; "keywords"; "hasPersons"; "persons"; "albums";
   "hasAlbums"].

(** The value last assigned to [k] in a run of assignments. *)
Fixpoint assoc_last (k : string) (kvs : list (string * pyval)) : option pyval :=
  match kvs with
  | [] => None
  | (k', v) :: kvs' =>
      match assoc_last k kvs' with
      | Some v' => Some v'
      | None => if String.eqb k' k then Some v else None
      end
  end.

(** The members of a burst group whose [burst_key] flag is [True]. *)
Definition is_representative (db : PhotosDB) (uuid : string) : bool :=
  match _dbphotos db !! uuid with
  | Some d => match d !! "burst_key" with Some (PBool true) => true | _ => false end
  | None => false
  end.

Definition representatives (db : PhotosDB) (burst_uuid : string) : list string :=
  List.filter (is_representative db)
              (elements (default ∅ (_dbphotos_burst db !! burst_uuid))).

(** The four burst keys of an entry agree with one another: the flags are
    those computed from the stored group and pick type. *)
Definition burst_consistent (d : dict) : Prop :=
  ∃ burst_uuid pick,
    d !! "burstUUID" = Some (of_text burst_uuid) ∧
    d !! "burstPickType" = Some (of_int pick) ∧
    d !! "burst" = Some (burst_flag burst_uuid) ∧
    d !! "burst_key" = Some (burst_key_flag burst_uuid pick).

(** One step of the three joins that follow the photo details loop of the
    legacy ingester. *)
Definition early_step4 (d d' : dict) : Prop :=
  (∃ row, edit4 row d = Ok d') ∨
  (∃ row, extedit4 row d = Ok d') ∨
  (∃ row, live4 row d = Ok d').

(** [assigns keys d d']: [d'] is [d] after assignments to exactly the keys
    [keys], in this order. *)
Definition assigns (keys : list string) (d d' : dict) : Prop :=
  ∃ kvs, d' = setitems d kvs ∧ kvs.*1 = keys.

(** The keys of the per-photo dictionaries.  [common_fields] are written by
    both ingesters, the other two lists by one of them only. *)
Definition common_fields : list string :=
  ["_uuid"; "modelID"; "masterUuid"; "filename"; "lastmodifieddate";
   "imageDate"; "hasAdjustments"; "hasKeywords"; "imageTimeZoneOffsetSeconds";
   "extendedDescription"; "name"; "isMissing"; "originalFilename"; "favorite";
   "hidden"; "latitude"; "longitude"; "adjustmentUuid"; "adjustmentFormatID";
   "type"; "UTI"; "burstUUID"; "burstPickType"; "burst"; "burst_key";
   "panorama"; "slow_mo"; "time_lapse"; "hdr"; "live_photo"; "screenshot";
   "portrait"; "selfie"; "cloudAssetGUID"; "cloudLocalState";
   "cloudLibraryState"; "cloudStatus"; "cloudAvailable"; "incloud";
   "keywords"; "hasPersons"; "persons"; "albums"; "hasAlbums"].

Definition legacy_only_fields : list string :=
  ["mainRating"; "volumeId"; "imagePath"; "specialType"; "masterModelID";
   "edit_resource_id"; "live_model_id"; "modeResourceIsOnDisk"; "volume"].

Definition modern_only_fields : list string :=
  ["masterFingerprint"; "directory"; "cloudbatchpublishdate"; "shared";
   "localAvailability"; "remoteAvailability"; "subtype";
   "customRenderedValue"].

(** The keys assigned by the photo details loop of each ingester, in the
    order of the assignments. *)
Definition photo4_keys : list string :=
  ["_uuid"; "modelID"; "masterUuid"; "filename"; "lastmodifieddate";
   "imageDate"; "mainRating"; "hasAdjustments"; "hasKeywords";
   "imageTimeZoneOffsetSeconds"; "volumeId"; "imagePath";
   "extendedDescription"; "name"; "isMissing"; "originalFilename";
   "favorite"; "hidden"; "latitude"; "longitude"; "adjustmentUuid";
   "adjustmentFormatID"; "type"; "UTI"; "burstUUID"; "burstPickType";
   "burst"; "burst_key"; "specialType"; "masterModelID"; "panorama";
   "slow_mo"; "time_lapse"; "hdr"; "live_photo"; "screenshot"; "portrait";
   "selfie"; "cloudAssetGUID"; "cloudLocalState"; "cloudLibraryState";
   "cloudStatus"; "cloudAvailable"; "incloud"].

Definition photo5_keys : list string :=
  ["_uuid"; "modelID"; "masterUuid"; "masterFingerprint"; "name";
   "lastmodifieddate"; "imageDate"; "imageTimeZoneOffsetSeconds"; "hidden";
   "favorite"; "originalFilename"; "filename"; "directory"; "latitude";
   "longitude"; "hasAdjustments"; "cloudbatchpublishdate"; "shared";
   "extendedDescription"; "localAvailability"; "remoteAvailability";
   "isMissing"; "adjustmentUuid"; "adjustmentFormatID"; "type"; "UTI";
   "burstUUID"; "burstPickType"; "burst"; "burst_key"; "subtype";
   "live_photo"; "screenshot"; "slow_mo"; "time_lapse";
   "customRenderedValue"; "hdr"; "portrait"; "panorama"; "selfie";
   "cloudAssetGUID"; "cloudLocalState"; "incloud"; "cloudLibraryState";
   "cloudStatus"; "cloudAvailable"].

(** The keys that an ingester fills with [None] because their content
    belongs to the other schema. *)
Definition absent4 (d : dict) : Prop :=
  d !! "selfie" = Some PNone ∧
  d !! "cloudAssetGUID" = Some PNone ∧
  d !! "cloudLocalState" = Some PNone.

Definition absent5 (d : dict) : Prop :=
  d !! "modelID" = Some PNone ∧
  d !! "masterUuid" = Some PNone ∧
  d !! "adjustmentUuid" = Some PNone ∧
  d !! "cloudLibraryState" = Some PNone ∧
  d !! "cloudStatus" = Some PNone ∧
  d !! "cloudAvailable" = Some PNone.

Definition is_ok {A} (r : result A) : bool :=
  match r with Ok _ => true | Err _ => false end.



(** ** Sample stores

    Small stores on which the functions above are run.  The constants take
    sample values; the general statements below hold for any values. *)

Definition sample_constants : Constants :=
  {| _PHOTO_TYPE := "photo";
     _MOVIE_TYPE := "movie";
     _PHOTOS_5_VERSION := "6000";
     _UNKNOWN_PERSON := "_UNKNOWN_" |}.

(** A legacy photo row with the given uuid, type code, keyword flag, volume
    and burst columns; every other column is NULL except the capture date. *)
Definition sample_photo4 (uuid : string) (type_code : option Z)
    (has_keywords : option Z) (volume : option Z)
    (burst_uuid : option string) (pick : option Z) : photo4_row :=
  {| p4_uuid := uuid; p4_modelId := None; p4_masterUuid := None;
     p4_filename := None; p4_lastmodifieddate := None;
     p4_imageDate := Some 0%Q; p4_mainRating := None;
     p4_hasAdjustments := None; p4_hasKeywords := has_keywords;
     p4_imageTimeZoneOffsetSeconds := None; p4_volumeId := volume;
     p4_imagePath := None; p4_extendedDescription := None; p4_name := None;
     p4_isMissing := None; p4_originalFileName := None;
     p4_isFavorite := None; p4_isHidden := None; p4_latitude := None;
     p4_longitude := None; p4_adjustmentUuid := None; p4_type := type_code;
     p4_UTI := None; p4_burstUuid := burst_uuid; p4_burstPickType := pick;
     p4_specialType := None; p4_masterModelID := None |}.

(** A modern photo row with the given uuid, kind and burst columns. *)
Definition sample_photo5 (uuid : string) (kind : option Z)
    (burst_uuid : option string) (pick : option Z) : photo5_row :=
  {| p5_uuid := uuid; p5_masterFingerprint := None; p5_title := None;
     p5_originalFilename := None; p5_modificationDate := None;
     p5_dateCreated := Some 0%Q; p5_timezoneOffset := None;
     p5_inferredTimezoneOffset := None; p5_timezoneName := None;
     p5_hidden := None; p5_favorite := None; p5_directory := None;
     p5_filename := None; p5_latitude := None; p5_longitude := None;
     p5_hasAdjustments := None; p5_cloudBatchPublishDate := None;
     p5_kind := kind; p5_uniformTypeIdentifier := None;
     p5_avalancheUuid := burst_uuid; p5_avalanchePickType := pick;
     p5_kindSubtype := None; p5_customRenderedValue := None;
     p5_cameraCaptureDevice := None; p5_cloudAssetGuid := None |}.


(** Five photos A to E; A and B carry the keyword cat, B and C the keyword
    dog, C and D are in the album titled Trip. *)
Definition trip_store : store5 :=
  {| s5_faces := [];
     s5_albums := [ {| a_album := "album-1"; a_uuid := "C" |};
                    {| a_album := "album-1"; a_uuid := "D" |} ];
     s5_album_details :=
       [ {| ad5_uuid := "album-1"; ad5_title := Some "Trip";
            ad5_cloudlocalstate := None; ad5_cloudownerfirstname := None;
            ad5_cloudownerlastname := None;
            ad5_cloudownerhashedpersonid := None |} ];
     s5_keywords := [ {| k_name := "cat"; k_uuid := "A" |};
                      {| k_name := "cat"; k_uuid := "B" |};
                      {| k_name := "dog"; k_uuid := "B" |};
                      {| k_name := "dog"; k_uuid := "C" |} ];
     s5_volumes := [];
     s5_photos := [ sample_photo5 "A" (Some 0) None None;
                    sample_photo5 "B" (Some 0) None None;
                    sample_photo5 "C" (Some 0) None None;
                    sample_photo5 "D" (Some 0) None None;
                    sample_photo5 "E" (Some 0) None None ];
     s5_descriptions := []; s5_adjustments := [];
     s5_availability_subtype := []; s5_availability_fingerprint := [];
     s5_cloud := [] |}.

Definition no_query : query :=
  {| q_keywords := None; q_uuid := None; q_persons := None; q_albums := None;
     q_images := true; q_movies := false;
     q_from_date := None; q_to_date := None |}.

Definition by_keywords (ks : list string) : query :=
  {| q_keywords := Some ks; q_uuid := None; q_persons := None;
     q_albums := None; q_images := true; q_movies := false;
     q_from_date := None; q_to_date := None |}.

Definition by_keywords_albums (ks als : list string) : query :=
  {| q_keywords := Some ks; q_uuid := None; q_persons := None;
     q_albums := Some als; q_images := true; q_movies := false;
     q_from_date := None; q_to_date := None |}.

Definition on_store5 {A} (s : store5) (f : PhotosDB → result A) : result A :=
  db ← ingest5 sample_constants "6000" s; f db.

Definition on_store4 {A} (s : store4) (f : PhotosDB → result A) : result A :=
  db ← ingest4 sample_constants "4025" s; f db.

(** A burst of three photos: X has a NULL pick type, Y pick type 8 and Z
    pick type 2. *)
Definition burst_store5 : store5 :=
  {| s5_faces := []; s5_albums := []; s5_album_details := [];
     s5_keywords := []; s5_volumes := [];
     s5_photos := [ sample_photo5 "X" (Some 0) (Some "burst-1") None;
                    sample_photo5 "Y" (Some 0) (Some "burst-1") (Some 8);
                    sample_photo5 "Z" (Some 0) (Some "burst-1") (Some 2) ];
     s5_descriptions := []; s5_adjustments := [];
     s5_availability_subtype := []; s5_availability_fingerprint := [];
     s5_cloud := [] |}.

Definition burst_store4 : store4 :=
  {| s4_faces := []; s4_albums := []; s4_album_details := [];
     s4_keywords := []; s4_volumes := [];
     s4_photos := [ sample_photo4 "X" (Some 2) None None (Some "burst-1") None;
                    sample_photo4 "Y" (Some 2) None None (Some "burst-1") (Some 8);
                    sample_photo4 "Z" (Some 2) None None (Some "burst-1") (Some 2) ];
     s4_edits := []; s4_extedits := []; s4_live := []; s4_cloud := [] |}.

(** The index of a store, for the examples; the empty index when the
    ingester raised. *)
Definition empty_db : PhotosDB :=
  {| _db_version := ""; _dbphotos := ∅; _dbphotos_burst := ∅;
     _dbfaces_uuid := ∅; _dbfaces_person := ∅; _dbkeywords_uuid := ∅;
     _dbkeywords_keyword := ∅; _dbalbums_uuid := ∅; _dbalbums_album := ∅;
     _dbalbum_details := ∅; _dbvolumes := ∅ |}.

Definition index_of (r : result PhotosDB) : PhotosDB :=
  match r with Ok db => db | Err _ => empty_db end.

Definition entry_of (db : PhotosDB) (uuid : string) : dict :=
  default ∅ (_dbphotos db !! uuid).

(** One photo X touched by both availability joins: the first reports local
    availability 1, the second local availability 0. *)
Definition availability_store : store5 :=
  {| s5_faces := []; s5_albums := []; s5_album_details := [];
     s5_keywords := []; s5_volumes := [];
     s5_photos := [ sample_photo5 "X" (Some 0) None None ];
     s5_descriptions := []; s5_adjustments := [];
     s5_availability_subtype :=
       [ {| v5_uuid := "X"; v5_localAvailability := Some 1;
            v5_remoteAvailability := Some 1 |} ];
     s5_availability_fingerprint :=
       [ {| v5_uuid := "X"; v5_localAvailability := Some 0;
            v5_remoteAvailability := Some 1 |} ];
     s5_cloud := [] |}.

(** The same store cut before the second join. *)
Definition availability_store_first_only : store5 :=
  {| s5_faces := []; s5_albums := []; s5_album_details := [];
     s5_keywords := []; s5_volumes := [];
     s5_photos := [ sample_photo5 "X" (Some 0) None None ];
     s5_descriptions := []; s5_adjustments := [];
     s5_availability_subtype :=
       [ {| v5_uuid := "X"; v5_localAvailability := Some 1;
            v5_remoteAvailability := Some 1 |} ];
     s5_availability_fingerprint := [];
     s5_cloud := [] |}.

(** A photo P, a movie M and an item U of an unknown kind. *)
Definition kinds_store : store5 :=
  {| s5_faces := []; s5_albums := []; s5_album_details := [];
     s5_keywords := []; s5_volumes := [];
     s5_photos := [ sample_photo5 "P" (Some 0) None None;
                    sample_photo5 "M" (Some 1) None None;
                    sample_photo5 "U" (Some 7) None None ];
     s5_descriptions := []; s5_adjustments := [];
     s5_availability_subtype := []; s5_availability_fingerprint := [];
     s5_cloud := [] |}.

Definition everything : query :=
  {| q_keywords := None; q_uuid := None; q_persons := None; q_albums := None;
     q_images := true; q_movies := true;
     q_from_date := None; q_to_date := None |}.

(** A legacy store and a modern store with the same single photo A. *)
Definition one_photo_store4 : store4 :=
  {| s4_faces := []; s4_albums := []; s4_album_details := [];
     s4_keywords := []; s4_volumes := [];
     s4_photos := [ sample_photo4 "A" (Some 2) None None None None ];
     s4_edits := []; s4_extedits := []; s4_live := []; s4_cloud := [] |}.

Definition one_photo_store5 : store5 :=
  {| s5_faces := []; s5_albums := []; s5_album_details := [];
     s5_keywords := []; s5_volumes := [];
     s5_photos := [ sample_photo5 "A" (Some 0) None None ];
     s5_descriptions := []; s5_adjustments := [];
     s5_availability_subtype := []; s5_availability_fingerprint := [];
     s5_cloud := [] |}.

(** A legacy store whose only photo A has [hasKeywords = 1] although no
    row of the keyword join mentions it, and the modern store of the same
    photo. *)
Definition flagged_store4 : store4 :=
  {| s4_faces := []; s4_albums := []; s4_album_details := [];
     s4_keywords := []; s4_volumes := [];
     s4_photos := [ sample_photo4 "A" (Some 2) (Some 1) None None None ];
     s4_edits := []; s4_extedits := []; s4_live := []; s4_cloud := [] |}.

(** A legacy store whose only photo A names volume 7, which the volume
    query does not list. *)
Definition unknown_volume_store4 : store4 :=
  {| s4_faces := []; s4_albums := []; s4_album_details := [];
     s4_keywords := []; s4_volumes := [];
     s4_photos := [ sample_photo4 "A" (Some 2) None (Some 7) None None ];
     s4_edits := []; s4_extedits := []; s4_live := []; s4_cloud := [] |}.

(** The copy of the database and of its two side files, all present and
    removable. *)
Definition three_tmp_files : world :=
  {| tmp_files := ["/tmp/osxphotos-1.db"; "/tmp/osxphotos-1.db-wal";
                   "/tmp/osxphotos-1.db-shm"];
     existing := {[ "/tmp/osxphotos-1.db"; "/tmp/osxphotos-1.db-wal";
                    "/tmp/osxphotos-1.db-shm" ]};
     undeletable := ∅;
     removals := [] |}.

(** The copy of the database alone, present but not removable. *)
Definition stubborn_tmp_file : world :=
  {| tmp_files := ["/tmp/osxphotos-1.db"];
     existing := {[ "/tmp/osxphotos-1.db" ]};
     undeletable := {[ "/tmp/osxphotos-1.db" ]};
     removals := [] |}.

(** A modern store with two shared albums (their records name an owner):
    "Holiday" holds photo A, "Empty" holds no photo; and the personal album
    "Mine" holds photo A too. *)
Definition shared_store : store5 :=
  {| s5_faces := [];
     s5_albums := [ {| a_album := "album-1"; a_uuid := "A" |};
                    {| a_album := "album-3"; a_uuid := "A" |} ];
     s5_album_details :=
       [ {| ad5_uuid := "album-1"; ad5_title := Some "Holiday";
            ad5_cloudlocalstate := None; ad5_cloudownerfirstname := None;
            ad5_cloudownerlastname := None;
            ad5_cloudownerhashedpersonid := Some "owner-1" |};
         {| ad5_uuid := "album-2"; ad5_title := Some "Empty";
            ad5_cloudlocalstate := None; ad5_cloudownerfirstname := None;
            ad5_cloudownerlastname := None;
            ad5_cloudownerhashedpersonid := Some "owner-1" |};
         {| ad5_uuid := "album-3"; ad5_title := Some "Mine";
            ad5_cloudlocalstate := None; ad5_cloudownerfirstname := None;
            ad5_cloudownerlastname := None;
            ad5_cloudownerhashedpersonid := None |} ];
     s5_keywords := []; s5_volumes := [];
     s5_photos := [ sample_photo5 "A" (Some 0) None None ];
     s5_descriptions := []; s5_adjustments := [];
     s5_availability_subtype := []; s5_availability_fingerprint := [];
     s5_cloud := [] |}.

(** A legacy store with one album holding photo A. *)
Definition album_store4 : store4 :=
  {| s4_faces := [];
     s4_albums := [ {| a_album := "album-1"; a_uuid := "A" |} ];
     s4_album_details :=
       [ {| ad4_uuid := "album-1"; ad4_name := Some "Holiday";
            ad4_cloudLibraryState := None; ad4_cloudIdentifier := None |} ];
     s4_keywords := []; s4_volumes := [];
     s4_photos := [ sample_photo4 "A" (Some 2) None None None None ];
     s4_edits := []; s4_extedits := []; s4_live := []; s4_cloud := [] |}.

(** ** Notions for the further properties *)

(** What a cross reference holds under a key whose rows give the list [l]:
    a key without rows is absent. *)
Definition entry_list (l : list string) : option (list string) :=
  match l with [] => None | _ => Some l end.

(** The (name, uuid) pair that a row of a join contributes to the two
    cross references, if any. *)
Definition keyword_pair (row : keyword_row) : option (string * string) :=
  Some (k_name row, k_uuid row).

Definition album_pair (row : album_row) : option (string * string) :=
  Some (a_album row, a_uuid row).

Definition face4_pair (row : face_row) : option (string * string) :=
  (λ name, (name, f_uuid row)) <$> f_name row.

Definition face5_pair (C : Constants) (row : face_row) : option (string * string) :=
  (λ name, (if negb (String.eqb name "") then name else _UNKNOWN_PERSON C,
            f_uuid row)) <$> f_name row.

(** The names paired with a uuid, and the uuids paired with a name, in the
    order of the rows. *)
Definition names_of (pairs : list (string * string)) (uuid : string) : list string :=
  (filter (λ nu, nu.2 = uuid) pairs).*1.

Definition uuids_of (pairs : list (string * string)) (name : string) : list string :=
  (filter (λ nu, nu.1 = name) pairs).*2.

(** The last row of the photo details query with a given uuid. *)
Definition last_row4 (s : store4) (uuid : string) : option photo4_row :=
  last (filter (λ row, p4_uuid row = uuid) (s4_photos s)).

Definition last_row5 (s : store5) (uuid : string) : option photo5_row :=
  last (filter (λ row, p5_uuid row = uuid) (s5_photos s)).



(** The last row of a join with a given uuid. *)
Definition last_for {R} (key : R → string) (uuid : string) (rows : list R)
  : option R :=
  last (filter (λ r, key r = uuid) rows).

(** The test of the edits loop, for an entry built from [row]. *)
Definition edit4_applies (row : photo4_row) (e : edit4_row) : bool :=
  py_eq (of_text (p4_adjustmentUuid row)) (of_text (e4_resourceTag e))
  && text_isnt (e4_adjustmentUuid e) "UNADJUSTEDNONRAW"
  && text_isnt (e4_adjustmentUuid e) "UNADJUSTED"
  && int_is (e4_attachedModelType e) 2.

(** The entries of a list at the even positions and those at the odd
    positions, counted from 0. *)
Fixpoint alternate {A} (l : list A) : list A * list A :=
  match l with
  | [] => ([], [])
  | x :: l' => let p := alternate l' in (x :: p.2, p.1)
  end.

(** What a clean-up may do to the world: it calls [os.remove] only on
    recorded temporary files that exist, no other file disappears, no file
    is added to the record, and nothing else changes. *)
Definition touches_only_tmp_files (w w' : world) : Prop :=
  (∃ l, removals w' = removals w ++ l
        ∧ ∀ f, f ∈ l → f ∈ tmp_files w ∧ f ∈ existing w)
  ∧ existing w' ⊆ existing w
  ∧ (∀ f, f ∈ existing w → f ∉ existing w' → f ∈ tmp_files w)
  ∧ tmp_files w' ⊆ tmp_files w
  ∧ undeletable w' = undeletable w.

(** Further sample queries and a store with an album that has a record but
    no member. *)
Definition by_dates (from_date to_date : option Q) : query :=
  {| q_keywords := None; q_uuid := None; q_persons := None; q_albums := None;
     q_images := true; q_movies := false;
     q_from_date := from_date; q_to_date := to_date |}.

Definition by_albums (als : list string) : query :=
  {| q_keywords := None; q_uuid := None; q_persons := None; q_albums := Some als;
     q_images := true; q_movies := false;
     q_from_date := None; q_to_date := None |}.

Definition empty_album_store : store5 :=
  {| s5_faces := []; s5_albums := [];
     s5_album_details :=
       [ {| ad5_uuid := "album-2"; ad5_title := Some "Empty";
            ad5_cloudlocalstate := None; ad5_cloudownerfirstname := None;
            ad5_cloudownerlastname := None;
            ad5_cloudownerhashedpersonid := None |} ];
     s5_keywords := []; s5_volumes := [];
     s5_photos := [ sample_photo5 "A" (Some 0) None None ];
     s5_descriptions := []; s5_adjustments := [];
     s5_availability_subtype := []; s5_availability_fingerprint := [];
     s5_cloud := [] |}.

(** The titles that the album views list: those of the albums that have
    members and a record without a cloud owner. *)
Definition own_title (db : PhotosDB) (t : option string) : Prop :=
  ∃ k members det,
    _dbalbums_album db !! k = Some members ∧
    _dbalbum_details db !! k = Some det ∧
    cloudownerhashedpersonid det = PNone ∧ title det = t.

(** Whether album [k] counts for title [t] in a view, [shared] telling
    which view, and the count of the title: the members of all such albums
    together. *)
Definition counts_for (db : PhotosDB) (shared : bool) (t : option string)
    (k : string) : bool :=
  match _dbalbum_details db !! k with
  | Some det =>
      bool_decide (title det = t)
      && match cloudownerhashedpersonid det with
         | PNone => negb shared
         | _ => shared
         end
  | None => false
  end.

Definition title_count (db : PhotosDB) (shared : bool) (t : option string) : nat :=
  sum_list ((λ km, length km.2)
              <$> filter (λ km, counts_for db shared t km.1 = true)
                         (map_to_list (_dbalbums_album db))).


(** A store whose keyword join yields a uuid Z that the photo details query
    does not. *)
Definition stray_keyword_store : store5 :=
  {| s5_faces := []; s5_albums := []; s5_album_details := [];
     s5_keywords := [ {| k_name := "cat"; k_uuid := "Z" |} ];
     s5_volumes := [];
     s5_photos := [ sample_photo5 "A" (Some 0) None None ];
     s5_descriptions := []; s5_adjustments := [];
     s5_availability_subtype := []; s5_availability_fingerprint := [];
     s5_cloud := [] |}.

(** The record that a row of the album details query stands for, per
    ingester. *)
Definition details4_of (row : album_details4_row) : album_details :=
  {| title := ad4_name row;
     cloudlibrarystate := of_int (ad4_cloudLibraryState row);
     cloudidentifier := of_text (ad4_cloudIdentifier row);
     cloudlocalstate := PNone;
     cloudownerfirstname := PNone;
     cloudownderlastname := PNone;
     cloudownerhashedpersonid := PNone |}.

Definition details5_of (row : album_details5_row) : album_details :=
  {| title := ad5_title row;
     cloudlibrarystate := PNone;
     cloudidentifier := PNone;
     cloudlocalstate := of_int (ad5_cloudlocalstate row);
     cloudownerfirstname := of_text (ad5_cloudownerfirstname row);
     cloudownderlastname := of_text (ad5_cloudownerlastname row);
     cloudownerhashedpersonid := of_text (ad5_cloudownerhashedpersonid row) |}.

(** * Properties *)

(** ** The error monad and the loops *)

Lemma bind_Ok {A B} (r : result A) (k : A → result B) (b : B) :
  (r ≫= k) = Ok b ↔ ∃ a, r = Ok a ∧ k a = Ok b.
Proof.
  destruct r as [a|e]; simpl.
  - split; [eauto | intros (a' & Ha & ?); congruence].
  - split; [done | intros (a' & Ha & ?); discriminate].
Qed.

Lemma getitem_Ok `{Countable K} {V} (d : gmap K V) (k : K) (v : V) :
  getitem d k = Ok v ↔ d !! k = Some v.
Proof. unfold getitem. destruct (d !! k); split; congruence. Qed.

Lemma index_of_Ok (r : result PhotosDB) : is_ok r = true → r = Ok (index_of r).
Proof. destruct r; [done | discriminate]. Qed.

Lemma lookup_Some_default {A} (o : option A) (a : A) :
  is_Some o → o = Some (default a o).
Proof. by intros [x ->]. Qed.

Lemma entry_of_Some (db : PhotosDB) (uuid : string) :
  has_key (_dbphotos db) uuid = true →
  _dbphotos db !! uuid = Some (entry_of db uuid).
Proof.
  unfold has_key, entry_of. intros [d Hd]%bool_decide_eq_true. by rewrite Hd.
Qed.

(** Goals closed by running the functions, and decidable goals closed by
    running their decision procedure. *)
Ltac run := vm_compute; reflexivity.
Ltac decided := apply (bool_decide_unpack _); vm_compute; exact I.
Ltac ingested := apply index_of_Ok; run.
Ltac entry := apply entry_of_Some; run.

Lemma foldM_app {A S} (f : S → A → result S) (s : S) (l1 l2 : list A) :
  foldM f s (l1 ++ l2) = (foldM f s l1 ≫= λ s', foldM f s' l2).
Proof.
  revert s. induction l1 as [|a l1 IH]; intros s; simpl; [done|].
  destruct (f s a); simpl; auto.
Qed.

Lemma foldM_total {A S} (f : S → A → result S) (l : list A) (s : S) :
  (∀ s a, a ∈ l → ∃ s', f s a = Ok s') → ∃ s', foldM f s l = Ok s'.
Proof.
  revert s. induction l as [|a l IH]; intros s Hf; simpl; [eauto|].
  destruct (Hf s a ltac:(left)) as [s1 ->]. simpl.
  apply IH. intros s' a' Ha'. apply Hf. by right.
Qed.

(** A loop that appends the elements passing a test keeps exactly those. *)
Lemma foldM_select {A} (f : A → result bool) (ps acc l : list A) :
  foldM (λ acc p, k ← f p; Ok (if (k : bool) then acc ++ [p] else acc)) acc ps = Ok l →
  ∀ p, p ∈ l ↔ p ∈ acc ∨ (p ∈ ps ∧ f p = Ok true).
Proof.
  revert acc. induction ps as [|a ps IH]; intros acc Hl p; simpl in Hl.
  - inversion Hl; subst. rewrite elem_of_nil. tauto.
  - apply bind_Ok in Hl as (acc' & Ha & Hl).
    apply bind_Ok in Ha as (k & Hk & [= <-]).
    rewrite (IH _ Hl p). destruct k.
    + rewrite elem_of_app, list_elem_of_singleton, elem_of_cons.
      split; [intros [[? | ->] | [? ?]]; auto | intros [? | [[-> | ?] ?]]; auto].
    + rewrite elem_of_cons.
      split; [intros [? | [? ?]]; auto | intros [? | [[-> | ?] ?]]; auto; congruence].
Qed.

(** ** The final loop of [photos()] *)

Lemma py_eq_str (t : pyval) (s : string) : py_eq t (PStr s) = true ↔ t = PStr s.
Proof.
  destruct t as [|b|z|r|s'|r|l]; simpl;
    try destruct b; try (split; discriminate).
  rewrite String.eqb_eq. split; congruence.
Qed.

Section QueryFacts.
Variable C : Constants.

(** What the loop body has checked when it appends a photo. *)
Lemma keep_true (db : PhotosDB) (q : query) (p : string) :
  keep C db q p = Ok true →
  ∃ info burst t,
    _dbphotos db !! p = Some info ∧
    info !! "burst" = Some burst ∧
    (truthy burst = true →
       ∃ bk, info !! "burst_key" = Some bk ∧ truthy bk = true) ∧
    info !! "type" = Some t ∧
    ((q_images q = true ∧ t = PStr (_PHOTO_TYPE C)) ∨
     (q_movies q = true ∧ t = PStr (_MOVIE_TYPE C))).
Proof.
  unfold keep. intros H.
  apply bind_Ok in H as (info & Hinfo%getitem_Ok & H).
  apply bind_Ok in H as (burst & Hburst%getitem_Ok & H).
  apply bind_Ok in H as (skip & Hskip & H).
  destruct skip; [discriminate|].
  assert (Hb : truthy burst = true →
               ∃ bk, info !! "burst_key" = Some bk ∧ truthy bk = true).
  { intros Ht. rewrite Ht in Hskip.
    apply bind_Ok in Hskip as (bk & Hbk%getitem_Ok & Hn).
    exists bk. split; [done|]. destruct (truthy bk); [done | discriminate]. }
  apply bind_Ok in H as (is_image & Himg & H).
  destruct is_image.
  - destruct (q_images q) eqn:Hi; [|discriminate].
    apply bind_Ok in Himg as (t & Ht%getitem_Ok & Heq).
    exists info, burst, t. repeat split; try done.
    left. split; [done|]. apply py_eq_str. congruence.
  - destruct (q_movies q) eqn:Hm; [|discriminate].
    apply bind_Ok in H as (t & Ht%getitem_Ok & Heq).
    exists info, burst, t. repeat split; try done.
    right. split; [done|]. apply py_eq_str. congruence.
Qed.

(** Every returned uuid lies in all the candidate sets and passed the loop
    body; conversely such a uuid is returned. *)
Lemma elem_of_set_intersection (s : gset string) (rest : list (gset string)) (p : string) :
  p ∈ set_intersection s rest ↔ ∀ s', s' ∈ s :: rest → p ∈ s'.
Proof.
  unfold set_intersection. revert s.
  induction rest as [|r rest IH]; intros s; simpl.
  - split; [intros ? s' ->%list_elem_of_singleton; done | intros H; apply H; left].
  - rewrite IH. split.
    + intros H s' [-> | [-> | Hs']%elem_of_cons]%elem_of_cons.
      * specialize (H (s ∩ r) ltac:(left)).
        by apply elem_of_intersection in H as [? ?].
      * specialize (H (s ∩ r) ltac:(left)).
        by apply elem_of_intersection in H as [? ?].
      * apply H. by right.
    + intros H s' [-> | Hs']%elem_of_cons.
      * apply elem_of_intersection. split; apply H; [left | right; left].
      * apply H. right. by right.
Qed.

Lemma photos_elem (db : PhotosDB) (q : query) (sets : list (gset string))
    (l : list string) (p : string) :
  photos_sets db q = Ok sets →
  photos C db q = Ok l →
  p ∈ l ↔ sets ≠ [] ∧ (∀ s, s ∈ sets → p ∈ s) ∧ keep C db q p = Ok true.
Proof.
  intros Hsets. unfold photos. rewrite Hsets. simpl.
  destruct sets as [|s rest].
  - intros [= <-]. rewrite elem_of_nil. tauto.
  - intros Hl. rewrite (foldM_select _ _ _ _ Hl p), elem_of_nil.
    rewrite elem_of_elements, elem_of_set_intersection.
    split; [intros [[] | [? ?]]; done | intros (_ & ? & ?); auto].
Qed.

Lemma photos_keep (db : PhotosDB) (q : query) (l : list string) (p : string) :
  photos C db q = Ok l → p ∈ l → keep C db q p = Ok true.
Proof.
  intros Hl Hp. destruct (photos_sets db q) as [sets|e] eqn:Hsets.
  - by apply (photos_elem db q sets l p Hsets Hl).
  - unfold photos in Hl. rewrite Hsets in Hl. discriminate.
Qed.

End QueryFacts.

(** ** Assignments to a dictionary *)

Lemma setitems_app (d : dict) (a b : list (string * pyval)) :
  setitems d (a ++ b) = setitems (setitems d a) b.
Proof. unfold setitems. apply foldl_app. Qed.

Lemma lookup_setitems_ne (d : dict) (kvs : list (string * pyval)) (k : string) :
  k ∉ kvs.*1 → setitems d kvs !! k = d !! k.
Proof.
  revert d. induction kvs as [|[k' v] kvs IH]; intros d Hk; [done|].
  change (setitems (<[k' := v]> d) kvs !! k = d !! k).
  rewrite fmap_cons, not_elem_of_cons in Hk. destruct Hk as [Hne Hk].
  rewrite IH by done. by apply lookup_insert_ne.
Qed.

Lemma dom_setitems (d : dict) (kvs : list (string * pyval)) :
  dom (setitems d kvs) = dom d ∪ list_to_set kvs.*1.
Proof.
  revert d. induction kvs as [|[k' v] kvs IH]; intros d.
  - simpl. by rewrite (right_id_L ∅ (∪)).
  - change (dom (setitems (<[k' := v]> d) kvs)
            = dom d ∪ ({[k']} ∪ list_to_set kvs.*1)).
    rewrite IH, dom_insert_L.
    rewrite (assoc_L (∪)). f_equal. apply (comm_L (∪)).
Qed.

(** ** The loops over the rows of a join *)

Section Loops.
Context {R : Type} (key : R → string) (upd : R → dict → result dict).

Lemma join_pass_preserves (P : string → dict → Prop) :
  (∀ row d d', P (key row) d → upd row d = Ok d' → P (key row) d') →
  ∀ rows m m',
    join_pass key upd m rows = Ok m' → map_Forall P m → map_Forall P m'.
Proof.
  intros Hupd rows. induction rows as [|row rows IH]; intros m m' Hm HP.
  - simpl in Hm. by inversion Hm; subst.
  - simpl in Hm. apply bind_Ok in Hm as (m1 & Hrow & Hm).
    apply (IH _ _ Hm). unfold update_photo in Hrow.
    destruct (m !! key row) as [d|] eqn:Hd.
    + apply bind_Ok in Hrow as (d' & Hd' & Heq). inversion Heq; subst.
      apply map_Forall_insert_2; [|done]. eapply Hupd; [|done]. by apply HP.
    + by inversion Hrow; subst.
Qed.

Lemma join_pass_dom (rows : list R) (m m' : gmap string dict) :
  join_pass key upd m rows = Ok m' → dom m' = dom m.
Proof.
  revert m. induction rows as [|row rows IH]; intros m Hm.
  - simpl in Hm. by inversion Hm; subst.
  - simpl in Hm. apply bind_Ok in Hm as (m1 & Hrow & Hm).
    rewrite (IH _ Hm). unfold update_photo in Hrow.
    destruct (m !! key row) as [d|] eqn:Hd.
    + apply bind_Ok in Hrow as (d' & Hd' & Heq). inversion Heq; subst.
      rewrite dom_insert_L. apply elem_of_dom_2 in Hd.
      apply set_eq. intros x. rewrite elem_of_union, elem_of_singleton.
      split; [intros [-> | ?]; done | auto].
    + by inversion Hrow; subst.
Qed.

(** Rows of other photos leave the entry of a photo alone. *)
Lemma join_pass_other (u : string) (rows : list R) (m m' : gmap string dict) :
  Forall (λ row, key row ≠ u) rows →
  join_pass key upd m rows = Ok m' → m' !! u = m !! u.
Proof.
  revert m. induction rows as [|row rows IH]; intros m Hne Hm.
  - simpl in Hm. by inversion Hm; subst.
  - simpl in Hm. apply bind_Ok in Hm as (m1 & Hrow & Hm).
    apply Forall_cons in Hne as [Hrow_ne Hne].
    rewrite (IH _ Hne Hm). unfold update_photo in Hrow.
    destruct (m !! key row) as [d|] eqn:Hd.
    + apply bind_Ok in Hrow as (d' & Hd' & Heq). inversion Heq; subst.
      by apply lookup_insert_ne.
    + by inversion Hrow; subst.
Qed.

(** The last row of a photo decides its entry. *)
Lemma join_pass_last (u : string) (before after : list R) (row : R)
    (m m' : gmap string dict) :
  key row = u →
  Forall (λ r, key r ≠ u) after →
  is_Some (m !! u) →
  join_pass key upd m (before ++ row :: after) = Ok m' →
  ∃ d d', upd row d = Ok d' ∧ m' !! u = Some d'.
Proof.
  intros Hkey Hafter Hu Hm. unfold join_pass in Hm. rewrite foldM_app in Hm.
  apply bind_Ok in Hm as (m1 & Hbefore & Hm). simpl in Hm.
  apply bind_Ok in Hm as (m2 & Hrow & Hm).
  rewrite (join_pass_other u after m2 m' Hafter Hm).
  assert (Hu1 : is_Some (m1 !! u)).
  { apply elem_of_dom. rewrite (join_pass_dom before m m1 Hbefore).
    by apply elem_of_dom. }
  destruct Hu1 as [d Hd]. unfold update_photo in Hrow.
  rewrite Hkey, Hd in Hrow.
  apply bind_Ok in Hrow as (d' & Hd' & Heq). inversion Heq; subst.
  exists d, d'. split; [done|]. apply lookup_insert_eq.
Qed.


End Loops.

(** The loop over all photos: every entry is replaced by its image. *)
Lemma for_each_photo_lookup (f : string → dict → result dict)
    (m m' : gmap string dict) :
  for_each_photo f m = Ok m' →
  ∀ u, match m !! u with
       | Some d => ∃ d', f u d = Ok d' ∧ m' !! u = Some d'
       | None => m' !! u = None
       end.
Proof.
  unfold for_each_photo. revert m'.
  apply (map_fold_weak_ind
    (λ r m, ∀ m', r = Ok m' →
       ∀ u, match m !! u with
            | Some d => ∃ d', f u d = Ok d' ∧ m' !! u = Some d'
            | None => m' !! u = None
            end)).
  - intros m' Hm' u. inversion Hm'; subst. by rewrite !lookup_empty.
  - intros i x m0 r Hi IH m' Hm' u.
    apply bind_Ok in Hm' as (m1 & -> & Hm').
    apply bind_Ok in Hm' as (d' & Hd' & Heq). inversion Heq; subst.
    specialize (IH m1 eq_refl u).
    destruct (decide (i = u)) as [-> | Hne].
    + rewrite !lookup_insert_eq. eauto.
    + rewrite !lookup_insert_ne by done. done.
Qed.

Lemma for_each_photo_Forall (P Q : string → dict → Prop)
    (f : string → dict → result dict) (m m' : gmap string dict) :
  (∀ u d d', P u d → f u d = Ok d' → Q u d') →
  for_each_photo f m = Ok m' → map_Forall P m → map_Forall Q m'.
Proof.
  intros Hf Hm HP u d' Hu. pose proof (for_each_photo_lookup f m m' Hm u) as H.
  destruct (m !! u) as [d|] eqn:Hd; [|congruence].
  destruct H as (d'' & Hfd & Hu'). rewrite Hu in Hu'. inversion Hu'; subst.
  eapply Hf; [|done]. by apply HP.
Qed.


Lemma for_each_photo_dom (f : string → dict → result dict) (m m' : gmap string dict) :
  for_each_photo f m = Ok m' → dom m' = dom m.
Proof.
  intros Hm. apply set_eq. intros u. rewrite !elem_of_dom.
  pose proof (for_each_photo_lookup f m m' Hm u) as H.
  destruct (m !! u) as [d|].
  - destruct H as (d' & _ & ->). split; eauto.
  - rewrite H. split; intros [? ?]; done.
Qed.

(** ** What a pass may write *)

Lemma writes_refl (keys : list string) (d : dict) : writes keys d d.
Proof. exists []. split; [done|]. apply list_subseteq_nil. Qed.

Lemma writes_setitems (keys : list string) (d : dict) (kvs : list (string * pyval)) :
  kvs.*1 ⊆ keys → writes keys d (setitems d kvs).
Proof. intros H. by exists kvs. Qed.

Lemma writes_trans (keys : list string) (d1 d2 d3 : dict) :
  writes keys d1 d2 → writes keys d2 d3 → writes keys d1 d3.
Proof.
  intros (a & -> & Ha) (b & -> & Hb). exists (a ++ b).
  split; [by rewrite setitems_app|].
  rewrite fmap_app. intros x [?|?]%elem_of_app; auto.
Qed.

Lemma writes_mono (keys keys' : list string) (d d' : dict) :
  keys ⊆ keys' → writes keys d d' → writes keys' d d'.
Proof. intros Hsub (kvs & -> & Hk). exists kvs. split; [done|]. by etrans. Qed.

Lemma writes_frame (keys : list string) (d d' : dict) (k : string) :
  writes keys d d' → k ∉ keys → d' !! k = d !! k.
Proof. intros (kvs & -> & Hk) Hnot. apply lookup_setitems_ne. auto. Qed.

Lemma writes_dom (keys : list string) (d d' : dict) :
  writes keys d d' → dom d ⊆ dom d' ∧ dom d' ⊆ dom d ∪ list_to_set keys.
Proof.
  intros (kvs & -> & Hk). rewrite dom_setitems. split.
  - apply union_subseteq_l.
  - apply union_mono_l. intros x. rewrite !elem_of_list_to_set. apply Hk.
Qed.

(** Inclusion of a literal list of keys in another, element by element. *)
Ltac keys_sub :=
  let x := fresh in let Hx := fresh in
  intros x Hx; simpl in Hx;
  repeat (apply elem_of_cons in Hx as [-> | Hx]; [decided|]);
  by apply elem_of_nil in Hx.

Lemma attach_persons_writes (faces_uuid : xref) (u : string) (d : dict) :
  writes ["hasPersons"; "persons"] d (attach_persons faces_uuid u d).
Proof.
  unfold attach_persons. destruct (faces_uuid !! u);
    apply writes_setitems; keys_sub.
Qed.

Lemma attach_albums_writes (albums_uuid : xref) (u : string) (d : dict) :
  writes ["albums"; "hasAlbums"] d (attach_albums albums_uuid u d).
Proof.
  unfold attach_albums. destruct (albums_uuid !! u);
    apply writes_setitems; keys_sub.
Qed.

Section IngestFacts.
Variable C : Constants.

Lemma edit4_writes (row : edit4_row) (d d' : dict) :
  edit4 row d = Ok d' → writes ["edit_resource_id"] d d'.
Proof.
  unfold edit4. intros H. apply bind_Ok in H as (adj & _ & H).
  destruct (_ && _) in H; injection H as <-.
  - apply writes_setitems. keys_sub.
  - apply writes_refl.
Qed.

Lemma extedit4_writes (row : extedit4_row) (d d' : dict) :
  extedit4 row d = Ok d' → writes ["adjustmentFormatID"] d d'.
Proof. intros [= <-]. apply writes_setitems. keys_sub. Qed.

Lemma live4_writes (row : live4_row) (d d' : dict) :
  live4 row d = Ok d' → writes ["live_model_id"; "modeResourceIsOnDisk"] d d'.
Proof. intros [= <-]. apply writes_setitems. keys_sub. Qed.

Lemma backfill4_writes (d : dict) :
  writes ["edit_resource_id"; "live_model_id"; "modeResourceIsOnDisk"] d (backfill4 d).
Proof.
  unfold backfill4.
  eapply writes_trans with
    (d2 := if has_key d "edit_resource_id" then d
           else setitems d [("edit_resource_id", PNone)]).
  - destruct (has_key d "edit_resource_id");
      [apply writes_refl | apply writes_setitems; keys_sub].
  - destruct (has_key _ "live_model_id");
      [apply writes_refl | apply writes_setitems; keys_sub].
Qed.

Lemma cloud4_writes (row : cloud4_row) (d d' : dict) :
  cloud4 row d = Ok d' →
  writes ["cloudLibraryState"; "cloudAvailable"; "cloudStatus"; "incloud"] d d'.
Proof. intros [= <-]. apply writes_setitems. keys_sub. Qed.

Lemma attach4_writes (kw faces albums : xref)
    (volumes : gmap (Z + string) (option string)) (u : string) (d d' : dict) :
  attach4 kw faces albums volumes u d = Ok d' →
  writes ["keywords"; "hasPersons"; "persons"; "albums"; "hasAlbums"; "volume"] d d'.
Proof.
  unfold attach4. intros H.
  apply bind_Ok in H as (hk & _ & H).
  apply bind_Ok in H as (d1 & Hd1 & H).
  apply bind_Ok in H as (vid & _ & H).
  assert (writes ["keywords"] d d1) as W1.
  { destruct (py_eq hk (PInt 1)).
    - apply bind_Ok in Hd1 as (l & _ & [= <-]). apply writes_setitems. keys_sub.
    - injection Hd1 as <-. apply writes_setitems. keys_sub. }
  set (keys := ["keywords"; "hasPersons"; "persons"; "albums"; "hasAlbums"; "volume"]).
  assert (writes keys d (attach_albums albums u (attach_persons faces u d1))) as W3.
  { eapply writes_trans; [|eapply writes_trans].
    - eapply writes_mono; [|exact W1]. keys_sub.
    - eapply writes_mono; [|apply attach_persons_writes]. keys_sub.
    - eapply writes_mono; [|apply attach_albums_writes]. keys_sub. }
  eapply writes_trans; [exact W3|].
  destruct vid; try (destruct (volume_key _) in H; [|discriminate]);
    try apply bind_Ok in H as (name & _ & H);
    injection H as <-; apply writes_setitems; keys_sub.
Qed.

End IngestFacts.

Section Stages.
Variable C : Constants.

Lemma description5_writes (row : description5_row) (d d' : dict) :
  description5 row d = Ok d' → writes ["extendedDescription"] d d'.
Proof. intros [= <-]. apply writes_setitems. keys_sub. Qed.

Lemma adjustment5_writes (row : adjustment5_row) (d d' : dict) :
  adjustment5 row d = Ok d' → writes ["adjustmentFormatID"] d d'.
Proof. intros [= <-]. apply writes_setitems. keys_sub. Qed.

Lemma availability5_writes (row : availability5_row) (d d' : dict) :
  availability5 row d = Ok d' →
  writes ["localAvailability"; "remoteAvailability"; "isMissing"] d d'.
Proof. intros [= <-]. apply writes_setitems. keys_sub. Qed.

Lemma cloud5_writes (row : cloud5_row) (d d' : dict) :
  cloud5 row d = Ok d' → writes ["cloudLocalState"; "incloud"] d d'.
Proof. intros [= <-]. apply writes_setitems. keys_sub. Qed.

Lemma attach5_writes (kw faces albums : xref) (u : string) (d d' : dict) :
  attach5 kw faces albums u d = Ok d' →
  writes ["hasKeywords"; "keywords"; "hasPersons"; "persons"; "albums"; "hasAlbums"] d d'.
Proof.
  unfold attach5. intros [= <-].
  set (keys := ["hasKeywords"; "keywords"; "hasPersons"; "persons"; "albums"; "hasAlbums"]).
  assert (∀ d1, writes keys d d1 →
                writes keys d (attach_albums albums u (attach_persons faces u d1))) as W.
  { intros d1 W1. eapply writes_trans; [exact W1|]. eapply writes_trans.
    - eapply writes_mono; [|apply attach_persons_writes]. keys_sub.
    - eapply writes_mono; [|apply attach_albums_writes]. keys_sub. }
  apply W. destruct (kw !! u); apply writes_setitems; keys_sub.
Qed.

(** The photo details loop: every entry is the dictionary of one of the
    rows, filed under the uuid of that row. *)
Lemma add_photo4_Forall (P : string → dict → Prop) (rows : list photo4_row)
    (st st' : gmap string dict * gmap string (gset string)) :
  (∀ row d, row ∈ rows → photo4_info C row = Ok d → P (p4_uuid row) d) →
  foldM (add_photo4 C) st rows = Ok st' →
  map_Forall P st.1 → map_Forall P st'.1.
Proof.
  revert st. induction rows as [|row rows IH]; intros st Hrows Hst HP.
  - simpl in Hst. by injection Hst as <-.
  - simpl in Hst. apply bind_Ok in Hst as (st1 & Hrow & Hst).
    apply (IH st1); [intros r d ?; apply Hrows; by right | done |].
    unfold add_photo4 in Hrow. apply bind_Ok in Hrow as (d & Hd & Heq).
    injection Heq as <-. simpl.
    apply map_Forall_insert_2; [|done]. apply Hrows; [left | done].
Qed.

Lemma add_photo5_Forall (P : string → dict → Prop) (rows : list photo5_row)
    (st st' : gmap string dict * gmap string (gset string)) :
  (∀ row d, row ∈ rows → photo5_info C row = Ok d → P (p5_uuid row) d) →
  foldM (add_photo5 C) st rows = Ok st' →
  map_Forall P st.1 → map_Forall P st'.1.
Proof.
  revert st. induction rows as [|row rows IH]; intros st Hrows Hst HP.
  - simpl in Hst. by injection Hst as <-.
  - simpl in Hst. apply bind_Ok in Hst as (st1 & Hrow & Hst).
    apply (IH st1); [intros r d ?; apply Hrows; by right | done |].
    unfold add_photo5 in Hrow. apply bind_Ok in Hrow as (d & Hd & Heq).
    injection Heq as <-. simpl.
    apply map_Forall_insert_2; [|done]. apply Hrows; [left | done].
Qed.

Lemma early_step4_writes (d d' : dict) :
  early_step4 d d' →
  writes ["edit_resource_id"; "adjustmentFormatID"; "live_model_id";
          "modeResourceIsOnDisk"] d d'.
Proof.
  intros [[row H] | [[row H] | [row H]]].
  - eapply writes_mono; [|by eapply edit4_writes]. keys_sub.
  - eapply writes_mono; [|by eapply extedit4_writes]. keys_sub.
  - eapply writes_mono; [|by eapply live4_writes]. keys_sub.
Qed.

(** A property of the entries of [_dbphotos] after the legacy ingester:
    [P] holds of the dictionary of each row and survives the three joins
    that follow, [Q] is what the backfill makes of it and survives the
    cloud join, [R] is what the last loop makes of it. *)
Lemma ingest4_stages (P Q R : string → dict → Prop) (version : string)
    (s : store4) (db : PhotosDB) :
  (∀ row d, row ∈ s4_photos s → photo4_info C row = Ok d → P (p4_uuid row) d) →
  (∀ u d d', P u d → early_step4 d d' → P u d') →
  (∀ u d, P u d → Q u (backfill4 d)) →
  (∀ u d d', Q u d →
     writes ["cloudLibraryState"; "cloudAvailable"; "cloudStatus"; "incloud"] d d' →
     Q u d') →
  (∀ u d d' kw faces albums volumes,
     Q u d → attach4 kw faces albums volumes u d = Ok d' → R u d') →
  ingest4 C version s = Ok db →
  map_Forall R (_dbphotos db).
Proof.
  intros Hinfo HP HQ Hcloud HR Hdb. unfold ingest4 in Hdb.
  apply bind_Ok in Hdb as (pb & Hpb & Hdb).
  apply bind_Ok in Hdb as (p1 & Hp1 & Hdb).
  apply bind_Ok in Hdb as (p2 & Hp2 & Hdb).
  apply bind_Ok in Hdb as (p3 & Hp3 & Hdb).
  apply bind_Ok in Hdb as (p5 & Hp5 & Hdb).
  apply bind_Ok in Hdb as (p6 & Hp6 & Hdb).
  injection Hdb as <-. simpl.
  eapply for_each_photo_Forall; [|exact Hp6|].
  { intros u d d' Hd Hd'. eapply HR; eauto. }
  eapply join_pass_preserves; [|exact Hp5|].
  { intros row d d' Hd Hd'. eapply Hcloud; [exact Hd|]. by eapply cloud4_writes. }
  apply map_Forall_fmap. eapply map_Forall_impl; [|intros u d Hd; apply HQ, Hd].
  eapply join_pass_preserves; [|exact Hp3|].
  { intros row d d' Hd Hd'. eapply HP; [exact Hd|].
    right; right. by exists row. }
  eapply join_pass_preserves; [|exact Hp2|].
  { intros row d d' Hd Hd'. eapply HP; [exact Hd|].
    right; left. by exists row. }
  eapply join_pass_preserves; [|exact Hp1|].
  { intros row d d' Hd Hd'. eapply HP; [exact Hd|].
    left. by exists row. }
  eapply add_photo4_Forall; [exact Hinfo | exact Hpb |].
  apply map_Forall_empty.
Qed.

(** The same for the modern ingester: [P] holds of the dictionary of each
    row and survives the five joins, [Q] is what the last loop makes of
    it. *)
Lemma ingest5_stages (P Q : string → dict → Prop) (version : string)
    (s : store5) (db : PhotosDB) :
  (∀ row d, row ∈ s5_photos s → photo5_info C row = Ok d → P (p5_uuid row) d) →
  (∀ u d d', P u d →
     writes ["extendedDescription"; "adjustmentFormatID"; "localAvailability";
             "remoteAvailability"; "isMissing"; "cloudLocalState"; "incloud"] d d' →
     P u d') →
  (∀ u d d' kw faces albums,
     P u d → attach5 kw faces albums u d = Ok d' → Q u d') →
  ingest5 C version s = Ok db →
  map_Forall Q (_dbphotos db).
Proof.
  intros Hinfo HP HQ Hdb. unfold ingest5 in Hdb.
  apply bind_Ok in Hdb as (pb & Hpb & Hdb).
  apply bind_Ok in Hdb as (p1 & Hp1 & Hdb).
  apply bind_Ok in Hdb as (p2 & Hp2 & Hdb).
  apply bind_Ok in Hdb as (p3 & Hp3 & Hdb).
  apply bind_Ok in Hdb as (p4 & Hp4 & Hdb).
  apply bind_Ok in Hdb as (p5 & Hp5 & Hdb).
  apply bind_Ok in Hdb as (p6 & Hp6 & Hdb).
  injection Hdb as <-. simpl.
  eapply for_each_photo_Forall; [|exact Hp6|].
  { intros u d d' Hd Hd'. eapply HQ; eauto. }
  eapply join_pass_preserves; [|exact Hp5|].
  { intros row d d' Hd Hd'. eapply HP; [exact Hd|].
    eapply writes_mono; [|by eapply cloud5_writes]. keys_sub. }
  eapply join_pass_preserves; [|exact Hp4|].
  { intros row d d' Hd Hd'. eapply HP; [exact Hd|].
    eapply writes_mono; [|by eapply availability5_writes]. keys_sub. }
  eapply join_pass_preserves; [|exact Hp3|].
  { intros row d d' Hd Hd'. eapply HP; [exact Hd|].
    eapply writes_mono; [|by eapply availability5_writes]. keys_sub. }
  eapply join_pass_preserves; [|exact Hp2|].
  { intros row d d' Hd Hd'. eapply HP; [exact Hd|].
    eapply writes_mono; [|by eapply adjustment5_writes]. keys_sub. }
  eapply join_pass_preserves; [|exact Hp1|].
  { intros row d d' Hd Hd'. eapply HP; [exact Hd|].
    eapply writes_mono; [|by eapply description5_writes]. keys_sub. }
  eapply add_photo5_Forall; [exact Hinfo | exact Hpb |].
  apply map_Forall_empty.
Qed.

(** A property that no later assignment can disturb holds at the end of
    either ingester as soon as it holds of the dictionary of each row. *)
Lemma ingest4_frame (P : string → dict → Prop) (version : string)
    (s : store4) (db : PhotosDB) :
  (∀ row d, row ∈ s4_photos s → photo4_info C row = Ok d → P (p4_uuid row) d) →
  (∀ u d d', P u d → writes late_keys4 d d' → P u d') →
  ingest4 C version s = Ok db →
  map_Forall P (_dbphotos db).
Proof.
  intros Hinfo HP. apply (ingest4_stages P P P); [done | | | |].
  - intros u d d' Hd W. apply (HP u d d' Hd).
    eapply writes_mono; [|by apply early_step4_writes]. keys_sub.
  - intros u d Hd. apply (HP u d _ Hd).
    eapply writes_mono; [|apply backfill4_writes]. keys_sub.
  - intros u d d' Hd W. apply (HP u d d' Hd).
    eapply writes_mono; [|exact W]. keys_sub.
  - intros u d d' kw faces albums volumes Hd Hat. apply (HP u d d' Hd).
    eapply writes_mono; [|by eapply attach4_writes]. keys_sub.
Qed.

Lemma ingest5_frame (P : string → dict → Prop) (version : string)
    (s : store5) (db : PhotosDB) :
  (∀ row d, row ∈ s5_photos s → photo5_info C row = Ok d → P (p5_uuid row) d) →
  (∀ u d d', P u d → writes late_keys5 d d' → P u d') →
  ingest5 C version s = Ok db →
  map_Forall P (_dbphotos db).
Proof.
  intros Hinfo HP. apply (ingest5_stages P P); [done | |].
  - intros u d d' Hd W. apply (HP u d d' Hd).
    eapply writes_mono; [|exact W]. keys_sub.
  - intros u d d' kw faces albums Hd Hat. apply (HP u d d' Hd).
    eapply writes_mono; [|by eapply attach5_writes]. keys_sub.
Qed.

End Stages.

(** ** Reading a key after a run of assignments *)

Lemma lookup_setitems (d : dict) (kvs : list (string * pyval)) (k : string) :
  setitems d kvs !! k =
  match assoc_last k kvs with Some v => Some v | None => d !! k end.
Proof.
  revert d. induction kvs as [|[k' v] kvs IH]; intros d; [done|].
  change (setitems (<[k' := v]> d) kvs !! k =
          match assoc_last k ((k', v) :: kvs) with
          | Some v0 => Some v0 | None => d !! k end).
  rewrite IH. simpl. destruct (assoc_last k kvs); [done|].
  destruct (String.eqb_spec k' k) as [-> | Hne].
  - apply lookup_insert_eq.
  - by apply lookup_insert_ne.
Qed.

(** ** Burst photos *)

Lemma burst_key_flag_spec (burst_uuid : option string) (pick : option Z) :
  burst_key_flag burst_uuid pick =
  match burst_uuid with
  | Some _ => PBool (bool_decide (pick ≠ Some 2 ∧ pick ≠ Some 4))
  | None => PNone
  end.
Proof.
  unfold burst_key_flag. destruct burst_uuid; [|done]. f_equal.
  case_bool_decide as H.
  - destruct H as [H2 H4]. destruct pick as [z|]; [|done]. unfold int_is.
    destruct (Z.eqb_spec z 2), (Z.eqb_spec z 4); subst; done.
  - destruct pick as [z|]; unfold int_is.
    + destruct (Z.eqb_spec z 2), (Z.eqb_spec z 4); subst; try done.
      exfalso. apply H. split; congruence.
    + exfalso. apply H. split; congruence.
Qed.

Lemma burst_consistent_writes (keys : list string) (d d' : dict) :
  burst_consistent d → writes keys d d' →
  "burstUUID" ∉ keys → "burstPickType" ∉ keys →
  "burst" ∉ keys → "burst_key" ∉ keys →
  burst_consistent d'.
Proof.
  intros (bu & pick & H1 & H2 & H3 & H4) W N1 N2 N3 N4.
  exists bu, pick.
  rewrite !(writes_frame keys d d') by done. done.
Qed.

Section Burst.
Variable C : Constants.

Lemma photo4_info_burst (row : photo4_row) (d : dict) :
  photo4_info C row = Ok d → burst_consistent d.
Proof.
  unfold photo4_info. intros H.
  apply bind_Ok in H as (lastmod & _ & H).
  apply bind_Ok in H as (imagedate & _ & H). injection H as <-.
  exists (p4_burstUuid row), (p4_burstPickType row).
  rewrite !lookup_setitems. done.
Qed.

Lemma photo5_info_burst (row : photo5_row) (d : dict) :
  photo5_info C row = Ok d → burst_consistent d.
Proof.
  unfold photo5_info. intros H.
  apply bind_Ok in H as (lastmod & _ & H).
  apply bind_Ok in H as (imagedate & _ & H). injection H as <-.
  exists (p5_avalancheUuid row), (p5_avalanchePickType row).
  rewrite !lookup_setitems. done.
Qed.

Lemma ingest4_burst_consistent (version : string) (s : store4) (db : PhotosDB) :
  ingest4 C version s = Ok db → map_Forall (λ _, burst_consistent) (_dbphotos db).
Proof.
  apply (ingest4_frame C (λ _, burst_consistent)).
  - intros row d _. apply photo4_info_burst.
  - intros u d d' Hd W. apply (burst_consistent_writes late_keys4 d d' Hd W); decided.
Qed.

Lemma ingest5_burst_consistent (version : string) (s : store5) (db : PhotosDB) :
  ingest5 C version s = Ok db → map_Forall (λ _, burst_consistent) (_dbphotos db).
Proof.
  apply (ingest5_frame C (λ _, burst_consistent)).
  - intros row d _. apply photo5_info_burst.
  - intros u d d' Hd W. apply (burst_consistent_writes late_keys5 d d' Hd W); decided.
Qed.

End Burst.

(** C2 (as amended).  After either ingester, the burst flags of every entry
    of [_dbphotos] are a function of the raw columns stored in the same
    entry: [burst] is true exactly for a non-NULL group, and for a burst
    photo [burst_key] is true exactly when the pick type is neither 2 nor 4
    (a NULL pick type included); outside a burst [burst_key] is [None].
    Nothing relates the flags of different members of one group. *)
Theorem burst_key_follows_pick_type (C : Constants) (version : string)
    (db : PhotosDB) (u : string) (d : dict) :
  (∃ s, ingest4 C version s = Ok db) ∨ (∃ s, ingest5 C version s = Ok db) →
  _dbphotos db !! u = Some d →
  ∃ burst_uuid pick,
    d !! "burstUUID" = Some (of_text burst_uuid) ∧
    d !! "burstPickType" = Some (of_int pick) ∧
    d !! "burst" = Some (PBool (bool_decide (burst_uuid ≠ None))) ∧
    d !! "burst_key" =
      Some (match burst_uuid with
            | Some _ => PBool (bool_decide (pick ≠ Some 2 ∧ pick ≠ Some 4))
            | None => PNone
            end).
Proof.
  intros Hdb Hd.
  assert (burst_consistent d) as (bu & pick & H1 & H2 & H3 & H4).
  { destruct Hdb as [[s Hs] | [s Hs]].
    - by apply (ingest4_burst_consistent C version s db Hs u d).
    - by apply (ingest5_burst_consistent C version s db Hs u d). }
  exists bu, pick. rewrite <- burst_key_flag_spec. done.
Qed.

Lemma burst_key_follows_pick_type_witness :
  ∃ burst_uuid pick,
    entry_of (index_of (ingest5 sample_constants "6000" burst_store5)) "Z"
      !! "burstUUID" = Some (of_text burst_uuid) ∧
    entry_of (index_of (ingest5 sample_constants "6000" burst_store5)) "Z"
      !! "burstPickType" = Some (of_int pick) ∧
    entry_of (index_of (ingest5 sample_constants "6000" burst_store5)) "Z"
      !! "burst" = Some (PBool (bool_decide (burst_uuid ≠ None))) ∧
    entry_of (index_of (ingest5 sample_constants "6000" burst_store5)) "Z"
      !! "burst_key" =
      Some (match burst_uuid with
            | Some _ => PBool (bool_decide (pick ≠ Some 2 ∧ pick ≠ Some 4))
            | None => PNone
            end).
Proof.
  apply (burst_key_follows_pick_type sample_constants "6000"
           (index_of (ingest5 sample_constants "6000" burst_store5)) "Z").
  - right. exists burst_store5. ingested.
  - entry.
Defined.

(** C2 as stated fails: in the burst of [burst_store5] two of the three
    members are representatives, under the modern and under the legacy
    ingester alike. *)
Lemma burst_group_with_two_representatives :
  ¬ (∀ db, ingest5 sample_constants "6000" burst_store5 = Ok db →
       ∀ b members, _dbphotos_burst db !! b = Some members → members ≠ ∅ →
         length (representatives db b) = 1%nat)
  ∧
  ¬ (∀ db, ingest4 sample_constants "4025" burst_store4 = Ok db →
       ∀ b members, _dbphotos_burst db !! b = Some members → members ≠ ∅ →
         length (representatives db b) = 1%nat).
Proof.
  split.
  - intros H.
    set (db := index_of (ingest5 sample_constants "6000" burst_store5)).
    set (members := default ∅ (_dbphotos_burst db !! "burst-1")).
    specialize (H db ltac:(ingested) "burst-1" members).
    specialize (H ltac:(apply lookup_Some_default; decided)).
    assert ("X" ∈ members) as Hx by decided.
    specialize (H ltac:(intros Heq; rewrite Heq in Hx; by apply not_elem_of_empty in Hx)).
    assert (length (representatives db "burst-1") = 2%nat) as E by run.
    rewrite E in H. clear -H. discriminate H.
  - intros H.
    set (db := index_of (ingest4 sample_constants "4025" burst_store4)).
    set (members := default ∅ (_dbphotos_burst db !! "burst-1")).
    specialize (H db ltac:(ingested) "burst-1" members).
    specialize (H ltac:(apply lookup_Some_default; decided)).
    assert ("X" ∈ members) as Hx by decided.
    specialize (H ltac:(intros Heq; rewrite Heq in Hx; by apply not_elem_of_empty in Hx)).
    assert (length (representatives db "burst-1") = 2%nat) as E by run.
    rewrite E in H. clear -H. discriminate H.
Qed.

Example burst_store5_representatives :
  on_store5 burst_store5 (λ db, Ok (length (representatives db "burst-1"))) = Ok 2%nat.
Proof. vm_compute. reflexivity. Qed.

(** ** The two availability joins of the modern ingester *)

Section Availability.
Variable C : Constants.

(** C3.  In the modern ingester the last row that the second (fingerprint)
    availability join yields for a photo of the index decides its
    [localAvailability], [remoteAvailability] and [isMissing], whatever the
    first join yielded for it; [isMissing] is 1 unless the local
    availability of that row is 1. *)
Theorem second_availability_join_wins (version : string) (s : store5)
    (db : PhotosDB) (u : string) (before after : list availability5_row)
    (row : availability5_row) :
  ingest5 C version s = Ok db →
  s5_availability_fingerprint s = before ++ row :: after →
  v5_uuid row = u →
  Forall (λ r, v5_uuid r ≠ u) after →
  u ∈ dom (_dbphotos db) →
  ∃ d, _dbphotos db !! u = Some d ∧
       d !! "localAvailability" = Some (of_int (v5_localAvailability row)) ∧
       d !! "remoteAvailability" = Some (of_int (v5_remoteAvailability row)) ∧
       d !! "isMissing" =
         Some (PInt (if int_is (v5_localAvailability row) 1 then 0 else 1)).
Proof.
  intros Hdb Hrows Hkey Hafter Hu. unfold ingest5 in Hdb.
  apply bind_Ok in Hdb as (pb & Hpb & Hdb).
  apply bind_Ok in Hdb as (p1 & Hp1 & Hdb).
  apply bind_Ok in Hdb as (p2 & Hp2 & Hdb).
  apply bind_Ok in Hdb as (p3 & Hp3 & Hdb).
  apply bind_Ok in Hdb as (p4 & Hp4 & Hdb).
  apply bind_Ok in Hdb as (p5 & Hp5 & Hdb).
  apply bind_Ok in Hdb as (p6 & Hp6 & Hdb).
  injection Hdb as <-. simpl in *.
  set (P := λ (u' : string) (d : dict), u' = u →
         d !! "localAvailability" = Some (of_int (v5_localAvailability row)) ∧
         d !! "remoteAvailability" = Some (of_int (v5_remoteAvailability row)) ∧
         d !! "isMissing" =
           Some (PInt (if int_is (v5_localAvailability row) 1 then 0 else 1))).
  assert (∀ keys u' d d', P u' d → writes keys d d' →
            "localAvailability" ∉ keys → "remoteAvailability" ∉ keys →
            "isMissing" ∉ keys → P u' d') as Hframe.
  { intros keys u' d d' Hd W N1 N2 N3 Heq.
    rewrite !(writes_frame keys d d') by done. by apply Hd. }
  (* the photo is present throughout the joins *)
  rewrite (for_each_photo_dom _ _ _ Hp6) in Hu.
  rewrite (join_pass_dom _ _ _ _ _ Hp5) in Hu.
  rewrite (join_pass_dom _ _ _ _ _ Hp4) in Hu.
  apply elem_of_dom in Hu.
  (* the second join *)
  rewrite Hrows in Hp4.
  destruct (join_pass_last _ _ u before after row p3 p4 Hkey Hafter Hu Hp4)
    as (d0 & d4 & Hd4 & Hp4u).
  assert (map_Forall P p4) as HP4.
  { intros u' d Hd ->. rewrite Hp4u in Hd. injection Hd as <-.
    injection Hd4 as <-. rewrite !lookup_setitems. done. }
  (* the cloud join and the last loop write other keys *)
  assert (map_Forall P p5) as HP5.
  { eapply join_pass_preserves; [|exact Hp5|exact HP4].
    intros r d d' Hd Hd'. eapply Hframe; [exact Hd | by eapply cloud5_writes | ..];
      decided. }
  assert (map_Forall P p6) as HP6.
  { eapply for_each_photo_Forall; [|exact Hp6|exact HP5].
    intros u' d d' Hd Hd'. eapply Hframe; [exact Hd | by eapply attach5_writes | ..];
      decided. }
  assert (is_Some (p6 !! u)) as [d Hd].
  { apply elem_of_dom. rewrite (for_each_photo_dom _ _ _ Hp6).
    rewrite (join_pass_dom _ _ _ _ _ Hp5). apply elem_of_dom. eauto. }
  exists d. split; [done|]. by apply (HP6 u d Hd).
Qed.

End Availability.

Lemma second_availability_join_wins_witness :
  ∃ d, _dbphotos (index_of (ingest5 sample_constants "6000" availability_store))
         !! "X" = Some d ∧
       d !! "localAvailability" = Some (PInt 0) ∧
       d !! "remoteAvailability" = Some (PInt 1) ∧
       d !! "isMissing" = Some (PInt 1).
Proof.
  apply (second_availability_join_wins sample_constants "6000" availability_store
           (index_of (ingest5 sample_constants "6000" availability_store)) "X"
           [] []
           {| v5_uuid := "X"; v5_localAvailability := Some 0;
              v5_remoteAvailability := Some 1 |}).
  - ingested.
  - reflexivity.
  - reflexivity.
  - apply Forall_nil_2.
  - decided.
Defined.

(** The photo of the witness was not missing after the first join alone. *)
Example first_availability_join_alone :
  on_store5 availability_store_first_only
    (λ db, d ← getitem (_dbphotos db) "X"; getitem d "isMissing")
  = Ok (PInt 0).
Proof. vm_compute. reflexivity. Qed.

(** ** What [photos()] returns *)

Section Results.
Variable C : Constants.

(** C7.  A photo returned by [photos()] whose [burst] flag is true has a
    true [burst_key] flag: burst members that are not the selected ones are
    dropped, whatever the criteria. *)
Theorem photos_drops_unselected_burst (db : PhotosDB) (q : query)
    (l : list string) (p : string) (info : dict) (burst : pyval) :
  photos C db q = Ok l →
  p ∈ l →
  _dbphotos db !! p = Some info →
  info !! "burst" = Some burst →
  truthy burst = true →
  (∃ bk, info !! "burst_key" = Some bk ∧ truthy bk = true)
  ∧ ¬ (burst = PBool true ∧ info !! "burst_key" = Some (PBool false)).
Proof.
  intros Hl Hp Hinfo Hburst Ht.
  destruct (keep_true C db q p (photos_keep C db q l p Hl Hp))
    as (info' & burst' & t & Hinfo' & Hburst' & Hbk & _).
  rewrite Hinfo in Hinfo'. injection Hinfo' as <-.
  rewrite Hburst in Hburst'. injection Hburst' as <-.
  destruct (Hbk Ht) as (bk & Hbk1 & Hbk2).
  split; [eauto|]. intros [_ Hfalse]. rewrite Hbk1 in Hfalse.
  injection Hfalse as ->. discriminate.
Qed.

(** The type of a returned photo is the one asked for by a toggle. *)
Lemma photos_kept_type (db : PhotosDB) (q : query) (l : list string) (p : string) :
  photos C db q = Ok l → p ∈ l →
  ∃ info, _dbphotos db !! p = Some info ∧
    ((q_images q = true ∧ info !! "type" = Some (PStr (_PHOTO_TYPE C))) ∨
     (q_movies q = true ∧ info !! "type" = Some (PStr (_MOVIE_TYPE C)))).
Proof.
  intros Hl Hp.
  destruct (keep_true C db q p (photos_keep C db q l p Hl Hp))
    as (info & burst & t & Hinfo & _ & _ & Ht & Hkind).
  exists info. split; [done|].
  destruct Hkind as [[? ->] | [? ->]]; auto.
Qed.

(** C8.  A photo is returned only if images are asked for and its type is
    the photo type, or movies are asked for and its type is the movie
    type.  With images on and movies off, an entry whose type is the movie
    type is not returned. *)
Theorem photos_media_toggle (db : PhotosDB) (q : query) (l : list string) :
  photos C db q = Ok l →
  (∀ p, p ∈ l →
     ∃ info, _dbphotos db !! p = Some info ∧
       ((q_images q = true ∧ info !! "type" = Some (PStr (_PHOTO_TYPE C))) ∨
        (q_movies q = true ∧ info !! "type" = Some (PStr (_MOVIE_TYPE C)))))
  ∧ (_PHOTO_TYPE C ≠ _MOVIE_TYPE C → q_movies q = false →
     ∀ p info, _dbphotos db !! p = Some info →
       info !! "type" = Some (PStr (_MOVIE_TYPE C)) → p ∉ l)
  ∧ (q_images q = false → q_movies q = false → l = []).
Proof.
  intros Hl.
  pose proof (λ p, photos_kept_type db q l p Hl) as Hkept.
  split; [exact Hkept|]. split.
  - intros Hne Hmov p info Hinfo Htype Hp.
    destruct (Hkept p Hp) as (info' & Hinfo' & [[_ Ht] | [Hm _]]).
    + rewrite Hinfo in Hinfo'. injection Hinfo' as <-.
      rewrite Htype in Ht. injection Ht as Heq. by apply Hne.
    + congruence.
  - intros Hi Hm. destruct l as [|p l']; [done|].
    destruct (Hkept p ltac:(left)) as (info & _ & [[? _] | [? _]]); congruence.
Qed.

(** C10.  No photo returned by [photos()] has the type [None], whatever the
    toggles; and [None] is the type that both ingesters store for a type
    code that is neither the photo nor the movie code. *)
Theorem photos_never_unknown_kind (db : PhotosDB) (q : query)
    (l : list string) (p : string) (info : dict) :
  photos C db q = Ok l →
  p ∈ l →
  _dbphotos db !! p = Some info →
  info !! "type" ≠ Some PNone
  ∧ (∀ code, code ≠ Some 2 → code ≠ Some 8 → type4 C code = PNone)
  ∧ (∀ kind, kind ≠ Some 0 → kind ≠ Some 1 → type5 C kind = PNone).
Proof.
  intros Hl Hp Hinfo. split; [|split].
  - destruct (photos_kept_type db q l p Hl Hp) as (info' & Hinfo' & Hkind).
    rewrite Hinfo in Hinfo'. injection Hinfo' as <-.
    destruct Hkind as [[_ ->] | [_ ->]]; discriminate.
  - intros code H2 H8. unfold type4, int_is. destruct code as [z|]; [|done].
    destruct (Z.eqb_spec z 2); [congruence|].
    destruct (Z.eqb_spec z 8); [congruence|]. done.
  - intros kind H0 H1. unfold type5, int_is. destruct kind as [z|]; [|done].
    destruct (Z.eqb_spec z 0); [congruence|].
    destruct (Z.eqb_spec z 1); [congruence|]. done.
Qed.

End Results.

Lemma photos_drops_unselected_burst_witness :
  (∃ bk, entry_of (index_of (ingest5 sample_constants "6000" burst_store5)) "Y"
           !! "burst_key" = Some bk ∧ truthy bk = true)
  ∧ ¬ (PBool true = PBool true ∧
       entry_of (index_of (ingest5 sample_constants "6000" burst_store5)) "Y"
         !! "burst_key" = Some (PBool false)).
Proof.
  apply (photos_drops_unselected_burst sample_constants
           (index_of (ingest5 sample_constants "6000" burst_store5))
           no_query ["Y"; "X"] "Y"
           (entry_of (index_of (ingest5 sample_constants "6000" burst_store5)) "Y")
           (PBool true)).
  - run.
  - decided.
  - entry.
  - run.
  - reflexivity.
Defined.

Lemma photos_media_toggle_witness :
  photos sample_constants (index_of (ingest5 sample_constants "6000" kinds_store))
    no_query = Ok ["P"]
  ∧ entry_of (index_of (ingest5 sample_constants "6000" kinds_store)) "M"
      !! "type" = Some (PStr "movie")
  ∧ "M" ∉ ["P"].
Proof.
  assert (photos sample_constants
            (index_of (ingest5 sample_constants "6000" kinds_store)) no_query
          = Ok ["P"]) as Hl by run.
  assert (entry_of (index_of (ingest5 sample_constants "6000" kinds_store)) "M"
            !! "type" = Some (PStr "movie")) as Ht by run.
  split; [exact Hl|]. split; [exact Ht|].
  apply (proj1 (proj2 (photos_media_toggle sample_constants _ no_query ["P"] Hl))
           ltac:(discriminate) eq_refl "M" _ ltac:(entry) Ht).
Defined.

Lemma photos_never_unknown_kind_witness :
  entry_of (index_of (ingest5 sample_constants "6000" kinds_store)) "M"
    !! "type" ≠ Some PNone
  ∧ (∀ code, code ≠ Some 2 → code ≠ Some 8 → type4 sample_constants code = PNone)
  ∧ (∀ kind, kind ≠ Some 0 → kind ≠ Some 1 → type5 sample_constants kind = PNone).
Proof.
  apply (photos_never_unknown_kind sample_constants
           (index_of (ingest5 sample_constants "6000" kinds_store))
           everything ["M"; "P"] "M").
  - run.
  - decided.
  - entry.
Defined.

(** The movie and the item of unknown kind are left out under the default
    toggles; the item of unknown kind is left out even when asked for by
    uuid with both toggles on. *)
Example kinds_default :
  on_store5 kinds_store (λ db, photos sample_constants db no_query) = Ok ["P"].
Proof. vm_compute. reflexivity. Qed.

Example kinds_unknown_by_uuid :
  on_store5 kinds_store
    (λ db, photos sample_constants db
             {| q_keywords := None; q_uuid := Some ["U"]; q_persons := None;
                q_albums := None; q_images := true; q_movies := true;
                q_from_date := None; q_to_date := None |})
  = Ok [].
Proof. vm_compute. reflexivity. Qed.

(** ** The keys of the per-photo dictionaries *)

Lemma assigns_writes (keys : list string) (d d' : dict) :
  assigns keys d d' → writes keys d d'.
Proof. intros (kvs & -> & <-). by exists kvs. Qed.

Lemma assigns_dom (keys : list string) (d d' : dict) :
  assigns keys d d' → dom d' = dom d ∪ list_to_set keys.
Proof. intros (kvs & -> & <-). apply dom_setitems. Qed.

Lemma assigns_setitems (d : dict) (kvs : list (string * pyval)) :
  assigns kvs.*1 d (setitems d kvs).
Proof. by exists kvs. Qed.

Lemma assigns_trans (k1 k2 : list string) (d1 d2 d3 : dict) :
  assigns k1 d1 d2 → assigns k2 d2 d3 → assigns (k1 ++ k2) d1 d3.
Proof.
  intros (a & -> & <-) (b & -> & <-). exists (a ++ b).
  split; [by rewrite setitems_app | by rewrite fmap_app].
Qed.

Lemma attach_persons_assigns (faces_uuid : xref) (u : string) (d : dict) :
  assigns ["hasPersons"; "persons"] d (attach_persons faces_uuid u d).
Proof.
  unfold attach_persons.
  destruct (faces_uuid !! u); apply (assigns_setitems d [(_, _); (_, _)]).
Qed.

Lemma attach_albums_assigns (albums_uuid : xref) (u : string) (d : dict) :
  assigns ["albums"; "hasAlbums"] d (attach_albums albums_uuid u d).
Proof.
  unfold attach_albums.
  destruct (albums_uuid !! u); apply (assigns_setitems d [(_, _); (_, _)]).
Qed.

Lemma attach4_assigns (kw faces albums : xref)
    (volumes : gmap (Z + string) (option string)) (u : string) (d d' : dict) :
  attach4 kw faces albums volumes u d = Ok d' →
  assigns ["keywords"; "hasPersons"; "persons"; "albums"; "hasAlbums"; "volume"] d d'.
Proof.
  unfold attach4. intros H.
  apply bind_Ok in H as (hk & _ & H).
  apply bind_Ok in H as (d1 & Hd1 & H).
  apply bind_Ok in H as (vid & _ & H).
  assert (assigns ["keywords"] d d1) as W1.
  { destruct (py_eq hk (PInt 1)).
    - apply bind_Ok in Hd1 as (l & _ & [= <-]).
      apply (assigns_setitems d [(_, _)]).
    - injection Hd1 as <-. apply (assigns_setitems d [(_, _)]). }
  pose proof (attach_persons_assigns faces u d1) as W2.
  pose proof (attach_albums_assigns albums u (attach_persons faces u d1)) as W3.
  pose proof (assigns_trans _ _ _ _ _ W1 (assigns_trans _ _ _ _ _ W2 W3)) as W.
  assert (assigns ["volume"] (attach_albums albums u (attach_persons faces u d1)) d')
    as W4.
  { destruct vid; try (destruct (volume_key _) in H; [|discriminate]);
      try apply bind_Ok in H as (name & _ & H);
      injection H as <-; apply (assigns_setitems _ [(_, _)]). }
  apply (assigns_trans _ _ _ _ _ W W4).
Qed.

Lemma attach5_assigns (kw faces albums : xref) (u : string) (d d' : dict) :
  attach5 kw faces albums u d = Ok d' →
  assigns ["hasKeywords"; "keywords"; "hasPersons"; "persons"; "albums"; "hasAlbums"]
          d d'.
Proof.
  unfold attach5. intros [= <-].
  assert (∀ d1, assigns ["hasKeywords"; "keywords"] d d1 →
     assigns ["hasKeywords"; "keywords"; "hasPersons"; "persons"; "albums"; "hasAlbums"]
       d (attach_albums albums u (attach_persons faces u d1))) as W.
  { intros d1 W1.
    apply (assigns_trans _ _ _ _ _ W1
             (assigns_trans _ _ _ _ _ (attach_persons_assigns faces u d1)
                (attach_albums_assigns albums u _))). }
  apply W. destruct (kw !! u); apply (assigns_setitems d [(_, _); (_, _)]).
Qed.

Lemma list_to_set_subseteq (l1 l2 : list string) :
  l1 ⊆ l2 → (list_to_set l1 : gset string) ⊆ list_to_set l2.
Proof. intros H x. rewrite !elem_of_list_to_set. apply H. Qed.

Lemma list_to_set_same (l1 l2 : list string) :
  l1 ⊆ l2 → l2 ⊆ l1 → (list_to_set l1 : gset string) = list_to_set l2.
Proof.
  intros H1 H2. apply set_eq. intros x. rewrite !elem_of_list_to_set.
  split; [apply H1 | apply H2].
Qed.

Lemma has_key_dom (d : dict) (k : string) : has_key d k = true ↔ k ∈ dom d.
Proof. unfold has_key. rewrite bool_decide_eq_true. symmetry. apply elem_of_dom. Qed.

(** A pass that writes keys already present leaves the set of keys as it
    is. *)
Lemma writes_dom_same (keys l : list string) (d d' : dict) :
  writes keys d d' → keys ⊆ l → dom d = list_to_set l → dom d' = list_to_set l.
Proof.
  intros W Hsub Hd. destruct (writes_dom keys d d' W) as [Hlo Hhi].
  apply (anti_symm (⊆)).
  - etrans; [exact Hhi|]. rewrite Hd. apply union_least; [reflexivity|].
    by apply list_to_set_subseteq.
  - by rewrite <- Hd.
Qed.

Lemma absent4_writes (keys : list string) (d d' : dict) :
  absent4 d → writes keys d d' →
  "selfie" ∉ keys → "cloudAssetGUID" ∉ keys → "cloudLocalState" ∉ keys →
  absent4 d'.
Proof.
  intros (H1 & H2 & H3) W N1 N2 N3. unfold absent4.
  rewrite !(writes_frame keys d d') by done. done.
Qed.

Lemma absent5_writes (keys : list string) (d d' : dict) :
  absent5 d → writes keys d d' →
  "modelID" ∉ keys → "masterUuid" ∉ keys → "adjustmentUuid" ∉ keys →
  "cloudLibraryState" ∉ keys → "cloudStatus" ∉ keys → "cloudAvailable" ∉ keys →
  absent5 d'.
Proof.
  intros (H1 & H2 & H3 & H4 & H5 & H6) W N1 N2 N3 N4 N5 N6. unfold absent5.
  rewrite !(writes_frame keys d d') by done. done.
Qed.

Section Fields.
Variable C : Constants.

Lemma photo4_info_fields (row : photo4_row) (d : dict) :
  photo4_info C row = Ok d → dom d = list_to_set photo4_keys ∧ absent4 d.
Proof.
  unfold photo4_info. intros H.
  apply bind_Ok in H as (lastmod & _ & H).
  apply bind_Ok in H as (imagedate & _ & H). injection H as <-. split.
  - rewrite dom_setitems, dom_empty_L, (left_id_L ∅ (∪)). reflexivity.
  - unfold absent4. rewrite !lookup_setitems. done.
Qed.

Lemma photo5_info_fields (row : photo5_row) (d : dict) :
  photo5_info C row = Ok d → dom d = list_to_set photo5_keys ∧ absent5 d.
Proof.
  unfold photo5_info. intros H.
  apply bind_Ok in H as (lastmod & _ & H).
  apply bind_Ok in H as (imagedate & _ & H). injection H as <-. split.
  - rewrite dom_setitems, dom_empty_L, (left_id_L ∅ (∪)). reflexivity.
  - unfold absent5. rewrite !lookup_setitems. done.
Qed.

End Fields.

Section FieldSets.
Variable C : Constants.

Lemma ingest4_fields (version : string) (s : store4) (db : PhotosDB) :
  ingest4 C version s = Ok db →
  map_Forall (λ _ d, dom d = list_to_set (common_fields ++ legacy_only_fields)
                     ∧ absent4 d) (_dbphotos db).
Proof.
  set (mid := photo4_keys ++ ["edit_resource_id"; "live_model_id"; "modeResourceIsOnDisk"]).
  apply (ingest4_stages C
    (λ _ d, (list_to_set photo4_keys ⊆ dom d ∧ dom d ⊆ list_to_set mid)
            ∧ ("live_model_id" ∈ dom d → "modeResourceIsOnDisk" ∈ dom d)
            ∧ absent4 d)
    (λ _ d, dom d = list_to_set mid ∧ absent4 d)).
  - (* the dictionary of a row *)
    intros row d _ Hd. destruct (photo4_info_fields C row d Hd) as [Hdom Habs].
    rewrite Hdom.
    split; [split; [done | apply list_to_set_subseteq; decided] | split; [|done]].
    rewrite elem_of_list_to_set. intros Hin. exfalso. revert Hin. decided.
  - (* the joins for edits, external edits and live photos *)
    intros u d d' ((Hlo & Hhi) & Hlive & Habs) Hstep.
    pose proof (early_step4_writes d d' Hstep) as W.
    destruct (writes_dom _ d d' W) as [Wlo Whi].
    split; [split|split].
    + intros x Hx. apply Wlo, Hlo, Hx.
    + etrans; [exact Whi|]. apply union_least; [exact Hhi|].
      apply list_to_set_subseteq. decided.
    + destruct Hstep as [[row H] | [[row H] | [row H]]].
      * apply edit4_writes in H. intros Hin. apply Wlo, Hlive.
        apply elem_of_dom. rewrite <- (writes_frame _ d d' "live_model_id" H) by decided.
        by apply elem_of_dom.
      * apply extedit4_writes in H. intros Hin. apply Wlo, Hlive.
        apply elem_of_dom. rewrite <- (writes_frame _ d d' "live_model_id" H) by decided.
        by apply elem_of_dom.
      * injection H as <-. intros _. rewrite dom_setitems.
        apply elem_of_union_r. rewrite elem_of_list_to_set. decided.
    + apply (absent4_writes _ d d' Habs W); decided.
  - (* the backfill *)
    intros u d ((Hlo & Hhi) & Hlive & Habs).
    pose proof (backfill4_writes d) as W.
    destruct (writes_dom _ d _ W) as [Wlo Whi].
    split; [|apply (absent4_writes _ d _ Habs W); decided].
    apply (anti_symm (⊆)).
    + etrans; [exact Whi|]. apply union_least; [exact Hhi|].
      apply list_to_set_subseteq. decided.
    + unfold mid. rewrite list_to_set_app_L.
      apply union_least; [intros x Hx; apply Wlo, Hlo, Hx|].
      intros k. rewrite elem_of_list_to_set.
      intros [-> | [-> | [-> | Hk%elem_of_nil]%elem_of_cons]%elem_of_cons]%elem_of_cons;
        [| | | done]; unfold backfill4.
      * destruct (has_key d "edit_resource_id") eqn:He.
        -- apply has_key_dom in He.
           destruct (has_key d "live_model_id"); [done|].
           rewrite dom_setitems. by apply elem_of_union_l.
        -- assert ("edit_resource_id" ∈ dom (setitems d [("edit_resource_id", PNone)])) as Hin.
           { rewrite dom_setitems. apply elem_of_union_r.
             rewrite elem_of_list_to_set. decided. }
           destruct (has_key _ "live_model_id"); [done|].
           rewrite dom_setitems. by apply elem_of_union_l.
      * destruct (has_key _ "live_model_id") eqn:Hl.
        -- by apply has_key_dom in Hl.
        -- rewrite dom_setitems. apply elem_of_union_r.
           rewrite elem_of_list_to_set. decided.
      * destruct (has_key _ "live_model_id") eqn:Hl.
        -- apply has_key_dom in Hl.
           destruct (has_key d "edit_resource_id"); [by apply Hlive|].
           rewrite dom_setitems in Hl |- *.
           apply elem_of_union in Hl as [Hl | Hl].
           ++ apply elem_of_union_l. by apply Hlive.
           ++ exfalso. revert Hl. rewrite elem_of_list_to_set. decided.
        -- rewrite dom_setitems. apply elem_of_union_r.
           rewrite elem_of_list_to_set. decided.
  - (* the cloud join *)
    intros u d d' [Hdom Habs] W. split.
    + apply (writes_dom_same _ mid d d' W); [decided | done].
    + apply (absent4_writes _ d d' Habs W); decided.
  - (* the last loop *)
    intros u d d' kw faces albums volumes [Hdom Habs] Hat.
    pose proof (attach4_assigns _ _ _ _ _ _ _ Hat) as A. split.
    + rewrite (assigns_dom _ d d' A), Hdom, <- list_to_set_app_L.
      apply list_to_set_same; decided.
    + apply (absent4_writes _ d d' Habs (assigns_writes _ _ _ A)); decided.
Qed.

Lemma ingest5_fields (version : string) (s : store5) (db : PhotosDB) :
  ingest5 C version s = Ok db →
  map_Forall (λ _ d, dom d = list_to_set (common_fields ++ modern_only_fields)
                     ∧ absent5 d) (_dbphotos db).
Proof.
  apply (ingest5_stages C
    (λ _ d, dom d = list_to_set photo5_keys ∧ absent5 d)).
  - intros row d _ Hd. by apply (photo5_info_fields C row d).
  - intros u d d' [Hdom Habs] W. split.
    + apply (writes_dom_same _ photo5_keys d d' W); [decided | done].
    + apply (absent5_writes _ d d' Habs W); decided.
  - intros u d d' kw faces albums [Hdom Habs] Hat.
    pose proof (attach5_assigns _ _ _ _ _ _ Hat) as A. split.
    + rewrite (assigns_dom _ d d' A), Hdom, <- list_to_set_app_L.
      apply list_to_set_same; decided.
    + apply (absent5_writes _ d d' Habs (assigns_writes _ _ _ A)); decided.
Qed.

End FieldSets.

(** C4 (as amended).  The dictionaries built by the two ingesters share the
    keys of [common_fields]; those among them that only one schema can fill
    are set to [None] by the other ingester ([selfie], [cloudAssetGUID] and
    [cloudLocalState] by the legacy one; [modelID], [masterUuid],
    [adjustmentUuid], [cloudLibraryState], [cloudStatus] and
    [cloudAvailable] by the modern one).  Beyond these the legacy
    dictionaries have exactly the keys of [legacy_only_fields] and the
    modern ones exactly those of [modern_only_fields], and neither has a
    key of the other list. *)
Theorem ingesters_share_common_fields (C : Constants) (version4 version5 : string)
    (s4 : store4) (s5 : store5) (db4 db5 : PhotosDB) (u4 u5 : string)
    (d4 d5 : dict) :
  ingest4 C version4 s4 = Ok db4 →
  ingest5 C version5 s5 = Ok db5 →
  _dbphotos db4 !! u4 = Some d4 →
  _dbphotos db5 !! u5 = Some d5 →
  (dom d4 = list_to_set (common_fields ++ legacy_only_fields)
   ∧ dom d5 = list_to_set (common_fields ++ modern_only_fields))
  ∧ (∀ k, k ∈ common_fields → is_Some (d4 !! k) ∧ is_Some (d5 !! k))
  ∧ (∀ k, k ∈ legacy_only_fields → is_Some (d4 !! k) ∧ d5 !! k = None)
  ∧ (∀ k, k ∈ modern_only_fields → d4 !! k = None ∧ is_Some (d5 !! k))
  ∧ absent4 d4 ∧ absent5 d5.
Proof.
  intros H4 H5 Hd4 Hd5.
  destruct (ingest4_fields C version4 s4 db4 H4 u4 d4 Hd4) as [Hdom4 Ha4].
  destruct (ingest5_fields C version5 s5 db5 H5 u5 d5 Hd5) as [Hdom5 Ha5].
  assert (∀ k, is_Some (d4 !! k) ↔ k ∈ common_fields ++ legacy_only_fields) as In4.
  { intros k. by rewrite <- elem_of_dom, Hdom4, elem_of_list_to_set. }
  assert (∀ k, is_Some (d5 !! k) ↔ k ∈ common_fields ++ modern_only_fields) as In5.
  { intros k. by rewrite <- elem_of_dom, Hdom5, elem_of_list_to_set. }
  split; [split; assumption|]. split; [|split; [|split; [|split; assumption]]].
  - intros k Hk. rewrite In4, In5, !elem_of_app. auto.
  - intros k Hk. rewrite In4, elem_of_app. split; [auto|].
    apply eq_None_not_Some. rewrite In5. revert k Hk. apply Forall_forall. decided.
  - intros k Hk. rewrite In5, elem_of_app. split; [|auto].
    apply eq_None_not_Some. rewrite In4. revert k Hk. apply Forall_forall. decided.
Qed.

Lemma ingesters_share_common_fields_witness :
  is_Some (entry_of (index_of (ingest4 sample_constants "4025" one_photo_store4)) "A"
             !! "volume")
  ∧ entry_of (index_of (ingest5 sample_constants "6000" one_photo_store5)) "A"
      !! "volume" = None.
Proof.
  apply (ingesters_share_common_fields sample_constants "4025" "6000"
           one_photo_store4 one_photo_store5
           (index_of (ingest4 sample_constants "4025" one_photo_store4))
           (index_of (ingest5 sample_constants "6000" one_photo_store5))
           "A" "A" _ _
           ltac:(ingested) ltac:(ingested) ltac:(entry) ltac:(entry)).
  decided.
Defined.

(** C4 as stated fails: the two ingesters do not produce the same set of
    keys.  The legacy dictionary of photo A has the key [volume] and the
    modern one has not; the modern one has [localAvailability] and the
    legacy one has not. *)
Lemma ingesters_differ_in_fields :
  ¬ (∀ db4 db5 d4 d5,
       ingest4 sample_constants "4025" one_photo_store4 = Ok db4 →
       ingest5 sample_constants "6000" one_photo_store5 = Ok db5 →
       _dbphotos db4 !! "A" = Some d4 →
       _dbphotos db5 !! "A" = Some d5 →
       dom d4 = dom d5).
Proof.
  intros H.
  specialize (H _ _ _ _ ltac:(ingested) ltac:(ingested) ltac:(entry) ltac:(entry)).
  assert ("volume" ∈ dom (entry_of (index_of
            (ingest4 sample_constants "4025" one_photo_store4)) "A")) as Hin by decided.
  rewrite H in Hin. revert Hin. decided.
Qed.

Example legacy_has_volume_modern_has_not :
  on_store4 one_photo_store4
    (λ db, d ← getitem (_dbphotos db) "A";
           Ok (has_key d "volume", has_key d "localAvailability"))
  = Ok (true, false)
  ∧ on_store5 one_photo_store5
      (λ db, d ← getitem (_dbphotos db) "A";
             Ok (has_key d "volume", has_key d "localAvailability"))
    = Ok (false, true).
Proof. split; run. Qed.

(** ** Anomalies in the legacy store *)

(** C5, at the failing input.  A legacy photo whose [hasKeywords] column is
    1 without any row in the keyword join makes the last loop of
    [_process_database4] raise [KeyError]; so does a volume id that the
    volume query does not list.  The ingestion run ends with that
    exception and the temporary files stay. *)
Theorem legacy_keyword_flag_without_rows_raises :
  ingest4 sample_constants "4025" flagged_store4 = Err KeyError
  ∧ ingest4 sample_constants "4025" unknown_volume_store4 = Err KeyError
  ∧ _process_database4 sample_constants false "4025" flagged_store4 three_tmp_files
    = Some (Err KeyError, three_tmp_files).
Proof. repeat split; run. Qed.



(** ** The clean-up of the temporary files *)

Lemma remove_first_length (f : string) (l : list string) :
  (length (remove_first f l) ≤ length l)%nat.
Proof.
  induction l as [|y l IH]; simpl; [lia|].
  case_bool_decide; simpl; lia.
Qed.

(** With debugging off the loop ends without an exception, and it only
    adds to the record of removals. *)
Lemma cleanup_loop_quiet (fuel i : nat) (w : world) :
  (length (tmp_files w) - i < fuel)%nat →
  ∃ w', cleanup_loop false fuel i w = Some (Ok (), w')
        ∧ (∀ x, x ∈ removals w → x ∈ removals w').
Proof.
  revert i w. induction fuel as [|fuel IH]; intros i w Hfuel; [lia|].
  simpl. destruct (tmp_files w !! i) as [f|] eqn:Hf; [|eauto].
  apply lookup_lt_Some in Hf.
  case_bool_decide as Hex.
  - unfold os_remove. case_bool_decide as Hun.
    + destruct (IH (S i) {| tmp_files := tmp_files w; existing := existing w;
                            undeletable := undeletable w;
                            removals := removals w ++ [f] |})
        as (w' & Hw' & Hrem); [simpl; lia|].
      exists w'. split; [done|]. intros x Hx. apply Hrem. simpl.
      apply elem_of_app. by left.
    + destruct (IH (S i) (forget f
                  {| tmp_files := tmp_files w; existing := existing w ∖ {[f]};
                     undeletable := undeletable w;
                     removals := removals w ++ [f] |}))
        as (w' & Hw' & Hrem).
      { simpl. pose proof (remove_first_length f (tmp_files w)). lia. }
      exists w'. split; [done|]. intros x Hx. apply Hrem. simpl.
      apply elem_of_app. by left.
  - destruct (IH (S i) (forget f w)) as (w' & Hw' & Hrem).
    { simpl. pose proof (remove_first_length f (tmp_files w)). lia. }
    exists w'. split; [done|]. intros x Hx. by apply Hrem.
Qed.

(** With debugging on the loop ends too, possibly with the exception
    raised while formatting the message. *)
Lemma cleanup_loop_total (debug : bool) (fuel i : nat) (w : world) :
  (length (tmp_files w) - i < fuel)%nat →
  ∃ r w', cleanup_loop debug fuel i w = Some (r, w').
Proof.
  revert i w. induction fuel as [|fuel IH]; intros i w Hfuel; [lia|].
  simpl. destruct (tmp_files w !! i) as [f|] eqn:Hf; [|eauto].
  apply lookup_lt_Some in Hf.
  case_bool_decide as Hex.
  - unfold os_remove. case_bool_decide as Hun.
    + destruct debug; [eauto|]. apply IH. simpl. lia.
    + apply IH. simpl. pose proof (remove_first_length f (tmp_files w)). lia.
  - apply IH. simpl. pose proof (remove_first_length f (tmp_files w)). lia.
Qed.

(** The fuel given to the loop by [_cleanup_tmp_files] is enough. *)
Lemma cleanup_terminates (debug : bool) (w : world) :
  ∃ r w', _cleanup_tmp_files debug w = Some (r, w').
Proof. apply cleanup_loop_total. lia. Qed.


Section Runs.
Variable C : Constants.


End Runs.



(** The clean-up on three removable files: the loop walks the list it
    shrinks, and the second file is neither removed nor forgotten. *)
Example cleanup_three_files :
  (λ r, (removals r.2, tmp_files r.2)) <$> _cleanup_tmp_files false three_tmp_files
  = Some (["/tmp/osxphotos-1.db"; "/tmp/osxphotos-1.db-shm"],
          ["/tmp/osxphotos-1.db-wal"]).
Proof. run. Qed.

(** With debugging on, a removal that fails ends the clean-up with the
    [TypeError] of the message format. *)
Example cleanup_debug_raises :
  fst <$> _cleanup_tmp_files true stubborn_tmp_file = Some (Err TypeError).
Proof. run. Qed.

(** ** Version strings: the order of strings and the order of numbers *)






(** ** The shared album views *)


Lemma elem_of_map_keys {V} (m : gmap string V) (k : string) :
  k ∈ (map_to_list m).*1 ↔ is_Some (m !! k).
Proof.
  rewrite list_elem_of_fmap. split.
  - intros ([k' v] & -> & Hkv). apply elem_of_map_to_list in Hkv. eauto.
  - intros [v Hv]. exists (k, v). split; [done|]. by apply elem_of_map_to_list.
Qed.



Lemma shared_titles_spec (db : PhotosDB) (keys : list string)
    (acc albums : gset (option string)) :
  foldM (λ albums album,
           det ← getitem (_dbalbum_details db) album;
           Ok (albums ∪ {[title det]})) acc keys = Ok albums →
  ∀ t, t ∈ albums ↔
       t ∈ acc ∨ ∃ k det, k ∈ keys ∧ _dbalbum_details db !! k = Some det ∧ title det = t.
Proof.
  revert acc. induction keys as [|k keys IH]; intros acc H t; simpl in H.
  - injection H as <-. split; [auto|]. intros [?|(k & det & Hk%elem_of_nil & _)]; done.
  - apply bind_Ok in H as (acc' & Hstep & H).
    apply bind_Ok in Hstep as (det & Hdet%getitem_Ok & [= <-]).
    rewrite (IH _ H t), elem_of_union, elem_of_singleton. split.
    + intros [[?| ->] | (k' & det' & Hk' & Hd' & Ht)]; auto.
      * right. exists k, det. split; [left|]; done.
      * right. exists k', det'. split; [by right|done].
    + intros [? | (k' & det' & [-> | Hk']%elem_of_cons & Hd' & Ht)]; auto.
      * left. right. congruence.
      * right. eauto.
Qed.

Lemma shared_counts_spec (db : PhotosDB) (keys : list string)
    (acc counts : gmap (option string) nat) :
  foldM (λ albums k,
           det ← getitem (_dbalbum_details db) k;
           members ← getitem (_dbalbums_album db) k;
           Ok (<[title det :=
                   (default 0 (albums !! title det) + length members)%nat]> albums))
        acc keys = Ok counts →
  ∀ t, t ∈ dom counts ↔
       t ∈ dom acc ∨ ∃ k det, k ∈ keys ∧ _dbalbum_details db !! k = Some det ∧ title det = t.
Proof.
  revert acc. induction keys as [|k keys IH]; intros acc H t; simpl in H.
  - injection H as <-. split; [auto|]. intros [?|(k & det & Hk%elem_of_nil & _)]; done.
  - apply bind_Ok in H as (acc' & Hstep & H).
    apply bind_Ok in Hstep as (det & Hdet%getitem_Ok & Hstep).
    apply bind_Ok in Hstep as (members & _ & [= <-]).
    rewrite (IH _ H t), dom_insert, elem_of_union, elem_of_singleton. split.
    + intros [[-> | ?] | (k' & det' & Hk' & Hd' & Ht)]; auto.
      * right. exists k, det. split; [left|]; done.
      * right. exists k', det'. split; [by right|done].
    + intros [? | (k' & det' & [-> | Hk']%elem_of_cons & Hd' & Ht)]; auto.
      * left. left. congruence.
      * right. eauto.
Qed.

Lemma add_album_details4_owner (rows : list album_details4_row)
    (m : gmap string album_details) :
  map_Forall (λ _ det, cloudownerhashedpersonid det = PNone) m →
  map_Forall (λ _ det, cloudownerhashedpersonid det = PNone)
             (foldl add_album_details4 m rows).
Proof.
  revert m. induction rows as [|row rows IH]; intros m Hm; simpl; [done|].
  apply IH. unfold add_album_details4. by apply map_Forall_insert_2.
Qed.

Lemma ingest4_details_owner (C : Constants) (version : string) (s : store4)
    (db : PhotosDB) :
  ingest4 C version s = Ok db →
  map_Forall (λ _ det, cloudownerhashedpersonid det = PNone) (_dbalbum_details db).
Proof.
  unfold ingest4. intros H.
  repeat (apply bind_Ok in H as (? & _ & H)). injection H as <-. simpl.
  apply add_album_details4_owner, map_Forall_empty.
Qed.

Section SharedAlbums.
Variable C : Constants.



End SharedAlbums.



(** On the modern index of [shared_store] the view returns the one shared
    album that has a member. *)
Example shared_store_albums :
  on_store5 shared_store
    (λ db, r ← albums_shared sample_constants db; Ok (r.1, elements r.2))
  = Ok ([], [Some "Holiday"]).
Proof. run. Qed.

(** The comparison of version strings: a modern index whose version is
    "10000" is below "6000" as a string, and the view answers as for a
    legacy index. *)
Example version_10000_is_below_6000 :
  classify sample_constants "10000" = Ok Modern
  ∧ (db ← ingest5 sample_constants "10000" shared_store;
     r ← albums_shared sample_constants db; Ok (r.1, elements r.2))
    = Ok ([albums_shared_not_implemented], []).
Proof. split; run. Qed.

(** ** The candidate sets of [photos()] *)

Lemma values_given {A} (o : option (list A)) (x : A) :
  x ∈ values o → given o = true.
Proof.
  destruct o as [[|y l]|]; simpl; [intros []%elem_of_nil | done | intros []%elem_of_nil].
Qed.



(** The ids listed under a title are those of the album records with that
    title. *)
Lemma album_titles_spec (details : gmap string album_details) (t : option string) :
  match album_titles details !! t with
  | Some ids => ∀ id, id ∈ ids ↔ ∃ det, details !! id = Some det ∧ title det = t
  | None => ∀ id det, details !! id = Some det → title det ≠ t
  end.
Proof.
  unfold album_titles.
  apply (map_fold_weak_ind
    (λ (r : gmap (option string) (list string)) (m : gmap string album_details),
       match r !! t with
       | Some ids => ∀ id, id ∈ ids ↔ ∃ det, m !! id = Some det ∧ title det = t
       | None => ∀ id det, m !! id = Some det → title det ≠ t
       end)).
  - rewrite lookup_empty. intros id det. by rewrite lookup_empty.
  - intros i x m r Hi IH.
    destruct (decide (title x = t)) as [Heq | Hne].
    + rewrite Heq, lookup_insert_eq. intros id.
      rewrite elem_of_app, list_elem_of_singleton. split.
      * intros [Hid | ->].
        -- destruct (r !! t) as [ids|]; [|by apply elem_of_nil in Hid].
           apply IH in Hid as (det & Hdet & Ht). exists det.
           rewrite lookup_insert_ne; [done|]. intros ->. congruence.
        -- exists x. by rewrite lookup_insert_eq.
      * intros (det & Hdet & Ht).
        destruct (decide (i = id)) as [-> | Hne]; [by right|].
        rewrite lookup_insert_ne in Hdet by done. left.
        destruct (r !! t) as [ids|]; simpl.
        -- apply IH. eauto.
        -- exfalso. by apply (IH id det).
    + rewrite lookup_insert_ne by done.
      destruct (r !! t) as [ids|].
      * intros id. rewrite IH. split; intros (det & Hdet & Ht); exists det.
        -- rewrite lookup_insert_ne; [done|]. intros ->. congruence.
        -- destruct (decide (i = id)) as [-> | Hne'].
           ++ rewrite lookup_insert_eq in Hdet. congruence.
           ++ by rewrite lookup_insert_ne in Hdet.
      * intros id det Hdet.
        destruct (decide (i = id)) as [-> | Hne'].
        -- rewrite lookup_insert_eq in Hdet. congruence.
        -- rewrite lookup_insert_ne in Hdet by done. by apply (IH id det).
Qed.


Lemma albums_sets_spec (db : PhotosDB) (albums : list string)
    (acc sets : list (gset string)) :
  foldM (λ sets album,
           match album_titles (_dbalbum_details db) !! Some album with
           | Some ids => s ← album_set db ids; Ok (sets ++ [s])
           | None => Ok sets
           end) acc albums = Ok sets →
  ∀ a ids, a ∈ albums →
    album_titles (_dbalbum_details db) !! Some a = Some ids →
    ∃ s, s ∈ sets ∧ album_set db ids = Ok s.
Proof.
  assert (∀ albums acc sets,
    foldM (λ sets album,
           match album_titles (_dbalbum_details db) !! Some album with
           | Some ids => s ← album_set db ids; Ok (sets ++ [s])
           | None => Ok sets
           end) acc albums = Ok sets → ∀ s, s ∈ acc → s ∈ sets) as Hmono.
  { clear. intros albums. induction albums as [|a albums IH]; intros acc sets H s Hs.
    - simpl in H. by injection H as <-.
    - simpl in H. apply bind_Ok in H as (acc' & Hstep & H).
      apply (IH _ _ H).
      destruct (album_titles _ !! Some a) as [ids|].
      + apply bind_Ok in Hstep as (s' & _ & [= <-]). apply elem_of_app. by left.
      + by injection Hstep as <-. }
  revert acc. induction albums as [|a albums IH]; intros acc H a' ids Ha' Hids.
  - by apply elem_of_nil in Ha'.
  - simpl in H. apply bind_Ok in H as (acc' & Hstep & H).
    apply elem_of_cons in Ha' as [-> | Ha'].
    + rewrite Hids in Hstep. apply bind_Ok in Hstep as (s & Hs & [= <-]).
      exists s. split; [|done]. apply (Hmono _ _ _ H).
      apply elem_of_app. right. by left.
    + by apply (IH _ H a' ids).
Qed.

Section Criteria.
Variable C : Constants.



End Criteria.



Example trip_cat_dog :
  on_store5 trip_store (λ db, photos sample_constants db (by_keywords ["cat"; "dog"]))
  = Ok ["B"]
  ∧ on_store5 trip_store
      (λ db, sets ← photos_sets db (by_keywords ["cat"; "dog"]);
             Ok (List.map (λ s : gset string, elements s) sets))
    = Ok [["A"; "B"]; ["C"; "B"]].
Proof. split; run. Qed.

Example trip_cat_dog_trip :
  on_store5 trip_store
    (λ db, photos sample_constants db (by_keywords_albums ["cat"; "dog"] ["Trip"]))
  = Ok [].
Proof. run. Qed.

Example trip_cat :
  on_store5 trip_store (λ db, photos sample_constants db (by_keywords ["cat"]))
  = Ok ["A"; "B"].
Proof. run. Qed.

(** * Further properties *)

(** ** The cross references between photos and keywords, persons, albums *)

Lemma entry_list_default (l : list string) : default [] (entry_list l) = l.
Proof. by destruct l. Qed.

Section CrossReference.
Context {R : Type} (pair_of : R → option (string * string)).
Context (add : xref * xref → R → xref * xref).
Hypothesis add_spec : ∀ p row,
  add p row = match pair_of row with
              | Some (name, uuid) => xref_pair_add p name uuid
              | None => p
              end.

(** The loop extends the list of every key by the matching rows. *)
Lemma foldl_xref_default (rows : list R) (p : xref * xref) :
  (∀ u, default [] ((foldl add p rows).1 !! u)
        = default [] (p.1 !! u) ++ names_of (omap pair_of rows) u)
  ∧ (∀ n, default [] ((foldl add p rows).2 !! n)
          = default [] (p.2 !! n) ++ uuids_of (omap pair_of rows) n).
Proof.
  revert p. induction rows as [|row rows IH]; intros p.
  - simpl. unfold names_of, uuids_of. simpl.
    split; intros; by rewrite (right_id_L [] (++)).
  - cbn [foldl omap list_omap]. destruct (IH (add p row)) as [IH1 IH2].
    rewrite add_spec in IH1, IH2. rewrite add_spec.
    destruct (pair_of row) as [[name uuid]|]; [|done].
    unfold names_of, uuids_of in *. split.
    + intros u. rewrite IH1. unfold xref_pair_add, xref_add. cbn [fst snd].
      rewrite filter_cons. cbn [snd].
      destruct (decide (uuid = u)) as [-> | Hne].
      * rewrite lookup_insert_eq. simpl. by rewrite <- (assoc_L (++)).
      * by rewrite lookup_insert_ne.
    + intros n. rewrite IH2. unfold xref_pair_add, xref_add. cbn [fst snd].
      rewrite filter_cons. cbn [fst].
      destruct (decide (name = n)) as [-> | Hne].
      * rewrite lookup_insert_eq. simpl. by rewrite <- (assoc_L (++)).
      * by rewrite lookup_insert_ne.
Qed.

(** No key of a cross reference holds the empty list. *)
Lemma foldl_xref_nonempty (rows : list R) (p : xref * xref) :
  (∀ u l, p.1 !! u = Some l → l ≠ []) →
  (∀ n l, p.2 !! n = Some l → l ≠ []) →
  (∀ u l, (foldl add p rows).1 !! u = Some l → l ≠ [])
  ∧ (∀ n l, (foldl add p rows).2 !! n = Some l → l ≠ []).
Proof.
  revert p. induction rows as [|row rows IH]; intros p H1 H2; [done|].
  cbn [foldl]. apply IH; rewrite add_spec;
    destruct (pair_of row) as [[name uuid]|]; try done.
  - intros u l. unfold xref_pair_add, xref_add. cbn [fst].
    destruct (decide (uuid = u)) as [-> | Hne].
    + rewrite lookup_insert_eq. intros [= <-]. by destruct (default [] _).
    + rewrite lookup_insert_ne by done. apply H1.
  - intros n l. unfold xref_pair_add, xref_add. cbn [snd].
    destruct (decide (name = n)) as [-> | Hne].
    + rewrite lookup_insert_eq. intros [= <-]. by destruct (default [] _).
    + rewrite lookup_insert_ne by done. apply H2.
Qed.

Lemma foldl_xref (rows : list R) :
  (∀ u, (foldl add (∅, ∅) rows).1 !! u
        = entry_list (names_of (omap pair_of rows) u))
  ∧ (∀ n, (foldl add (∅, ∅) rows).2 !! n
          = entry_list (uuids_of (omap pair_of rows) n)).
Proof.
  destruct (foldl_xref_default rows (∅, ∅)) as [D1 D2].
  destruct (foldl_xref_nonempty rows (∅, ∅)) as [N1 N2];
    [intros ? ? H; simpl in H; by rewrite lookup_empty in H .. |].
  split.
  - intros u. specialize (D1 u). specialize (N1 u).
    cbn [fst] in D1. rewrite lookup_empty in D1. simpl in D1.
    destruct ((foldl add (∅, ∅) rows).1 !! u) as [l|]; simpl in D1; rewrite <- D1.
    + destruct l; [by destruct (N1 [] eq_refl) | done].
    + done.
  - intros n. specialize (D2 n). specialize (N2 n).
    cbn [snd] in D2. rewrite lookup_empty in D2. simpl in D2.
    destruct ((foldl add (∅, ∅) rows).2 !! n) as [l|]; simpl in D2; rewrite <- D2.
    + destruct l; [by destruct (N2 [] eq_refl) | done].
    + done.
Qed.

End CrossReference.

Lemma elem_of_names_of (pairs : list (string * string)) (name uuid : string) :
  name ∈ names_of pairs uuid ↔ (name, uuid) ∈ pairs.
Proof.
  unfold names_of. rewrite list_elem_of_fmap. split.
  - intros ([n u] & -> & [Hu Hin]%list_elem_of_filter). simpl in *. by subst.
  - intros Hin. exists (name, uuid). split; [done|].
    by apply list_elem_of_filter.
Qed.

Lemma elem_of_uuids_of (pairs : list (string * string)) (name uuid : string) :
  uuid ∈ uuids_of pairs name ↔ (name, uuid) ∈ pairs.
Proof.
  unfold uuids_of. rewrite list_elem_of_fmap. split.
  - intros ([n u] & -> & [Hn Hin]%list_elem_of_filter). simpl in *. by subst.
  - intros Hin. exists (name, uuid). split; [done|].
    by apply list_elem_of_filter.
Qed.

Section Tables.
Variable C : Constants.

(** The tables of the index other than [_dbphotos], as the loops leave
    them. *)
Lemma ingest4_tables (version : string) (s : store4) (db : PhotosDB) :
  ingest4 C version s = Ok db →
  _db_version db = version
  ∧ _dbfaces_uuid db = (foldl add_face4 (∅, ∅) (s4_faces s)).1
  ∧ _dbfaces_person db = (foldl add_face4 (∅, ∅) (s4_faces s)).2
  ∧ _dbkeywords_uuid db = (foldl add_keyword (∅, ∅) (s4_keywords s)).1
  ∧ _dbkeywords_keyword db = (foldl add_keyword (∅, ∅) (s4_keywords s)).2
  ∧ _dbalbums_uuid db = (foldl add_album (∅, ∅) (s4_albums s)).1
  ∧ _dbalbums_album db = (foldl add_album (∅, ∅) (s4_albums s)).2
  ∧ _dbalbum_details db = foldl add_album_details4 ∅ (s4_album_details s)
  ∧ _dbvolumes db = foldl add_volume4 ∅ (s4_volumes s).
Proof.
  unfold ingest4. intros H.
  repeat (apply bind_Ok in H as (? & _ & H)). by injection H as <-.
Qed.

Lemma ingest5_tables (version : string) (s : store5) (db : PhotosDB) :
  ingest5 C version s = Ok db →
  _db_version db = version
  ∧ _dbfaces_uuid db = (foldl (add_face5 C) (∅, ∅) (s5_faces s)).1
  ∧ _dbfaces_person db = (foldl (add_face5 C) (∅, ∅) (s5_faces s)).2
  ∧ _dbkeywords_uuid db = (foldl add_keyword (∅, ∅) (s5_keywords s)).1
  ∧ _dbkeywords_keyword db = (foldl add_keyword (∅, ∅) (s5_keywords s)).2
  ∧ _dbalbums_uuid db = (foldl add_album (∅, ∅) (s5_albums s)).1
  ∧ _dbalbums_album db = (foldl add_album (∅, ∅) (s5_albums s)).2
  ∧ _dbalbum_details db = foldl add_album_details5 ∅ (s5_album_details s)
  ∧ _dbvolumes db = foldl add_volume5 ∅ (s5_volumes s).
Proof.
  unfold ingest5. intros H.
  repeat (apply bind_Ok in H as (? & _ & H)). by injection H as <-.
Qed.

Lemma add_keyword_pair (p : xref * xref) (row : keyword_row) :
  add_keyword p row = match keyword_pair row with
                      | Some (name, uuid) => xref_pair_add p name uuid
                      | None => p
                      end.
Proof. done. Qed.

Lemma add_album_pair (p : xref * xref) (row : album_row) :
  add_album p row = match album_pair row with
                    | Some (name, uuid) => xref_pair_add p name uuid
                    | None => p
                    end.
Proof. done. Qed.

Lemma add_face4_pair (p : xref * xref) (row : face_row) :
  add_face4 p row = match face4_pair row with
                    | Some (name, uuid) => xref_pair_add p name uuid
                    | None => p
                    end.
Proof. unfold add_face4, face4_pair. by destruct (f_name row). Qed.

Lemma add_face5_pair (p : xref * xref) (row : face_row) :
  add_face5 C p row = match face5_pair C row with
                      | Some (name, uuid) => xref_pair_add p name uuid
                      | None => p
                      end.
Proof. unfold add_face5, face5_pair. by destruct (f_name row). Qed.

(** X1.  After the modern ingester the cross references hold exactly the
    rows of their joins: under a uuid the keywords, albums and persons of
    its rows in row order, under a keyword, album or person the uuids of
    its rows in row order, and no key without a row.  A face row with a
    NULL name contributes nothing, one with the empty name counts for the
    unknown person. *)
Theorem ingest5_cross_references (version : string) (s : store5) (db : PhotosDB) :
  ingest5 C version s = Ok db →
  (∀ u, _dbkeywords_uuid db !! u
        = entry_list (names_of (omap keyword_pair (s5_keywords s)) u))
  ∧ (∀ k, _dbkeywords_keyword db !! k
          = entry_list (uuids_of (omap keyword_pair (s5_keywords s)) k))
  ∧ (∀ u, _dbalbums_uuid db !! u
          = entry_list (names_of (omap album_pair (s5_albums s)) u))
  ∧ (∀ a, _dbalbums_album db !! a
          = entry_list (uuids_of (omap album_pair (s5_albums s)) a))
  ∧ (∀ u, _dbfaces_uuid db !! u
          = entry_list (names_of (omap (face5_pair C) (s5_faces s)) u))
  ∧ (∀ n, _dbfaces_person db !! n
          = entry_list (uuids_of (omap (face5_pair C) (s5_faces s)) n)).
Proof.
  intros (_ & -> & -> & -> & -> & -> & -> & _)%ingest5_tables.
  destruct (foldl_xref keyword_pair add_keyword add_keyword_pair (s5_keywords s)).
  destruct (foldl_xref album_pair add_album add_album_pair (s5_albums s)).
  destruct (foldl_xref (face5_pair C) (add_face5 C) add_face5_pair (s5_faces s)).
  done.
Qed.

(** X2.  After the legacy ingester the cross references hold exactly the
    rows of their joins: under a uuid the keywords, albums and persons of
    its rows in row order, under a keyword, album or person the uuids of
    its rows in row order, and no key without a row.  A face row with a
    NULL name contributes nothing and every other name, the empty one
    included, is kept as it is. *)
Theorem ingest4_cross_references (version : string) (s : store4) (db : PhotosDB) :
  ingest4 C version s = Ok db →
  (∀ u, _dbkeywords_uuid db !! u
        = entry_list (names_of (omap keyword_pair (s4_keywords s)) u))
  ∧ (∀ k, _dbkeywords_keyword db !! k
          = entry_list (uuids_of (omap keyword_pair (s4_keywords s)) k))
  ∧ (∀ u, _dbalbums_uuid db !! u
          = entry_list (names_of (omap album_pair (s4_albums s)) u))
  ∧ (∀ a, _dbalbums_album db !! a
          = entry_list (uuids_of (omap album_pair (s4_albums s)) a))
  ∧ (∀ u, _dbfaces_uuid db !! u
          = entry_list (names_of (omap face4_pair (s4_faces s)) u))
  ∧ (∀ n, _dbfaces_person db !! n
          = entry_list (uuids_of (omap face4_pair (s4_faces s)) n)).
Proof.
  intros (_ & -> & -> & -> & -> & -> & -> & _)%ingest4_tables.
  destruct (foldl_xref keyword_pair add_keyword add_keyword_pair (s4_keywords s)).
  destruct (foldl_xref album_pair add_album add_album_pair (s4_albums s)).
  destruct (foldl_xref face4_pair add_face4 add_face4_pair (s4_faces s)).
  done.
Qed.

Lemma xref_inverse (pairs : list (string * string)) (m1 m2 : xref) :
  (∀ u, m1 !! u = entry_list (names_of pairs u)) →
  (∀ n, m2 !! n = entry_list (uuids_of pairs n)) →
  ∀ n u, n ∈ default [] (m1 !! u) ↔ u ∈ default [] (m2 !! n).
Proof.
  intros H1 H2 n u. rewrite H1, H2, !entry_list_default.
  by rewrite elem_of_names_of, elem_of_uuids_of.
Qed.

(** X3.  In an index built by either ingester the two directions of each
    cross reference agree: a keyword is listed for a photo exactly when the
    photo is listed for the keyword, and likewise for persons and for
    albums. *)
Theorem cross_references_agree (version : string) (db : PhotosDB) :
  (∃ s, ingest4 C version s = Ok db) ∨ (∃ s, ingest5 C version s = Ok db) →
  (∀ k u, k ∈ default [] (_dbkeywords_uuid db !! u)
          ↔ u ∈ default [] (_dbkeywords_keyword db !! k))
  ∧ (∀ n u, n ∈ default [] (_dbfaces_uuid db !! u)
            ↔ u ∈ default [] (_dbfaces_person db !! n))
  ∧ (∀ a u, a ∈ default [] (_dbalbums_uuid db !! u)
            ↔ u ∈ default [] (_dbalbums_album db !! a)).
Proof.
  intros [[s Hs] | [s Hs]].
  - apply ingest4_tables in Hs as (_ & -> & -> & -> & -> & -> & -> & _).
    destruct (foldl_xref keyword_pair add_keyword add_keyword_pair (s4_keywords s))
      as [K1 K2].
    destruct (foldl_xref album_pair add_album add_album_pair (s4_albums s))
      as [A1 A2].
    destruct (foldl_xref face4_pair add_face4 add_face4_pair (s4_faces s))
      as [F1 F2].
    split; [|split]; intros n u;
      [apply (xref_inverse _ _ _ K1 K2) | apply (xref_inverse _ _ _ F1 F2)
      | apply (xref_inverse _ _ _ A1 A2)].
  - apply ingest5_tables in Hs as (_ & -> & -> & -> & -> & -> & -> & _).
    destruct (foldl_xref keyword_pair add_keyword add_keyword_pair (s5_keywords s))
      as [K1 K2].
    destruct (foldl_xref album_pair add_album add_album_pair (s5_albums s))
      as [A1 A2].
    destruct (foldl_xref (face5_pair C) (add_face5 C) add_face5_pair (s5_faces s))
      as [F1 F2].
    split; [|split]; intros n u;
      [apply (xref_inverse _ _ _ K1 K2) | apply (xref_inverse _ _ _ F1 F2)
      | apply (xref_inverse _ _ _ A1 A2)].
Qed.

End Tables.

Lemma ingest5_cross_references_witness :
  _dbkeywords_keyword (index_of (ingest5 sample_constants "6000" trip_store)) !! "dog"
  = entry_list (uuids_of (omap keyword_pair (s5_keywords trip_store)) "dog")
  ∧ entry_list (uuids_of (omap keyword_pair (s5_keywords trip_store)) "dog")
    = Some ["B"; "C"].
Proof.
  split; [|reflexivity].
  apply (ingest5_cross_references sample_constants "6000" trip_store
           (index_of (ingest5 sample_constants "6000" trip_store))
           ltac:(ingested)).
Defined.

Lemma ingest4_cross_references_witness :
  _dbalbums_uuid (index_of (ingest4 sample_constants "4025" album_store4)) !! "A"
  = entry_list (names_of (omap album_pair (s4_albums album_store4)) "A")
  ∧ entry_list (names_of (omap album_pair (s4_albums album_store4)) "A")
    = Some ["album-1"].
Proof.
  split; [|reflexivity].
  apply (ingest4_cross_references sample_constants "4025" album_store4
           (index_of (ingest4 sample_constants "4025" album_store4))
           ltac:(ingested)).
Defined.

Lemma cross_references_agree_witness :
  "dog" ∈ default [] (_dbkeywords_uuid
                        (index_of (ingest5 sample_constants "6000" trip_store))
                        !! "C")
  ↔ "C" ∈ default [] (_dbkeywords_keyword
                        (index_of (ingest5 sample_constants "6000" trip_store))
                        !! "dog").
Proof.
  apply (cross_references_agree sample_constants "6000"
           (index_of (ingest5 sample_constants "6000" trip_store))).
  right. exists trip_store. ingested.
Defined.

(** ** The photo details loop *)

Section PhotoLoop.
Context {R : Type} (info : R → result dict) (uuid : R → string)
        (burst : R → option string).
Context (add : gmap string dict * gmap string (gset string) → R →
               result (gmap string dict * gmap string (gset string))).
Hypothesis add_spec : ∀ st row,
  add st row = (d ← info row;
                Ok (<[uuid row := d]> st.1,
                    match burst row with
                    | Some b => burst_add st.2 b (uuid row)
                    | None => st.2
                    end)).

Lemma photo_loop_dom (rows : list R)
    (st st' : gmap string dict * gmap string (gset string)) :
  foldM add st rows = Ok st' →
  dom st'.1 = dom st.1 ∪ list_to_set (uuid <$> rows).
Proof.
  revert st. induction rows as [|row rows IH]; intros st H.
  - simpl in H. injection H as <-. simpl. by rewrite (right_id_L ∅ (∪)).
  - simpl in H. apply bind_Ok in H as (st1 & Hrow & H).
    rewrite add_spec in Hrow. apply bind_Ok in Hrow as (d & _ & [= <-]).
    rewrite (IH _ H). cbn [fst]. rewrite dom_insert_L, fmap_cons.
    cbn [list_to_set]. rewrite (assoc_L (∪)). f_equal. apply (comm_L (∪)).
Qed.

Lemma photo_loop_burst (rows : list R)
    (st st' : gmap string dict * gmap string (gset string)) :
  foldM add st rows = Ok st' →
  (∀ b u, u ∈ default ∅ (st'.2 !! b) ↔
          u ∈ default ∅ (st.2 !! b) ∨
          ∃ row, row ∈ rows ∧ uuid row = u ∧ burst row = Some b)
  ∧ ((∀ b g, st.2 !! b = Some g → g ≠ ∅) → ∀ b g, st'.2 !! b = Some g → g ≠ ∅).
Proof.
  revert st. induction rows as [|row rows IH]; intros st H.
  - simpl in H. injection H as <-. split; [|done]. intros b u.
    split; [auto|]. intros [? | (row & []%elem_of_nil & _)]; done.
  - simpl in H. apply bind_Ok in H as (st1 & Hrow & H).
    rewrite add_spec in Hrow. apply bind_Ok in Hrow as (d & _ & [= <-]).
    destruct (IH _ H) as [IH1 IH2]. cbn [snd] in IH1, IH2. split.
    + intros b u. rewrite IH1. setoid_rewrite elem_of_cons.
      destruct (burst row) as [b'|] eqn:Hb.
      * unfold burst_add. destruct (decide (b' = b)) as [-> | Hne].
        -- rewrite lookup_insert_eq. simpl. rewrite elem_of_union, elem_of_singleton.
           split.
           ++ intros [[Hu | ->] | (r & Hr & Hu & Hbr)].
              ** by left.
              ** right. exists row. split; [by left | done].
              ** right. exists r. split; [by right | done].
           ++ intros [Hu | (r & [-> | Hr] & Hu & Hbr)].
              ** left. by left.
              ** left. by right.
              ** right. by exists r.
        -- rewrite lookup_insert_ne by done. split.
           ++ intros [Hu | (r & Hr & Hu & Hbr)]; [by left|].
              right. exists r. split; [by right | done].
           ++ intros [Hu | (r & [-> | Hr] & Hu & Hbr)]; [by left | congruence |].
              right. by exists r.
      * split.
        -- intros [Hu | (r & Hr & Hu & Hbr)]; [by left|].
           right. exists r. split; [by right | done].
        -- intros [Hu | (r & [-> | Hr] & Hu & Hbr)]; [by left | congruence |].
           right. by exists r.
    + intros Hst. apply IH2. destruct (burst row) as [b'|]; [|done].
      intros b g. unfold burst_add.
      destruct (decide (b' = b)) as [-> | Hne].
      * rewrite lookup_insert_eq. intros [= <-] Hempty.
        assert (uuid row ∈ (∅ : gset string)) as []%elem_of_empty.
        rewrite <- Hempty. apply elem_of_union_r. by apply elem_of_singleton.
      * rewrite lookup_insert_ne by done. apply Hst.
Qed.

(** The entry of a uuid is the dictionary of the last row with that
    uuid. *)
Lemma photo_loop_last (rows : list R)
    (st st' : gmap string dict * gmap string (gset string)) (u : string) :
  foldM add st rows = Ok st' →
  match last (filter (λ row, uuid row = u) rows) with
  | Some row => ∃ d, info row = Ok d ∧ st'.1 !! u = Some d
  | None => st'.1 !! u = st.1 !! u
  end.
Proof.
  revert st. induction rows as [|row rows IH]; intros st H.
  - simpl in H. by injection H as <-.
  - simpl in H. apply bind_Ok in H as (st1 & Hrow & H).
    rewrite add_spec in Hrow. apply bind_Ok in Hrow as (d & Hd & [= <-]).
    specialize (IH _ H). cbn [fst] in IH. rewrite filter_cons.
    destruct (decide (uuid row = u)) as [Heq | Hne].
    + rewrite last_cons.
      destruct (last (filter (λ row0, uuid row0 = u) rows)) as [r|]; [done|].
      rewrite IH, Heq, lookup_insert_eq. eauto.
    + destruct (last (filter (λ row0, uuid row0 = u) rows)) as [r|]; [done|].
      rewrite IH. by apply lookup_insert_ne.
Qed.

End PhotoLoop.


Section Pipelines.
Variable C : Constants.

Lemma add_photo4_spec (st : gmap string dict * gmap string (gset string))
    (row : photo4_row) :
  add_photo4 C st row
  = (d ← photo4_info C row;
     Ok (<[p4_uuid row := d]> st.1,
         match p4_burstUuid row with
         | Some b => burst_add st.2 b (p4_uuid row)
         | None => st.2
         end)).
Proof. done. Qed.

Lemma add_photo5_spec (st : gmap string dict * gmap string (gset string))
    (row : photo5_row) :
  add_photo5 C st row
  = (d ← photo5_info C row;
     Ok (<[p5_uuid row := d]> st.1,
         match p5_avalancheUuid row with
         | Some b => burst_add st.2 b (p5_uuid row)
         | None => st.2
         end)).
Proof. done. Qed.

(** The stages of the legacy ingester with the tables it has built: [P]
    holds after the photo details loop and survives the three joins, [Q] is
    what the backfill makes of it and survives the cloud join, [R] is what
    the last loop makes of it. *)
Lemma ingest4_stages_from (P Q R : string → dict → Prop) (version : string)
    (s : store4) (db : PhotosDB) :
  (∀ pb, foldM (add_photo4 C) (∅, ∅) (s4_photos s) = Ok pb → map_Forall P pb.1) →
  (∀ u d d', P u d → early_step4 d d' → P u d') →
  (∀ u d, P u d → Q u (backfill4 d)) →
  (∀ u d d' row, Q u d → cloud4 row d = Ok d' → Q u d') →
  (∀ u d d',
     Q u d →
     attach4 (foldl add_keyword (∅, ∅) (s4_keywords s)).1
             (foldl add_face4 (∅, ∅) (s4_faces s)).1
             (foldl add_album (∅, ∅) (s4_albums s)).1
             (foldl add_volume4 ∅ (s4_volumes s)) u d = Ok d' →
     R u d') →
  ingest4 C version s = Ok db →
  map_Forall R (_dbphotos db).
Proof.
  intros Hinfo HP HQ Hcloud HR Hdb. unfold ingest4 in Hdb.
  apply bind_Ok in Hdb as (pb & Hpb & Hdb).
  apply bind_Ok in Hdb as (p1 & Hp1 & Hdb).
  apply bind_Ok in Hdb as (p2 & Hp2 & Hdb).
  apply bind_Ok in Hdb as (p3 & Hp3 & Hdb).
  apply bind_Ok in Hdb as (p5 & Hp5 & Hdb).
  apply bind_Ok in Hdb as (p6 & Hp6 & Hdb).
  injection Hdb as <-. simpl.
  eapply for_each_photo_Forall; [|exact Hp6|].
  { intros u d d' Hd Hd'. eapply HR; eauto. }
  eapply join_pass_preserves; [|exact Hp5|].
  { intros row d d' Hd Hd'. eapply Hcloud; eauto. }
  apply map_Forall_fmap. eapply map_Forall_impl; [|intros u d Hd; apply HQ, Hd].
  eapply join_pass_preserves; [|exact Hp3|].
  { intros row d d' Hd Hd'. eapply HP; [exact Hd|]. right; right. by exists row. }
  eapply join_pass_preserves; [|exact Hp2|].
  { intros row d d' Hd Hd'. eapply HP; [exact Hd|]. right; left. by exists row. }
  eapply join_pass_preserves; [|exact Hp1|].
  { intros row d d' Hd Hd'. eapply HP; [exact Hd|]. left. by exists row. }
  by apply Hinfo.
Qed.

Lemma ingest5_stages_from (P Q : string → dict → Prop) (version : string)
    (s : store5) (db : PhotosDB) :
  (∀ pb, foldM (add_photo5 C) (∅, ∅) (s5_photos s) = Ok pb → map_Forall P pb.1) →
  (∀ u d d', P u d →
     writes ["extendedDescription"; "adjustmentFormatID"; "localAvailability";
             "remoteAvailability"; "isMissing"; "cloudLocalState"; "incloud"] d d' →
     P u d') →
  (∀ u d d',
     P u d →
     attach5 (foldl add_keyword (∅, ∅) (s5_keywords s)).1
             (foldl (add_face5 C) (∅, ∅) (s5_faces s)).1
             (foldl add_album (∅, ∅) (s5_albums s)).1 u d = Ok d' →
     Q u d') →
  ingest5 C version s = Ok db →
  map_Forall Q (_dbphotos db).
Proof.
  intros Hinfo HP HQ Hdb. unfold ingest5 in Hdb.
  apply bind_Ok in Hdb as (pb & Hpb & Hdb).
  apply bind_Ok in Hdb as (p1 & Hp1 & Hdb).
  apply bind_Ok in Hdb as (p2 & Hp2 & Hdb).
  apply bind_Ok in Hdb as (p3 & Hp3 & Hdb).
  apply bind_Ok in Hdb as (p4 & Hp4 & Hdb).
  apply bind_Ok in Hdb as (p5 & Hp5 & Hdb).
  apply bind_Ok in Hdb as (p6 & Hp6 & Hdb).
  injection Hdb as <-. simpl.
  eapply for_each_photo_Forall; [|exact Hp6|].
  { intros u d d' Hd Hd'. eapply HQ; eauto. }
  eapply join_pass_preserves; [|exact Hp5|].
  { intros row d d' Hd Hd'. eapply HP; [exact Hd|].
    eapply writes_mono; [|by eapply cloud5_writes]. keys_sub. }
  eapply join_pass_preserves; [|exact Hp4|].
  { intros row d d' Hd Hd'. eapply HP; [exact Hd|].
    eapply writes_mono; [|by eapply availability5_writes]. keys_sub. }
  eapply join_pass_preserves; [|exact Hp3|].
  { intros row d d' Hd Hd'. eapply HP; [exact Hd|].
    eapply writes_mono; [|by eapply availability5_writes]. keys_sub. }
  eapply join_pass_preserves; [|exact Hp2|].
  { intros row d d' Hd Hd'. eapply HP; [exact Hd|].
    eapply writes_mono; [|by eapply adjustment5_writes]. keys_sub. }
  eapply join_pass_preserves; [|exact Hp1|].
  { intros row d d' Hd Hd'. eapply HP; [exact Hd|].
    eapply writes_mono; [|by eapply description5_writes]. keys_sub. }
  by apply Hinfo.
Qed.

(** The photo details loop behind an index. *)
Lemma ingest4_photo_loop (version : string) (s : store4) (db : PhotosDB) :
  ingest4 C version s = Ok db →
  ∃ pb, foldM (add_photo4 C) (∅, ∅) (s4_photos s) = Ok pb
        ∧ _dbphotos_burst db = pb.2 ∧ dom (_dbphotos db) = dom pb.1.
Proof.
  unfold ingest4. intros Hdb.
  apply bind_Ok in Hdb as (pb & Hpb & Hdb).
  apply bind_Ok in Hdb as (p1 & Hp1 & Hdb).
  apply bind_Ok in Hdb as (p2 & Hp2 & Hdb).
  apply bind_Ok in Hdb as (p3 & Hp3 & Hdb).
  apply bind_Ok in Hdb as (p5 & Hp5 & Hdb).
  apply bind_Ok in Hdb as (p6 & Hp6 & Hdb).
  injection Hdb as <-. exists pb. simpl. split; [done|]. split; [done|].
  rewrite (for_each_photo_dom _ _ _ Hp6), (join_pass_dom _ _ _ _ _ Hp5), dom_fmap_L.
  by rewrite (join_pass_dom _ _ _ _ _ Hp3), (join_pass_dom _ _ _ _ _ Hp2),
    (join_pass_dom _ _ _ _ _ Hp1).
Qed.

Lemma ingest5_photo_loop (version : string) (s : store5) (db : PhotosDB) :
  ingest5 C version s = Ok db →
  ∃ pb, foldM (add_photo5 C) (∅, ∅) (s5_photos s) = Ok pb
        ∧ _dbphotos_burst db = pb.2 ∧ dom (_dbphotos db) = dom pb.1.
Proof.
  unfold ingest5. intros Hdb.
  apply bind_Ok in Hdb as (pb & Hpb & Hdb).
  apply bind_Ok in Hdb as (p1 & Hp1 & Hdb).
  apply bind_Ok in Hdb as (p2 & Hp2 & Hdb).
  apply bind_Ok in Hdb as (p3 & Hp3 & Hdb).
  apply bind_Ok in Hdb as (p4 & Hp4 & Hdb).
  apply bind_Ok in Hdb as (p5 & Hp5 & Hdb).
  apply bind_Ok in Hdb as (p6 & Hp6 & Hdb).
  injection Hdb as <-. exists pb. simpl. split; [done|]. split; [done|].
  rewrite (for_each_photo_dom _ _ _ Hp6), (join_pass_dom _ _ _ _ _ Hp5).
  by rewrite (join_pass_dom _ _ _ _ _ Hp4), (join_pass_dom _ _ _ _ _ Hp3),
    (join_pass_dom _ _ _ _ _ Hp2), (join_pass_dom _ _ _ _ _ Hp1).
Qed.

(** X4.  The photos of a legacy index are exactly the uuids of the rows of
    the photo details query: the later joins add no entry and drop none.
    The members of a burst group are the uuids of the rows that name the
    group; every group has a member and all its members are photos of the
    index. *)
Theorem ingest4_photo_table (version : string) (s : store4) (db : PhotosDB) :
  ingest4 C version s = Ok db →
  dom (_dbphotos db) = list_to_set (p4_uuid <$> s4_photos s)
  ∧ (∀ b u, u ∈ default ∅ (_dbphotos_burst db !! b) ↔
            ∃ row, row ∈ s4_photos s ∧ p4_uuid row = u ∧ p4_burstUuid row = Some b)
  ∧ (∀ b g, _dbphotos_burst db !! b = Some g → g ≠ ∅ ∧ g ⊆ dom (_dbphotos db)).
Proof.
  intros (pb & Hpb & -> & ->)%ingest4_photo_loop.
  pose proof (photo_loop_dom _ _ _ _ add_photo4_spec _ _ _ Hpb) as Hdom.
  destruct (photo_loop_burst _ _ _ _ add_photo4_spec _ _ _ Hpb) as [Hb Hne].
  cbn [fst snd] in Hdom, Hb, Hne. rewrite dom_empty_L, (left_id_L ∅ (∪)) in Hdom.
  assert (∀ b u, u ∈ default ∅ (pb.2 !! b) ↔
            ∃ row, row ∈ s4_photos s ∧ p4_uuid row = u ∧ p4_burstUuid row = Some b)
    as Hb'.
  { intros b u. rewrite Hb, lookup_empty. simpl. rewrite elem_of_empty. tauto. }
  split; [done|]. split; [done|]. intros b g Hg. split.
  - apply (Hne ltac:(intros ? ?; by rewrite lookup_empty) b g Hg).
  - intros u Hu. specialize (Hb' b u). rewrite Hg in Hb'. simpl in Hb'.
    apply Hb' in Hu as (row & Hrow & <- & _). rewrite Hdom.
    apply elem_of_list_to_set, list_elem_of_fmap. eauto.
Qed.

(** X5.  The photos of a modern index are exactly the uuids of the rows of
    the photo details query: the later joins add no entry and drop none.
    The members of a burst group are the uuids of the rows that name the
    group; every group has a member and all its members are photos of the
    index. *)
Theorem ingest5_photo_table (version : string) (s : store5) (db : PhotosDB) :
  ingest5 C version s = Ok db →
  dom (_dbphotos db) = list_to_set (p5_uuid <$> s5_photos s)
  ∧ (∀ b u, u ∈ default ∅ (_dbphotos_burst db !! b) ↔
            ∃ row, row ∈ s5_photos s ∧ p5_uuid row = u
                   ∧ p5_avalancheUuid row = Some b)
  ∧ (∀ b g, _dbphotos_burst db !! b = Some g → g ≠ ∅ ∧ g ⊆ dom (_dbphotos db)).
Proof.
  intros (pb & Hpb & -> & ->)%ingest5_photo_loop.
  pose proof (photo_loop_dom _ _ _ _ add_photo5_spec _ _ _ Hpb) as Hdom.
  destruct (photo_loop_burst _ _ _ _ add_photo5_spec _ _ _ Hpb) as [Hb Hne].
  cbn [fst snd] in Hdom, Hb, Hne. rewrite dom_empty_L, (left_id_L ∅ (∪)) in Hdom.
  assert (∀ b u, u ∈ default ∅ (pb.2 !! b) ↔
            ∃ row, row ∈ s5_photos s ∧ p5_uuid row = u
                   ∧ p5_avalancheUuid row = Some b) as Hb'.
  { intros b u. rewrite Hb, lookup_empty. simpl. rewrite elem_of_empty. tauto. }
  split; [done|]. split; [done|]. intros b g Hg. split.
  - apply (Hne ltac:(intros ? ?; by rewrite lookup_empty) b g Hg).
  - intros u Hu. specialize (Hb' b u). rewrite Hg in Hb'. simpl in Hb'.
    apply Hb' in Hu as (row & Hrow & <- & _). rewrite Hdom.
    apply elem_of_list_to_set, list_elem_of_fmap. eauto.
Qed.

End Pipelines.

Lemma ingest4_photo_table_witness :
  dom (_dbphotos (index_of (ingest4 sample_constants "4025" burst_store4)))
  = list_to_set (p4_uuid <$> s4_photos burst_store4).
Proof.
  apply (ingest4_photo_table sample_constants "4025" burst_store4
           (index_of (ingest4 sample_constants "4025" burst_store4))
           ltac:(ingested)).
Defined.

Lemma ingest5_photo_table_witness :
  dom (_dbphotos (index_of (ingest5 sample_constants "6000" burst_store5)))
  = list_to_set (p5_uuid <$> s5_photos burst_store5).
Proof.
  apply (ingest5_photo_table sample_constants "6000" burst_store5
           (index_of (ingest5 sample_constants "6000" burst_store5))
           ltac:(ingested)).
Defined.

(** ** Where the fields of an entry come from *)

Section Origin.
Variable C : Constants.

Lemma entry_origin4 (version : string) (s : store4) (db : PhotosDB)
    (u : string) (d : dict) :
  ingest4 C version s = Ok db →
  _dbphotos db !! u = Some d →
  ∃ row d0, last_row4 s u = Some row ∧ photo4_info C row = Ok d0 ∧
            ∀ k, k ∉ late_keys4 → d !! k = d0 !! k.
Proof.
  intros Hdb Hd. revert u d Hd.
  set (P := λ (u : string) (d : dict),
         ∃ row d0, last_row4 s u = Some row ∧ photo4_info C row = Ok d0 ∧
                   ∀ k, k ∉ late_keys4 → d !! k = d0 !! k).
  assert (∀ keys u d d', P u d → writes keys d d' → keys ⊆ late_keys4 → P u d')
    as Hframe.
  { intros keys u d d' (row & d0 & Hrow & Hd0 & Heq) W Hsub.
    exists row, d0. split; [done|]. split; [done|]. intros k Hk.
    rewrite (writes_frame keys d d' k W); [by apply Heq|].
    intros Hin. by apply Hk, Hsub. }
  apply (ingest4_stages_from C P P P version s db); [| | | | |done].
  - intros pb Hpb u d Hd.
    pose proof (photo_loop_last _ _ _ _ (add_photo4_spec C) _ _ _ u Hpb) as Hlast.
    fold (last_row4 s u) in Hlast. unfold P.
    destruct (last_row4 s u) as [row|].
    + destruct Hlast as (d0 & Hd0 & Hu). exists row, d0.
      split; [done|]. split; [done|]. intros k _. congruence.
    + cbn [fst] in Hlast. rewrite lookup_empty in Hlast. congruence.
  - intros u d d' Hd Hstep. apply (Hframe _ u d d' Hd (early_step4_writes d d' Hstep)).
    decided.
  - intros u d Hd. apply (Hframe _ u d _ Hd (backfill4_writes d)). decided.
  - intros u d d' row Hd Hc. apply (Hframe _ u d d' Hd (cloud4_writes row d d' Hc)).
    decided.
  - intros u d d' Hd Hat. apply (Hframe _ u d d' Hd (attach4_writes _ _ _ _ _ _ _ Hat)).
    decided.
Qed.

(** X6.  Every entry of a legacy index stems from the last row of the photo
    details query with its uuid (a later row with the same uuid replaces an
    earlier one), and no later loop changes a key that the photo details
    loop has set, other than the keys of [late_keys4]. *)
Theorem ingest4_entry_origin (version : string) (s : store4) (db : PhotosDB)
    (u : string) (d : dict) :
  ingest4 C version s = Ok db →
  _dbphotos db !! u = Some d →
  ∃ row d0, last_row4 s u = Some row ∧ photo4_info C row = Ok d0 ∧
            ∀ k, k ∉ late_keys4 → d !! k = d0 !! k.
Proof. apply entry_origin4. Qed.

Lemma entry_origin5 (version : string) (s : store5) (db : PhotosDB)
    (u : string) (d : dict) :
  ingest5 C version s = Ok db →
  _dbphotos db !! u = Some d →
  ∃ row d0, last_row5 s u = Some row ∧ photo5_info C row = Ok d0 ∧
            ∀ k, k ∉ late_keys5 → d !! k = d0 !! k.
Proof.
  intros Hdb Hd. revert u d Hd.
  set (P := λ (u : string) (d : dict),
         ∃ row d0, last_row5 s u = Some row ∧ photo5_info C row = Ok d0 ∧
                   ∀ k, k ∉ late_keys5 → d !! k = d0 !! k).
  assert (∀ keys u d d', P u d → writes keys d d' → keys ⊆ late_keys5 → P u d')
    as Hframe.
  { intros keys u d d' (row & d0 & Hrow & Hd0 & Heq) W Hsub.
    exists row, d0. split; [done|]. split; [done|]. intros k Hk.
    rewrite (writes_frame keys d d' k W); [by apply Heq|].
    intros Hin. by apply Hk, Hsub. }
  apply (ingest5_stages_from C P P version s db); [| | |done].
  - intros pb Hpb u d Hd.
    pose proof (photo_loop_last _ _ _ _ (add_photo5_spec C) _ _ _ u Hpb) as Hlast.
    fold (last_row5 s u) in Hlast. unfold P.
    destruct (last_row5 s u) as [row|].
    + destruct Hlast as (d0 & Hd0 & Hu). exists row, d0.
      split; [done|]. split; [done|]. intros k _. congruence.
    + cbn [fst] in Hlast. rewrite lookup_empty in Hlast. congruence.
  - intros u d d' Hd W. apply (Hframe _ u d d' Hd W). decided.
  - intros u d d' Hd Hat. apply (Hframe _ u d d' Hd (attach5_writes _ _ _ _ _ _ Hat)).
    decided.
Qed.

(** X7.  Every entry of a modern index stems from the last row of the photo
    details query with its uuid (a later row with the same uuid replaces an
    earlier one), and no later loop changes a key that the photo details
    loop has set, other than the keys of [late_keys5]. *)
Theorem ingest5_entry_origin (version : string) (s : store5) (db : PhotosDB)
    (u : string) (d : dict) :
  ingest5 C version s = Ok db →
  _dbphotos db !! u = Some d →
  ∃ row d0, last_row5 s u = Some row ∧ photo5_info C row = Ok d0 ∧
            ∀ k, k ∉ late_keys5 → d !! k = d0 !! k.
Proof. apply entry_origin5. Qed.

End Origin.

Section Derived.
Variable C : Constants.



End Derived.

(** ** The back references attached to an entry *)

Lemma py_eq_of_int (o : option Z) (n : Z) : py_eq (of_int o) (PInt n) = int_is o n.
Proof.
  destruct o as [z|]; [|done]. simpl. unfold Qeq_bool, inject_Z. simpl.
  rewrite !Z.mul_1_r. unfold Z.eqb.
  by destruct (z ?= n).
Qed.

Lemma attach_persons_lookup (faces_uuid : xref) (u : string) (d : dict) :
  attach_persons faces_uuid u d !! "persons"
  = Some (PList (default [] (faces_uuid !! u)))
  ∧ attach_persons faces_uuid u d !! "hasPersons"
    = Some (PInt (if bool_decide (is_Some (faces_uuid !! u)) then 1 else 0)).
Proof.
  unfold attach_persons. destruct (faces_uuid !! u) as [l|];
    rewrite !lookup_setitems; split; reflexivity.
Qed.

Lemma attach_albums_lookup (albums_uuid : xref) (u : string) (d : dict) :
  attach_albums albums_uuid u d !! "albums"
  = Some (PList (default [] (albums_uuid !! u)))
  ∧ attach_albums albums_uuid u d !! "hasAlbums"
    = Some (PInt (if bool_decide (is_Some (albums_uuid !! u)) then 1 else 0)).
Proof.
  unfold attach_albums. destruct (albums_uuid !! u) as [l|];
    rewrite !lookup_setitems; split; reflexivity.
Qed.

Section Attachments.
Variable C : Constants.

(** X10.  In a modern index every entry carries the lists that the cross
    references hold for its uuid (the empty list when they hold none), and
    the flags [hasKeywords], [hasPersons] and [hasAlbums] say whether the
    cross reference has the uuid. *)
Theorem ingest5_attachments (version : string) (s : store5) (db : PhotosDB)
    (u : string) (d : dict) :
  ingest5 C version s = Ok db →
  _dbphotos db !! u = Some d →
  d !! "keywords" = Some (PList (default [] (_dbkeywords_uuid db !! u)))
  ∧ d !! "hasKeywords"
    = Some (PInt (if bool_decide (is_Some (_dbkeywords_uuid db !! u)) then 1 else 0))
  ∧ d !! "persons" = Some (PList (default [] (_dbfaces_uuid db !! u)))
  ∧ d !! "hasPersons"
    = Some (PInt (if bool_decide (is_Some (_dbfaces_uuid db !! u)) then 1 else 0))
  ∧ d !! "albums" = Some (PList (default [] (_dbalbums_uuid db !! u)))
  ∧ d !! "hasAlbums"
    = Some (PInt (if bool_decide (is_Some (_dbalbums_uuid db !! u)) then 1 else 0)).
Proof.
  intros Hdb Hd.
  destruct (ingest5_tables C version s db Hdb) as (_ & -> & _ & -> & _ & -> & _).
  revert u d Hd.
  apply (ingest5_stages_from C (λ _ _, True) _ version s db); [done | done | | done].
  intros u d d' _ Hat. unfold attach5 in Hat. injection Hat as <-.
  set (kw := (foldl add_keyword (∅, ∅) (s5_keywords s)).1).
  set (faces := (foldl (add_face5 C) (∅, ∅) (s5_faces s)).1).
  set (albums := (foldl add_album (∅, ∅) (s5_albums s)).1).
  match goal with
  | |- context [attach_persons faces u ?x] => set (d1 := x)
  end.
  destruct (attach_albums_lookup albums u (attach_persons faces u d1)) as [A1 A2].
  destruct (attach_persons_lookup faces u d1) as [P1 P2].
  assert (∀ k, k ∉ ["albums"; "hasAlbums"] →
     attach_albums albums u (attach_persons faces u d1) !! k
     = attach_persons faces u d1 !! k) as FA.
  { intros k Hk. apply (writes_frame _ _ _ k (attach_albums_writes albums u _) Hk). }
  assert (∀ k, k ∉ ["hasPersons"; "persons"] →
     attach_persons faces u d1 !! k = d1 !! k) as FP.
  { intros k Hk. apply (writes_frame _ _ _ k (attach_persons_writes faces u _) Hk). }
  rewrite !FA by decided. rewrite !FP by decided.
  repeat split; try done.
  - subst d1. destruct (kw !! u); rewrite lookup_setitems; done.
  - subst d1. destruct (kw !! u); rewrite lookup_setitems; reflexivity.
Qed.

(** X11.  In a legacy index the persons and albums of an entry are the
    lists of the cross references, as in a modern one.  Its keywords are
    the list of the cross reference only when the [hasKeywords] column of
    its row is 1, and the empty list otherwise, whatever the keyword join
    yields for it.  Its volume is the name listed for the volume id of its
    row, and [None] when the row has no volume id. *)
Theorem ingest4_attachments (version : string) (s : store4) (db : PhotosDB)
    (u : string) (d : dict) :
  ingest4 C version s = Ok db →
  _dbphotos db !! u = Some d →
  ∃ row, last_row4 s u = Some row ∧
    d !! "keywords"
      = Some (PList (if int_is (p4_hasKeywords row) 1
                     then default [] (_dbkeywords_uuid db !! u) else [])) ∧
    d !! "persons" = Some (PList (default [] (_dbfaces_uuid db !! u))) ∧
    d !! "hasPersons"
      = Some (PInt (if bool_decide (is_Some (_dbfaces_uuid db !! u)) then 1 else 0)) ∧
    d !! "albums" = Some (PList (default [] (_dbalbums_uuid db !! u))) ∧
    d !! "hasAlbums"
      = Some (PInt (if bool_decide (is_Some (_dbalbums_uuid db !! u)) then 1 else 0)) ∧
    d !! "volume"
      = Some (match p4_volumeId row with
              | Some v => of_text (default None (_dbvolumes db !! inl v))
              | None => PNone
              end).
Proof.
  intros Hdb Hd.
  destruct (ingest4_tables C version s db Hdb)
    as (_ & -> & _ & -> & _ & -> & _ & _ & ->).
  revert u d Hd.
  set (P := λ (u : string) (d : dict),
         ∃ row, last_row4 s u = Some row ∧
                d !! "hasKeywords" = Some (of_int (p4_hasKeywords row)) ∧
                d !! "volumeId" = Some (of_int (p4_volumeId row))).
  assert (∀ keys u d d', P u d → writes keys d d' →
            "hasKeywords" ∉ keys → "volumeId" ∉ keys → P u d') as Hframe.
  { intros keys u d d' (row & Hrow & H1 & H2) W N1 N2. exists row.
    rewrite !(writes_frame keys d d') by done. done. }
  apply (ingest4_stages_from C P P _ version s db); [| | | | |done].
  - intros pb Hpb u d Hd.
    pose proof (photo_loop_last _ _ _ _ (add_photo4_spec C) _ _ _ u Hpb) as Hlast.
    fold (last_row4 s u) in Hlast. unfold P.
    destruct (last_row4 s u) as [row|].
    + destruct Hlast as (d0 & Hd0 & Hu). exists row. split; [done|].
      rewrite Hd in Hu. injection Hu as <-. unfold photo4_info in Hd0.
      apply bind_Ok in Hd0 as (? & _ & Hd0).
      apply bind_Ok in Hd0 as (? & _ & Hd0). injection Hd0 as <-.
      rewrite !lookup_setitems. done.
    + cbn [fst] in Hlast. rewrite lookup_empty in Hlast. congruence.
  - intros u d d' Hd Hstep.
    apply (Hframe _ u d d' Hd (early_step4_writes d d' Hstep)); decided.
  - intros u d Hd. apply (Hframe _ u d _ Hd (backfill4_writes d)); decided.
  - intros u d d' row Hd Hc.
    apply (Hframe _ u d d' Hd (cloud4_writes row d d' Hc)); decided.
  - intros u d d' (row & Hrow & Hhk & Hvid) Hat. exists row. split; [done|].
    set (kw := (foldl add_keyword (∅, ∅) (s4_keywords s)).1) in *.
    set (faces := (foldl add_face4 (∅, ∅) (s4_faces s)).1) in *.
    set (albums := (foldl add_album (∅, ∅) (s4_albums s)).1) in *.
    set (volumes := foldl add_volume4 ∅ (s4_volumes s)) in *.
    unfold attach4 in Hat.
    apply bind_Ok in Hat as (hk & Hk%getitem_Ok & Hat).
    rewrite Hhk in Hk. injection Hk as <-. rewrite py_eq_of_int in Hat.
    apply bind_Ok in Hat as (d1 & Hd1 & Hat).
    apply bind_Ok in Hat as (vid & Hv%getitem_Ok & Hat).
    destruct (attach_albums_lookup albums u (attach_persons faces u d1)) as [A1 A2].
    destruct (attach_persons_lookup faces u d1) as [P1 P2].
    assert (∀ k, k ∉ ["albums"; "hasAlbums"] →
       attach_albums albums u (attach_persons faces u d1) !! k
       = attach_persons faces u d1 !! k) as FA.
    { intros k Hk. apply (writes_frame _ _ _ k (attach_albums_writes albums u _) Hk). }
    assert (∀ k, k ∉ ["hasPersons"; "persons"] →
       attach_persons faces u d1 !! k = d1 !! k) as FP.
    { intros k Hk. apply (writes_frame _ _ _ k (attach_persons_writes faces u _) Hk). }
    assert (d1 !! "keywords"
            = Some (PList (if int_is (p4_hasKeywords row) 1
                           then default [] (kw !! u) else []))
            ∧ d1 !! "volumeId" = Some (of_int (p4_volumeId row))) as [K1 V1].
    { destruct (int_is (p4_hasKeywords row) 1).
      - apply bind_Ok in Hd1 as (l & Hl%getitem_Ok & [= <-]).
        rewrite !lookup_setitems, Hl. done.
      - injection Hd1 as <-. rewrite !lookup_setitems. done. }
    rewrite FA, FP, V1 in Hv by decided. injection Hv as <-.
    assert (∃ v, d' = setitems (attach_albums albums u (attach_persons faces u d1))
                        [("volume", v)]
                 ∧ v = match p4_volumeId row with
                       | Some v => of_text (default None (volumes !! inl v))
                       | None => PNone
                       end) as (v & -> & Hvol).
    { destruct (p4_volumeId row) as [z|]; simpl in Hat.
      - apply bind_Ok in Hat as (name & Hname%getitem_Ok & [= <-]).
        eexists. split; [done|]. by rewrite Hname.
      - injection Hat as <-. eauto. }
    rewrite !lookup_setitems. simpl.
    rewrite !FA by decided. rewrite !FP by decided.
    rewrite Hvol. done.
Qed.

End Attachments.

Lemma ingest5_attachments_witness :
  entry_of (index_of (ingest5 sample_constants "6000" trip_store)) "B" !! "keywords"
  = Some (PList (default [] (_dbkeywords_uuid
                               (index_of (ingest5 sample_constants "6000" trip_store))
                               !! "B"))).
Proof.
  apply (ingest5_attachments sample_constants "6000" trip_store
           (index_of (ingest5 sample_constants "6000" trip_store)) "B" _
           ltac:(ingested) ltac:(entry)).
Defined.

Lemma ingest4_attachments_witness :
  ∃ row, last_row4 album_store4 "A" = Some row ∧
    entry_of (index_of (ingest4 sample_constants "4025" album_store4)) "A"
      !! "keywords"
    = Some (PList (if int_is (p4_hasKeywords row) 1
                   then default [] (_dbkeywords_uuid
                          (index_of (ingest4 sample_constants "4025" album_store4))
                          !! "A")
                   else [])).
Proof.
  destruct (ingest4_attachments sample_constants "4025" album_store4
              (index_of (ingest4 sample_constants "4025" album_store4)) "A" _
              ltac:(ingested) ltac:(entry)) as (row & Hrow & Hk & _).
  exists row. split; assumption.
Defined.

Lemma ingest4_entry_origin_witness :
  ∃ row d0, last_row4 one_photo_store4 "A" = Some row ∧
    photo4_info sample_constants row = Ok d0 ∧
    ∀ k, k ∉ late_keys4 →
      entry_of (index_of (ingest4 sample_constants "4025" one_photo_store4)) "A" !! k
      = d0 !! k.
Proof.
  apply (ingest4_entry_origin sample_constants "4025" one_photo_store4
           (index_of (ingest4 sample_constants "4025" one_photo_store4)) "A" _
           ltac:(ingested) ltac:(entry)).
Defined.

Lemma ingest5_entry_origin_witness :
  ∃ row d0, last_row5 one_photo_store5 "A" = Some row ∧
    photo5_info sample_constants row = Ok d0 ∧
    ∀ k, k ∉ late_keys5 →
      entry_of (index_of (ingest5 sample_constants "6000" one_photo_store5)) "A" !! k
      = d0 !! k.
Proof.
  apply (ingest5_entry_origin sample_constants "6000" one_photo_store5
           (index_of (ingest5 sample_constants "6000" one_photo_store5)) "A" _
           ltac:(ingested) ltac:(entry)).
Defined.



(** ** When the ingesters raise *)

Lemma foldM_Err {A S} (f : S → A → result S) (l : list A) (s : S) (e : exn) :
  foldM f s l = Err e → ∃ s' a, a ∈ l ∧ f s' a = Err e.
Proof.
  revert s. induction l as [|a l IH]; intros s H; simpl in H; [discriminate|].
  destruct (f s a) as [s1|e1] eqn:Hf; simpl in H.
  - destruct (IH _ H) as (s' & a' & Ha' & Hf'). exists s', a'.
    split; [by right | done].
  - injection H as <-. exists s, a. split; [by left | done].
Qed.


Lemma for_each_photo_total_on (f : string → dict → result dict)
    (m : gmap string dict) :
  (∀ u d, m !! u = Some d → ∃ d', f u d = Ok d') →
  ∃ m', for_each_photo f m = Ok m'.
Proof.
  unfold for_each_photo.
  apply (map_fold_weak_ind
    (λ r m, (∀ u d, m !! u = Some d → ∃ d', f u d = Ok d') → ∃ m', r = Ok m')).
  - by exists ∅.
  - intros i x m0 r Hi IH Hf.
    destruct IH as [m1 ->].
    { intros u d Hu. apply Hf. rewrite lookup_insert_ne; [done|].
      intros ->. congruence. }
    destruct (Hf i x) as [d' Hd']; [by rewrite lookup_insert_eq|].
    simpl. rewrite Hd'. simpl. eauto.
Qed.


Section Outcome5.
Variable C : Constants.



End Outcome5.





Section Outcome4.
Variable C : Constants.





End Outcome4.

(** ** The joins that follow the photo details loop *)

Lemma assoc_last_None (k : string) (kvs : list (string * pyval)) :
  assoc_last k kvs = None ↔ k ∉ kvs.*1.
Proof.
  induction kvs as [|[k' v] kvs IH]; simpl.
  - split; [intros _; apply not_elem_of_nil | done].
  - rewrite not_elem_of_cons, <- IH. destruct (assoc_last k kvs).
    + split; [discriminate | intros [_ ?]; done].
    + destruct (String.eqb_spec k' k) as [-> | Hne].
      * split; [discriminate | intros [? _]; done].
      * split; [intros _; split; [congruence | done] | done].
Qed.

(** The entry of a uuid after a join is its entry before, updated with the
    rows of the join that have the uuid, in their order. *)
Lemma join_pass_entry {R} (key : R → string) (upd : R → dict → result dict)
    (rows : list R) (m m' : gmap string dict) (u : string) :
  join_pass key upd m rows = Ok m' →
  match m !! u with
  | Some d => ∃ d', foldM (λ d row, upd row d) d (filter (λ r, key r = u) rows) = Ok d'
                    ∧ m' !! u = Some d'
  | None => m' !! u = None
  end.
Proof.
  revert m. induction rows as [|row rows IH]; intros m Hm.
  - simpl in Hm. injection Hm as <-. destruct (m !! u); eauto.
  - simpl in Hm. apply bind_Ok in Hm as (m1 & Hrow & Hm).
    specialize (IH _ Hm). unfold update_photo in Hrow. rewrite filter_cons.
    destruct (decide (key row = u)) as [Heq | Hne].
    + rewrite Heq in Hrow. destruct (m !! u) as [d|] eqn:Hd.
      * apply bind_Ok in Hrow as (d1 & Hd1 & [= <-]).
        rewrite lookup_insert_eq in IH. simpl. rewrite Hd1. done.
      * injection Hrow as <-. by rewrite Hd in IH.
    + destruct (m !! key row) as [d0|].
      * apply bind_Ok in Hrow as (d1 & Hd1 & [= <-]).
        by rewrite lookup_insert_ne in IH.
      * by injection Hrow as <-.
Qed.

(** A run of updates that assign the same keys: the last one decides. *)
Lemma fold_setitems_last {R} (kvs : R → list (string * pyval)) (keys : list string)
    (upd : R → dict → result dict) (rows : list R) (d d' : dict) (k : string) :
  (∀ row d, upd row d = Ok (setitems d (kvs row))) →
  (∀ row, (kvs row).*1 = keys) →
  foldM (λ d row, upd row d) d rows = Ok d' →
  d' !! k = match last rows with
            | Some r => match assoc_last k (kvs r) with
                        | Some v => Some v
                        | None => d !! k
                        end
            | None => d !! k
            end.
Proof.
  intros Hupd Hkeys. revert d. induction rows as [|row rows IH]; intros d H.
  - simpl in H. by injection H as <-.
  - simpl in H. rewrite Hupd in H. simpl in H. rewrite (IH _ H).
    rewrite last_cons. destruct (last rows) as [r|].
    + destruct (assoc_last k (kvs r)) eqn:Hk; [done|].
      apply lookup_setitems_ne. rewrite Hkeys, <- (Hkeys r).
      by apply assoc_last_None.
    + apply lookup_setitems.
Qed.

Lemma join_pass_setitems {R} (key : R → string) (kvs : R → list (string * pyval))
    (keys : list string) (upd : R → dict → result dict) (rows : list R)
    (m m' : gmap string dict) (u : string) (d : dict) :
  (∀ row d, upd row d = Ok (setitems d (kvs row))) →
  (∀ row, (kvs row).*1 = keys) →
  join_pass key upd m rows = Ok m' →
  m !! u = Some d →
  ∃ d', m' !! u = Some d' ∧
        ∀ k, d' !! k = match last_for key u rows with
                       | Some r => match assoc_last k (kvs r) with
                                   | Some v => Some v
                                   | None => d !! k
                                   end
                       | None => d !! k
                       end.
Proof.
  intros Hupd Hkeys Hm Hd.
  pose proof (join_pass_entry key upd rows m m' u Hm) as H. rewrite Hd in H.
  destruct H as (d' & Hfold & Hd'). exists d'. split; [done|]. intros k.
  apply (fold_setitems_last kvs keys upd _ d d' k Hupd Hkeys Hfold).
Qed.

Section Joins5.
Variable C : Constants.

(** The keys that the joins of the modern ingester fill are [None] after
    the photo details loop. *)
Lemma photo5_info_late (row : photo5_row) (d : dict) :
  photo5_info C row = Ok d →
  d !! "extendedDescription" = Some PNone
  ∧ d !! "adjustmentFormatID" = Some PNone
  ∧ d !! "isMissing" = Some PNone
  ∧ d !! "cloudLocalState" = Some PNone
  ∧ d !! "incloud" = Some PNone.
Proof.
  unfold photo5_info. intros H.
  apply bind_Ok in H as (? & _ & H). apply bind_Ok in H as (? & _ & H).
  injection H as <-. rewrite !lookup_setitems. done.
Qed.

(** X14.  In a modern index the description, the adjustment format, the
    missing flag and the cloud state of an entry come from the last row
    that the matching join yields for its uuid, and are [None] when the
    join yields no row for it.  The two availability joins count as one,
    the rows of the second after those of the first; [isMissing] is 1
    unless the local availability of the deciding row is 1, and [incloud]
    tells whether its cloud state is 3. *)
Theorem ingest5_joined_fields (version : string) (s : store5) (db : PhotosDB)
    (u : string) (d : dict) :
  ingest5 C version s = Ok db →
  _dbphotos db !! u = Some d →
  d !! "extendedDescription"
    = Some (from_option (λ r, of_text (d5_longDescription r)) PNone
              (last_for d5_uuid u (s5_descriptions s)))
  ∧ d !! "adjustmentFormatID"
    = Some (from_option (λ r, of_text (j5_formatIdentifier r)) PNone
              (last_for j5_uuid u (s5_adjustments s)))
  ∧ d !! "isMissing"
    = Some (from_option
              (λ r, PInt (if int_is (v5_localAvailability r) 1 then 0 else 1)) PNone
              (last_for v5_uuid u
                 (s5_availability_subtype s ++ s5_availability_fingerprint s)))
  ∧ d !! "cloudLocalState"
    = Some (from_option (λ r, of_int (c5_cloudLocalState r)) PNone
              (last_for c5_uuid u (s5_cloud s)))
  ∧ d !! "incloud"
    = Some (from_option (λ r, PBool (int_is (c5_cloudLocalState r) 3)) PNone
              (last_for c5_uuid u (s5_cloud s))).
Proof.
  intros Hdb Hd. unfold ingest5 in Hdb.
  apply bind_Ok in Hdb as (pb & Hpb & Hdb).
  apply bind_Ok in Hdb as (p1 & Hp1 & Hdb).
  apply bind_Ok in Hdb as (p2 & Hp2 & Hdb).
  apply bind_Ok in Hdb as (p3 & Hp3 & Hdb).
  apply bind_Ok in Hdb as (p4 & Hp4 & Hdb).
  apply bind_Ok in Hdb as (p5 & Hp5 & Hdb).
  apply bind_Ok in Hdb as (p6 & Hp6 & Hdb).
  injection Hdb as <-. cbn [_dbphotos] in Hd.
  assert (join_pass v5_uuid availability5 p2
            (s5_availability_subtype s ++ s5_availability_fingerprint s) = Ok p4)
    as Hp34.
  { unfold join_pass in *. rewrite foldM_app, Hp3. exact Hp4. }
  clear Hp3 Hp4 p3.
  assert (is_Some (pb.1 !! u)) as [d0 Hd0].
  { apply elem_of_dom.
    rewrite <- (join_pass_dom _ _ _ _ _ Hp1), <- (join_pass_dom _ _ _ _ _ Hp2),
            <- (join_pass_dom _ _ _ _ _ Hp34), <- (join_pass_dom _ _ _ _ _ Hp5),
            <- (for_each_photo_dom _ _ _ Hp6).
    apply elem_of_dom. eauto. }
  assert (∃ row, photo5_info C row = Ok d0) as [row Hrow].
  { pose proof (photo_loop_last _ _ _ _ (add_photo5_spec C) _ _ _ u Hpb) as Hlast.
    destruct (last _) as [row|].
    - destruct Hlast as (d0' & Hinfo & Hu). exists row. congruence.
    - cbn [fst] in Hlast. rewrite lookup_empty in Hlast. congruence. }
  destruct (photo5_info_late row d0 Hrow) as (I1 & I2 & I3 & I4 & I5).
  destruct (join_pass_setitems d5_uuid
              (λ r, [("extendedDescription", of_text (d5_longDescription r))])
              ["extendedDescription"] description5 _ _ _ u d0
              ltac:(done) ltac:(done) Hp1 Hd0) as (d1 & Hd1 & L1).
  destruct (join_pass_setitems j5_uuid
              (λ r, [("adjustmentFormatID", of_text (j5_formatIdentifier r))])
              ["adjustmentFormatID"] adjustment5 _ _ _ u d1
              ltac:(done) ltac:(done) Hp2 Hd1) as (d2 & Hd2 & L2).
  destruct (join_pass_setitems v5_uuid
              (λ r, [("localAvailability", of_int (v5_localAvailability r));
                     ("remoteAvailability", of_int (v5_remoteAvailability r));
                     ("isMissing",
                      PInt (if int_is (v5_localAvailability r) 1 then 0 else 1))])
              ["localAvailability"; "remoteAvailability"; "isMissing"]
              availability5 _ _ _ u d2
              ltac:(done) ltac:(done) Hp34 Hd2) as (d4 & Hd4 & L4).
  destruct (join_pass_setitems c5_uuid
              (λ r, [("cloudLocalState", of_int (c5_cloudLocalState r));
                     ("incloud", PBool (int_is (c5_cloudLocalState r) 3))])
              ["cloudLocalState"; "incloud"] cloud5 _ _ _ u d4
              ltac:(done) ltac:(done) Hp5 Hd4) as (d5 & Hd5 & L5).
  pose proof (for_each_photo_lookup _ _ _ Hp6 u) as H6. rewrite Hd5 in H6.
  destruct H6 as (d6 & Hat & Hd6). rewrite Hd in Hd6. injection Hd6 as <-.
  pose proof (attach5_writes _ _ _ _ _ _ Hat) as W.
  rewrite !(writes_frame _ _ _ _ W) by decided.
  rewrite !L5, !L4, !L2, !L1, I1, I2, I3, I4, I5.
  destruct (last_for d5_uuid u _), (last_for j5_uuid u _),
           (last_for v5_uuid u _), (last_for c5_uuid u _); done.
Qed.

End Joins5.

Section Joins4.
Variable C : Constants.

Lemma photo4_info_late (row : photo4_row) (d : dict) :
  photo4_info C row = Ok d →
  d !! "adjustmentUuid" = Some (of_text (p4_adjustmentUuid row))
  ∧ d !! "adjustmentFormatID" = Some PNone
  ∧ d !! "cloudLibraryState" = Some PNone
  ∧ d !! "cloudAvailable" = Some PNone
  ∧ d !! "cloudStatus" = Some PNone
  ∧ d !! "incloud" = Some PNone
  ∧ d !! "edit_resource_id" = None
  ∧ d !! "live_model_id" = None
  ∧ d !! "modeResourceIsOnDisk" = None.
Proof.
  unfold photo4_info. intros H.
  apply bind_Ok in H as (? & _ & H). apply bind_Ok in H as (? & _ & H).
  injection H as <-. rewrite !lookup_setitems. done.
Qed.

(** The edits of one photo: the last row that passes the test decides the
    edit resource; no other key changes. *)
Lemma edit4_fold (row : photo4_row) (rows : list edit4_row) (d d' : dict) :
  d !! "adjustmentUuid" = Some (of_text (p4_adjustmentUuid row)) →
  foldM (λ d e, edit4 e d) d rows = Ok d' →
  d' !! "edit_resource_id"
  = match last (filter (λ e, edit4_applies row e = true) rows) with
    | Some e => Some (of_int (e4_modelId e))
    | None => d !! "edit_resource_id"
    end
  ∧ ∀ k, k ≠ "edit_resource_id" → d' !! k = d !! k.
Proof.
  revert d. induction rows as [|e rows IH]; intros d Hadj H.
  - simpl in H. by injection H as <-.
  - simpl in H. apply bind_Ok in H as (d1 & He & H).
    unfold edit4 in He. rewrite (proj2 (getitem_Ok d _ _) Hadj) in He.
    cbn [mbind result_bind] in He. fold (edit4_applies row e) in He.
    rewrite filter_cons.
    destruct (edit4_applies row e) eqn:Happ; injection He as <-.
    + assert (setitems d [("edit_resource_id", of_int (e4_modelId e))]
                !! "adjustmentUuid" = Some (of_text (p4_adjustmentUuid row)))
        as Hadj' by (rewrite lookup_setitems; exact Hadj).
      destruct (IH _ Hadj' H) as [IH1 IH2].
      rewrite decide_True by done. rewrite last_cons. split.
      * rewrite IH1. destruct (last _); [done|]. by rewrite lookup_setitems.
      * intros k Hk. rewrite (IH2 k Hk). apply lookup_setitems_ne.
        simpl. rewrite list_elem_of_singleton. congruence.
    + rewrite decide_False by done. by apply IH.
Qed.

Lemma has_key_lookup {V} (d : gmap string V) (k : string) :
  has_key d k = match d !! k with Some _ => true | None => false end.
Proof. unfold has_key. by destruct (d !! k). Qed.

Lemma backfill4_lookup (d : dict) :
  backfill4 d !! "edit_resource_id" = Some (default PNone (d !! "edit_resource_id"))
  ∧ backfill4 d !! "live_model_id" = Some (default PNone (d !! "live_model_id"))
  ∧ backfill4 d !! "modeResourceIsOnDisk"
    = match d !! "live_model_id" with
      | Some _ => d !! "modeResourceIsOnDisk"
      | None => Some PNone
      end.
Proof.
  unfold backfill4. rewrite (has_key_lookup d).
  destruct (d !! "edit_resource_id") as [e|] eqn:He;
    rewrite has_key_lookup, ?lookup_setitems; cbn [assoc_last String.eqb Ascii.eqb Bool.eqb];
    destruct (d !! "live_model_id") as [l|] eqn:Hl;
    rewrite ?lookup_setitems; cbn [assoc_last String.eqb Ascii.eqb Bool.eqb];
    rewrite ?He, ?Hl; done.
Qed.

Lemma ingest4_joined (version : string) (s : store4) (db : PhotosDB)
    (u : string) (d : dict) :
  ingest4 C version s = Ok db →
  _dbphotos db !! u = Some d →
  ∃ row, last_row4 s u = Some row ∧
    d !! "edit_resource_id"
      = Some (from_option (λ e, of_int (e4_modelId e)) PNone
                (last (filter (λ e, edit4_applies row e = true)
                         (filter (λ e, e4_uuid e = u) (s4_edits s))))) ∧
    d !! "adjustmentFormatID"
      = Some (from_option (λ r, of_text (x4_format r)) PNone
                (last_for x4_uuid u (s4_extedits s))) ∧
    d !! "live_model_id"
      = Some (from_option (λ r, of_int (l4_modelId r)) PNone
                (last_for l4_uuid u (s4_live s))) ∧
    d !! "modeResourceIsOnDisk"
      = Some (from_option (λ r, PBool (int_is (l4_isOnDisk r) 1)) PNone
                (last_for l4_uuid u (s4_live s))) ∧
    d !! "cloudLibraryState"
      = Some (from_option (λ r, of_int (c4_cloudLibraryState r)) PNone
                (last_for c4_uuid u (s4_cloud s))) ∧
    d !! "cloudAvailable"
      = Some (from_option (λ r, of_int (c4_available r)) PNone
                (last_for c4_uuid u (s4_cloud s))) ∧
    d !! "cloudStatus"
      = Some (from_option (λ r, of_int (c4_status r)) PNone
                (last_for c4_uuid u (s4_cloud s))) ∧
    d !! "incloud"
      = Some (from_option (λ r, PBool (int_is (c4_available r) 1)) PNone
                (last_for c4_uuid u (s4_cloud s))).
Proof.
  intros Hdb Hd. unfold ingest4 in Hdb.
  apply bind_Ok in Hdb as (pb & Hpb & Hdb).
  apply bind_Ok in Hdb as (p1 & Hp1 & Hdb).
  apply bind_Ok in Hdb as (p2 & Hp2 & Hdb).
  apply bind_Ok in Hdb as (p3 & Hp3 & Hdb).
  apply bind_Ok in Hdb as (p5 & Hp5 & Hdb).
  apply bind_Ok in Hdb as (p6 & Hp6 & Hdb).
  injection Hdb as <-. cbn [_dbphotos] in Hd.
  assert (is_Some (pb.1 !! u)) as [d0 Hd0].
  { apply elem_of_dom.
    rewrite <- (join_pass_dom _ _ _ _ _ Hp1), <- (join_pass_dom _ _ _ _ _ Hp2),
            <- (join_pass_dom _ _ _ _ _ Hp3), <- (dom_fmap_L backfill4 p3),
            <- (join_pass_dom _ _ _ _ _ Hp5), <- (for_each_photo_dom _ _ _ Hp6).
    apply elem_of_dom. eauto. }
  assert (∃ row, last_row4 s u = Some row ∧ photo4_info C row = Ok d0)
    as (row & Hlast & Hrow).
  { pose proof (photo_loop_last _ _ _ _ (add_photo4_spec C) _ _ _ u Hpb) as Hlast.
    fold (last_row4 s u) in Hlast.
    destruct (last_row4 s u) as [row|].
    - destruct Hlast as (d0' & Hinfo & Hu). exists row. split; [done | congruence].
    - cbn [fst] in Hlast. rewrite lookup_empty in Hlast. congruence. }
  exists row. split; [done|].
  destruct (photo4_info_late row d0 Hrow)
    as (Iadj & I1 & I2 & I3 & I4 & I5 & I6 & I7 & I8).
  pose proof (join_pass_entry e4_uuid edit4 _ _ _ u Hp1) as H1. rewrite Hd0 in H1.
  destruct H1 as (d1 & Hfold & Hd1).
  destruct (edit4_fold row _ d0 d1 Iadj Hfold) as [E1 F1].
  destruct (join_pass_setitems x4_uuid
              (λ r, [("adjustmentFormatID", of_text (x4_format r))])
              ["adjustmentFormatID"] extedit4 _ _ _ u d1
              ltac:(done) ltac:(done) Hp2 Hd1) as (d2 & Hd2 & L2).
  destruct (join_pass_setitems l4_uuid
              (λ r, [("live_model_id", of_int (l4_modelId r));
                     ("modeResourceIsOnDisk", PBool (int_is (l4_isOnDisk r) 1))])
              ["live_model_id"; "modeResourceIsOnDisk"] live4 _ _ _ u d2
              ltac:(done) ltac:(done) Hp3 Hd2) as (d3 & Hd3 & L3).
  assert ((backfill4 <$> p3) !! u = Some (backfill4 d3)) as Hd4
    by (by rewrite lookup_fmap, Hd3).
  destruct (backfill4_lookup d3) as (B1 & B2 & B3).
  pose proof (backfill4_writes d3) as WB.
  destruct (join_pass_setitems c4_uuid
              (λ r, [("cloudLibraryState", of_int (c4_cloudLibraryState r));
                     ("cloudAvailable", of_int (c4_available r));
                     ("cloudStatus", of_int (c4_status r));
                     ("incloud", PBool (int_is (c4_available r) 1))])
              ["cloudLibraryState"; "cloudAvailable"; "cloudStatus"; "incloud"]
              cloud4 _ _ _ u (backfill4 d3)
              ltac:(done) ltac:(done) Hp5 Hd4) as (d5 & Hd5 & L5).
  pose proof (for_each_photo_lookup _ _ _ Hp6 u) as H6. rewrite Hd5 in H6.
  destruct H6 as (d6 & Hat & Hd6). rewrite Hd in Hd6. injection Hd6 as <-.
  pose proof (attach4_writes _ _ _ _ _ _ _ Hat) as W.
  rewrite !(writes_frame _ _ _ _ W) by decided.
  rewrite !L5.
  assert (d3 !! "edit_resource_id" = d1 !! "edit_resource_id") as X1.
  { rewrite L3, L2. by destruct (last_for _ _ _), (last_for _ _ _). }
  assert (d1 !! "live_model_id" = None ∧ d1 !! "modeResourceIsOnDisk" = None)
    as [X2 X3] by (by rewrite !F1).
  assert (d2 !! "live_model_id" = None ∧ d2 !! "modeResourceIsOnDisk" = None)
    as [Y2 Y3].
  { rewrite !L2, X2, X3. by destruct (last_for _ _ _). }
  assert (d3 !! "adjustmentFormatID"
          = Some (from_option (λ r, of_text (x4_format r)) PNone
                    (last_for x4_uuid u (s4_extedits s)))) as X4.
  { rewrite L3, L2, F1, I1 by done.
    by destruct (last_for l4_uuid _ _), (last_for x4_uuid _ _). }
  assert (backfill4 d3 !! "cloudLibraryState" = Some PNone
          ∧ backfill4 d3 !! "cloudAvailable" = Some PNone
          ∧ backfill4 d3 !! "cloudStatus" = Some PNone
          ∧ backfill4 d3 !! "incloud" = Some PNone) as (K1 & K2 & K3 & K4).
  { rewrite !(writes_frame _ _ _ _ WB) by decided.
    rewrite !L3, !L2, !F1, I2, I3, I4, I5 by done.
    by destruct (last_for l4_uuid _ _), (last_for x4_uuid _ _). }
  rewrite B1, B2, B3, K1, K2, K3, K4, X1, E1, I6.
  rewrite (writes_frame _ _ _ "adjustmentFormatID" WB), X4 by decided.
  rewrite !L3, Y2, Y3.
  destruct (last_for c4_uuid u _), (last_for l4_uuid u _), (last (filter _ _));
    done.
Qed.

(** X15.  In a legacy index the adjustment format, the live photo resource
    and the cloud state of an entry come from the last row that the
    matching join yields for its uuid, and are [None] when the join yields
    no row for it; [incloud] tells whether the [available] column of the
    deciding row is 1. *)
Theorem ingest4_joined_fields (version : string) (s : store4) (db : PhotosDB)
    (u : string) (d : dict) :
  ingest4 C version s = Ok db →
  _dbphotos db !! u = Some d →
  d !! "adjustmentFormatID"
    = Some (from_option (λ r, of_text (x4_format r)) PNone
              (last_for x4_uuid u (s4_extedits s)))
  ∧ d !! "live_model_id"
    = Some (from_option (λ r, of_int (l4_modelId r)) PNone
              (last_for l4_uuid u (s4_live s)))
  ∧ d !! "modeResourceIsOnDisk"
    = Some (from_option (λ r, PBool (int_is (l4_isOnDisk r) 1)) PNone
              (last_for l4_uuid u (s4_live s)))
  ∧ d !! "cloudLibraryState"
    = Some (from_option (λ r, of_int (c4_cloudLibraryState r)) PNone
              (last_for c4_uuid u (s4_cloud s)))
  ∧ d !! "cloudAvailable"
    = Some (from_option (λ r, of_int (c4_available r)) PNone
              (last_for c4_uuid u (s4_cloud s)))
  ∧ d !! "cloudStatus"
    = Some (from_option (λ r, of_int (c4_status r)) PNone
              (last_for c4_uuid u (s4_cloud s)))
  ∧ d !! "incloud"
    = Some (from_option (λ r, PBool (int_is (c4_available r) 1)) PNone
              (last_for c4_uuid u (s4_cloud s))).
Proof.
  intros Hdb Hd.
  destruct (ingest4_joined version s db u d Hdb Hd) as (row & _ & _ & H).
  exact H.
Qed.

(** X16.  In a legacy index the edit resource of an entry is the model id
    of the last row of the edits query that has its uuid and passes the
    test of the loop: the resource tag equals the adjustment uuid of the
    photo, the adjustment uuid of the row is neither [UNADJUSTEDNONRAW] nor
    [UNADJUSTED], and the attached model type is 2.  It is [None] when no
    row passes. *)
Theorem ingest4_edit_resource (version : string) (s : store4) (db : PhotosDB)
    (u : string) (d : dict) :
  ingest4 C version s = Ok db →
  _dbphotos db !! u = Some d →
  ∃ row, last_row4 s u = Some row ∧
    d !! "edit_resource_id"
      = Some (from_option (λ e, of_int (e4_modelId e)) PNone
                (last (filter (λ e, edit4_applies row e = true)
                         (filter (λ e, e4_uuid e = u) (s4_edits s))))).
Proof.
  intros Hdb Hd.
  destruct (ingest4_joined version s db u d Hdb Hd) as (row & Hrow & H & _).
  eauto.
Qed.

End Joins4.

Lemma ingest5_joined_fields_witness :
  entry_of (index_of (ingest5 sample_constants "6000" availability_store)) "X"
    !! "isMissing"
  = Some (from_option
            (λ r, PInt (if int_is (v5_localAvailability r) 1 then 0 else 1)) PNone
            (last_for v5_uuid "X"
               (s5_availability_subtype availability_store
                ++ s5_availability_fingerprint availability_store))).
Proof.
  apply (ingest5_joined_fields sample_constants "6000" availability_store
           (index_of (ingest5 sample_constants "6000" availability_store)) "X" _
           ltac:(ingested) ltac:(entry)).
Defined.

Lemma ingest4_joined_fields_witness :
  entry_of (index_of (ingest4 sample_constants "4025" album_store4)) "A"
    !! "adjustmentFormatID"
  = Some (from_option (λ r, of_text (x4_format r)) PNone
            (last_for x4_uuid "A" (s4_extedits album_store4))).
Proof.
  apply (ingest4_joined_fields sample_constants "4025" album_store4
           (index_of (ingest4 sample_constants "4025" album_store4)) "A" _
           ltac:(ingested) ltac:(entry)).
Defined.

Lemma ingest4_edit_resource_witness :
  ∃ row, last_row4 one_photo_store4 "A" = Some row ∧
    entry_of (index_of (ingest4 sample_constants "4025" one_photo_store4)) "A"
      !! "edit_resource_id"
    = Some (from_option (λ e, of_int (e4_modelId e)) PNone
              (last (filter (λ e, edit4_applies row e = true)
                       (filter (λ e, e4_uuid e = "A") (s4_edits one_photo_store4))))).
Proof.
  apply (ingest4_edit_resource sample_constants "4025" one_photo_store4
           (index_of (ingest4 sample_constants "4025" one_photo_store4)) "A" _
           ltac:(ingested) ltac:(entry)).
Defined.

(** ** What the clean-up removes *)

Lemma remove_first_subseteq (f : string) (l : list string) :
  remove_first f l ⊆ l.
Proof.
  induction l as [|y l IH]; simpl; [done|].
  case_bool_decide.
  - intros x Hx. by right.
  - intros x [-> | Hx]%elem_of_cons; [left | right; by apply IH].
Qed.

Lemma remove_first_app (f : string) (l1 l2 : list string) :
  f ∉ l1 → remove_first f (l1 ++ f :: l2) = l1 ++ l2.
Proof.
  induction l1 as [|y l1 IH]; intros Hf; simpl.
  - by rewrite bool_decide_eq_true_2.
  - apply not_elem_of_cons in Hf as [Hne Hf].
    rewrite bool_decide_eq_false_2 by done. by rewrite IH.
Qed.

Lemma touches_refl (w : world) : touches_only_tmp_files w w.
Proof.
  split; [|done]. exists []. split; [by rewrite app_nil_r|]. by intros f ?%elem_of_nil.
Qed.

Lemma touches_trans (w1 w2 w3 : world) :
  touches_only_tmp_files w1 w2 → touches_only_tmp_files w2 w3 →
  touches_only_tmp_files w1 w3.
Proof.
  intros ((l1 & R1 & L1) & E1 & D1 & T1 & U1) ((l2 & R2 & L2) & E2 & D2 & T2 & U2).
  split; [|split; [|split; [|split]]].
  - exists (l1 ++ l2). split; [by rewrite R2, R1, app_assoc|].
    intros f [Hf | Hf]%elem_of_app; [by apply L1|].
    destruct (L2 f Hf) as [Ht He]. split; [by apply T1 | by apply E1].
  - intros f Hf. by apply E1, E2.
  - intros f Hf Hnot. destruct (decide (f ∈ existing w2)) as [H2 | H2].
    + by apply T1, D2.
    + by apply D1.
  - intros f Hf. by apply T1, T2.
  - congruence.
Qed.

Lemma cleanup_loop_touches (debug : bool) (fuel i : nat) (w w' : world)
    (r : result unit) :
  cleanup_loop debug fuel i w = Some (r, w') → touches_only_tmp_files w w'.
Proof.
  revert i w. induction fuel as [|fuel IH]; intros i w H; [discriminate|].
  simpl in H. destruct (tmp_files w !! i) as [f|] eqn:Hf.
  2: { injection H as <- <-. apply touches_refl. }
  apply list_elem_of_lookup_2 in Hf.
  case_bool_decide as Hex.
  - unfold os_remove in H. case_bool_decide as Hun.
    + assert (touches_only_tmp_files w
                {| tmp_files := tmp_files w; existing := existing w;
                   undeletable := undeletable w; removals := removals w ++ [f] |})
        as Hstep.
      { split; [|done]. exists [f]. split; [done|].
        by intros f' ->%list_elem_of_singleton. }
      destruct debug.
      * by injection H as <- <-.
      * eapply touches_trans; [exact Hstep|]. by eapply IH.
    + eapply touches_trans; [|by eapply IH].
      split; [|split; [|split; [|split]]]; simpl.
      * exists [f]. split; [done|]. by intros f' ->%list_elem_of_singleton.
      * apply subseteq_difference_l. done.
      * intros f' Hin Hnot. destruct (decide (f' = f)) as [-> | Hne]; [done|].
        exfalso. apply Hnot. apply elem_of_difference. split; [done|].
        by rewrite not_elem_of_singleton.
      * apply remove_first_subseteq.
      * done.
  - eapply touches_trans; [|by eapply IH].
    split; [|split; [|split; [|split]]]; simpl; try done.
    + exists []. split; [by rewrite app_nil_r|]. by intros f' ?%elem_of_nil.
    + apply remove_first_subseteq.
Qed.

(** X17.  Whatever the record of temporary files and the state of the disk,
    the clean-up ends, and it calls [os.remove] only on recorded temporary
    files that exist; no other file disappears, the record only shrinks,
    and it raises only when debugging is on. *)
Theorem cleanup_touches_only_tmp_files (debug : bool) (w : world) :
  ∃ r w', _cleanup_tmp_files debug w = Some (r, w')
          ∧ touches_only_tmp_files w w'
          ∧ (debug = false → r = Ok ()).
Proof.
  destruct (cleanup_terminates debug w) as (r & w' & H).
  exists r, w'. split; [done|]. split.
  - by eapply cleanup_loop_touches.
  - intros ->. destruct (cleanup_loop_quiet (S (length (tmp_files w))) 0 w)
      as (w'' & H' & _); [lia|].
    unfold _cleanup_tmp_files in H. congruence.
Qed.

Lemma alternate_spec {A} (x y : A) (l : list A) :
  alternate (x :: y :: l) = (x :: (alternate l).1, y :: (alternate l).2).
Proof. simpl. by destruct (alternate l). Qed.

Lemma cleanup_loop_alternate (debug : bool) (fuel : nat) (skipped rest : list string)
    (w : world) :
  (length rest < fuel)%nat →
  tmp_files w = skipped ++ rest →
  NoDup (skipped ++ rest) →
  (∀ f, f ∈ rest → f ∈ existing w ∧ f ∉ undeletable w) →
  ∃ w', cleanup_loop debug fuel (length skipped) w = Some (Ok (), w')
        ∧ tmp_files w' = skipped ++ (alternate rest).2
        ∧ removals w' = removals w ++ (alternate rest).1
        ∧ existing w' = existing w ∖ list_to_set (alternate rest).1
        ∧ undeletable w' = undeletable w.
Proof.
  revert skipped rest w.
  induction fuel as [|fuel IH]; intros skipped rest w Hfuel Hfiles Hnd Hok; [lia|].
  cbn [cleanup_loop]. rewrite Hfiles.
  destruct rest as [|x rest].
  - rewrite app_nil_r, lookup_ge_None_2 by done. exists w. simpl.
    rewrite app_nil_r in Hfiles. rewrite app_nil_r, difference_empty_L.
    rewrite app_nil_r. repeat split; done.
  - rewrite list_lookup_middle by done.
    destruct (Hok x ltac:(left)) as [Hex Hun].
    rewrite bool_decide_eq_true_2 by done. unfold os_remove.
    rewrite bool_decide_eq_false_2 by done.
    apply NoDup_app in Hnd as (Hnd1 & Hdis & Hnd2).
    apply NoDup_cons in Hnd2 as [Hx Hnd2].
    assert (x ∉ skipped) as Hxs by (intros ?; by apply (Hdis x); [|left]).
    set (w1 := forget x _).
    assert (tmp_files w1 = skipped ++ rest) as Hfiles1.
    { unfold w1, forget. simpl. rewrite Hfiles. by apply remove_first_app. }
    destruct rest as [|y rest].
    + destruct fuel as [|fuel]; [simpl in Hfuel; lia|].
      cbn [cleanup_loop]. rewrite Hfiles1, app_nil_r.
      rewrite lookup_ge_None_2 by lia.
      exists w1. split; [done|]. rewrite Hfiles1. simpl.
      rewrite app_nil_r. repeat split; try done.
      by rewrite (right_id_L ∅ (∪)).
    + destruct (IH (skipped ++ [y]) rest w1) as (w' & Hw' & T & R & E & U).
      * simpl in Hfuel. lia.
      * by rewrite Hfiles1, <- app_assoc.
      * rewrite <- app_assoc. simpl. apply NoDup_app. split; [done|]. split; [|done].
        intros f Hf Hin. apply (Hdis f Hf). by right.
      * intros f Hf. destruct (Hok f) as [He Hu]; [by right; right|].
        split; [|done]. simpl. apply elem_of_difference. split; [done|].
        rewrite not_elem_of_singleton. intros ->. apply Hx. by right.
      * rewrite length_app in Hw'. simpl in Hw'.
        replace (length skipped + 1)%nat with (S (length skipped)) in Hw' by lia.
        exists w'. split; [exact Hw'|]. rewrite alternate_spec. cbn [fst snd].
        rewrite T, R, E, U, <- app_assoc. simpl.
        repeat split; try done.
        -- by rewrite <- app_assoc.
        -- apply set_eq. intros f.
           rewrite !elem_of_difference, elem_of_union, !elem_of_singleton.
           tauto.
Qed.

(** X18.  When the recorded temporary files are distinct, exist and can be
    deleted, the clean-up removes the files at the even positions of the
    record and leaves those at the odd positions, on disk and in the
    record: the loop walks the list from which its body removes. *)
Theorem cleanup_removes_alternate_files (debug : bool) (w : world) :
  NoDup (tmp_files w) →
  (∀ f, f ∈ tmp_files w → f ∈ existing w ∧ f ∉ undeletable w) →
  ∃ w', _cleanup_tmp_files debug w = Some (Ok (), w')
        ∧ removals w' = removals w ++ (alternate (tmp_files w)).1
        ∧ tmp_files w' = (alternate (tmp_files w)).2
        ∧ existing w' = existing w ∖ list_to_set (alternate (tmp_files w)).1.
Proof.
  intros Hnd Hok.
  destruct (cleanup_loop_alternate debug (S (length (tmp_files w))) []
              (tmp_files w) w) as (w' & Hw' & T & R & E & _); try done; [lia|].
  exists w'. done.
Qed.

Lemma cleanup_removes_alternate_files_witness :
  ∃ w', _cleanup_tmp_files false three_tmp_files = Some (Ok (), w')
        ∧ tmp_files w' = (alternate (tmp_files three_tmp_files)).2.
Proof.
  destruct (cleanup_removes_alternate_files false three_tmp_files)
    as (w' & Hw' & _ & T & _).
  - decided.
  - apply Forall_forall. decided.
  - exists w'. split; assumption.
Defined.

(** ** Further facts on [photos()] *)

Lemma foldM_select_sublist {A} (f : A → result bool) (ps acc l : list A) :
  foldM (λ acc p, k ← f p; Ok (if (k : bool) then acc ++ [p] else acc)) acc ps = Ok l →
  ∃ l', l = acc ++ l' ∧ sublist l' ps.
Proof.
  revert acc. induction ps as [|a ps IH]; intros acc Hl; simpl in Hl.
  - injection Hl as <-. exists []. by rewrite app_nil_r.
  - apply bind_Ok in Hl as (acc' & Ha & Hl).
    apply bind_Ok in Ha as (k & Hk & [= <-]).
    destruct (IH _ Hl) as (l' & -> & Hsub). destruct k.
    + exists (a :: l'). rewrite <- app_assoc. split; [done|]. by constructor.
    + exists l'. split; [done|]. by constructor.
Qed.

Lemma date_select_spec (test : Q → bool) (m m' : gmap string dict) :
  date_select test m = Ok m' →
  ∀ k v, m' !! k = Some v ↔
         m !! k = Some v ∧ ∃ t, v !! "imageDate" = Some (PDate t) ∧ test t = true.
Proof.
  unfold date_select. revert m'.
  apply (map_fold_weak_ind
    (λ r m, ∀ m', r = Ok m' →
       ∀ k v, m' !! k = Some v ↔
              m !! k = Some v ∧
              ∃ t, v !! "imageDate" = Some (PDate t) ∧ test t = true)).
  - intros m' [= <-] k v. rewrite lookup_empty. split; [done | by intros [? _]].
  - intros i x m0 r Hi IH m' Hm' k v.
    apply bind_Ok in Hm' as (m1 & -> & Hm').
    apply bind_Ok in Hm' as (d & Hd%getitem_Ok & Hm').
    destruct d as [ | ? | ? | ? | ? | t | ? ]; try discriminate. injection Hm' as <-.
    specialize (IH m1 eq_refl k v).
    destruct (decide (i = k)) as [-> | Hne].
    + rewrite lookup_insert_eq. destruct (test t) eqn:Ht.
      * rewrite lookup_insert_eq. split.
        -- intros [= <-]. eauto.
        -- by intros [? _].
      * rewrite IH, Hi. split; [by intros [? _]|].
        intros [[= <-] (t' & Ht' & Htest)]. congruence.
    + rewrite lookup_insert_ne by done.
      destruct (test t); [rewrite lookup_insert_ne by done|]; exact IH.
Qed.

Lemma album_titles_nonempty (details : gmap string album_details)
    (t : option string) (ids : list string) :
  album_titles details !! t = Some ids → ids ≠ [].
Proof.
  unfold album_titles. revert t ids.
  apply (map_fold_weak_ind
    (λ (r : gmap (option string) (list string)) (m : gmap string album_details),
       ∀ t ids, r !! t = Some ids → ids ≠ [])).
  - intros t ids. by rewrite lookup_empty.
  - intros i x m r Hi IH t ids.
    destruct (decide (title x = t)) as [<- | Hne].
    + rewrite lookup_insert_eq. intros [= <-]. by destruct (default [] _).
    + rewrite lookup_insert_ne by done. apply IH.
Qed.

Section MoreQueries.
Variable C : Constants.

(** X19.  [photos()] returns no photo twice, and every photo it returns has
    an entry in the index. *)
Theorem photos_distinct_and_known (db : PhotosDB) (q : query) (l : list string) :
  photos C db q = Ok l →
  NoDup l ∧ ∀ p, p ∈ l → is_Some (_dbphotos db !! p).
Proof.
  intros Hl. split.
  - unfold photos in Hl. apply bind_Ok in Hl as (sets & _ & Hl).
    destruct sets as [|s rest]; [injection Hl as <-; constructor|].
    apply foldM_select_sublist in Hl as (l' & -> & Hsub).
    simpl. apply (sublist_NoDup _ _ (NoDup_elements _) Hsub).
  - intros p Hp.
    destruct (keep_true C db q p (photos_keep C db q l p Hl Hp))
      as (info & _ & _ & Hinfo & _). eauto.
Qed.


Lemma xref_sets_unknown (m : xref) (names : list string) :
  (∀ n, n ∈ names → m !! n = None) → xref_sets m names = [].
Proof.
  unfold xref_sets. induction names as [|n names IH]; intros H; [done|].
  simpl. rewrite (H n) by left. simpl. apply IH. intros n' Hn'. apply H. by right.
Qed.

Lemma uuid_sets_unknown (db : PhotosDB) (uuids : list string) :
  (∀ u, u ∈ uuids → _dbphotos db !! u = None) → uuid_sets db uuids = [].
Proof.
  unfold uuid_sets. induction uuids as [|u uuids IH]; intros H; [done|].
  cbn [flat_map]. rewrite has_key_lookup, (H u) by left. cbn [app].
  apply IH. intros u' Hu'. apply H. by right.
Qed.

Lemma albums_sets_unknown (db : PhotosDB) (albums : list string) :
  (∀ a, a ∈ albums → album_titles (_dbalbum_details db) !! Some a = None) →
  albums_sets db albums = Ok [].
Proof.
  unfold albums_sets. generalize (@nil (gset string)).
  induction albums as [|a albums IH]; intros acc H; [done|].
  simpl. rewrite (H a) by left. apply IH. intros a' Ha'. apply H. by right.
Qed.

(** X21.  A query that names only values the index does not know (no album
    record with a requested title, no entry for a requested uuid, no photo
    with a requested keyword or person) and gives no date returns the empty
    list: unknown values are passed over without an exception, and the
    query does not fall back to the whole index. *)
Theorem photos_unknown_values (db : PhotosDB) (q : query) :
  no_criteria q = false →
  q_from_date q = None → q_to_date q = None →
  (∀ a id det, a ∈ values (q_albums q) →
     _dbalbum_details db !! id = Some det → title det ≠ Some a) →
  (∀ u, u ∈ values (q_uuid q) → _dbphotos db !! u = None) →
  (∀ k, k ∈ values (q_keywords q) → _dbkeywords_keyword db !! k = None) →
  (∀ n, n ∈ values (q_persons q) → _dbfaces_person db !! n = None) →
  photos C db q = Ok [].
Proof.
  intros Hcrit Hfrom Hto Ha Hu Hk Hn.
  assert (photos_sets db q = Ok []) as Hsets.
  { unfold photos_sets. rewrite Hcrit.
    rewrite albums_sets_unknown, uuid_sets_unknown, !xref_sets_unknown; try done.
    - unfold date_sets. rewrite Hfrom, Hto. simpl.
      by destruct (given (q_albums q)), (given (q_uuid q)),
                  (given (q_keywords q)), (given (q_persons q)).
    - intros a Ha'.
      pose proof (album_titles_spec (_dbalbum_details db) (Some a)) as Hspec.
      destruct (album_titles _ !! Some a) as [ids|] eqn:Hids; [|done].
      exfalso.
      destruct ids as [|id ids]; [by apply album_titles_nonempty in Hids|].
      destruct (proj1 (Hspec id) ltac:(left)) as (det & Hdet & Ht).
      by apply (Ha a id det). }
  unfold photos. by rewrite Hsets.
Qed.

Lemma photos_sets_dates (db : PhotosDB) (q : query) (sets : list (gset string)) :
  is_Some (q_from_date q) ∨ is_Some (q_to_date q) →
  photos_sets db q = Ok sets →
  ∃ d1 d2,
    match q_from_date q with
    | Some f => date_select (λ t, Qle_bool f t) (_dbphotos db)
    | None => Ok (_dbphotos db)
    end = Ok d1
    ∧ match q_to_date q with
      | Some t' => date_select (λ t, Qle_bool t t') d1
      | None => Ok d1
      end = Ok d2
    ∧ dom d2 ∈ sets
    ∧ (given (q_albums q) = false → given (q_uuid q) = false →
       given (q_keywords q) = false → given (q_persons q) = false →
       sets = [dom d2]).
Proof.
  intros Hdate H. unfold photos_sets in H.
  assert (bool_decide (is_Some (q_from_date q))
          || bool_decide (is_Some (q_to_date q)) = true) as Hb.
  { apply orb_true_iff.
    destruct Hdate; [left | right]; by apply bool_decide_eq_true. }
  assert (no_criteria q = false) as Hcrit.
  { unfold no_criteria. apply negb_false_iff.
    apply orb_true_iff in Hb as [Hb | Hb]; rewrite Hb, ?orb_true_r; done. }
  rewrite Hcrit in H.
  apply bind_Ok in H as (a & Ha & H).
  apply bind_Ok in H as (d & Hd & [= <-]).
  unfold date_sets in Hd. rewrite Hb in Hd.
  apply bind_Ok in Hd as (d1 & Hd1 & Hd).
  apply bind_Ok in Hd as (d2 & Hd2 & [= <-]).
  exists d1, d2. split; [done|]. split; [done|]. split.
  - rewrite !elem_of_app. do 4 right. by left.
  - intros Ga Gu Gk Gp. rewrite Ga in Ha. injection Ha as <-.
    by rewrite Gu, Gk, Gp.
Qed.

(** X22.  When a date is given, every photo that [photos()] returns has an
    image date within the bounds, both of which are inclusive; and when
    nothing but dates is given, every photo of the index within the bounds
    that passes the final loop is returned. *)
Theorem photos_within_dates (db : PhotosDB) (q : query) (l : list string) :
  is_Some (q_from_date q) ∨ is_Some (q_to_date q) →
  photos C db q = Ok l →
  (∀ p, p ∈ l →
     ∃ info t, _dbphotos db !! p = Some info
               ∧ info !! "imageDate" = Some (PDate t)
               ∧ (∀ f, q_from_date q = Some f → (f <= t)%Q)
               ∧ (∀ t', q_to_date q = Some t' → (t <= t')%Q))
  ∧ (given (q_albums q) = false → given (q_uuid q) = false →
     given (q_keywords q) = false → given (q_persons q) = false →
     ∀ p info t, _dbphotos db !! p = Some info →
       info !! "imageDate" = Some (PDate t) →
       (∀ f, q_from_date q = Some f → (f <= t)%Q) →
       (∀ t', q_to_date q = Some t' → (t <= t')%Q) →
       keep C db q p = Ok true → p ∈ l).
Proof.
  intros Hdate Hl.
  destruct (photos_sets db q) as [sets|e] eqn:Hsets;
    [|unfold photos in Hl; rewrite Hsets in Hl; discriminate].
  destruct (photos_sets_dates db q sets Hdate Hsets)
    as (d1 & d2 & Hd1 & Hd2 & Hin & Honly).
  assert (∀ p info, d2 !! p = Some info ↔
            _dbphotos db !! p = Some info ∧
            ∃ t, info !! "imageDate" = Some (PDate t)
                 ∧ (∀ f, q_from_date q = Some f → (f <= t)%Q)
                 ∧ (∀ t', q_to_date q = Some t' → (t <= t')%Q)) as Hspec.
  { intros p info.
    destruct (q_from_date q) as [f|], (q_to_date q) as [t'|].
    - rewrite (date_select_spec _ _ _ Hd2), (date_select_spec _ _ _ Hd1). split.
      + intros [[Hp (t1 & Ht1 & Hf%Qle_bool_iff)] (t2 & Ht2 & Ht%Qle_bool_iff)].
        split; [done|]. exists t2. split; [done|].
        assert (t1 = t2) as -> by congruence.
        split; [by intros ? [= <-] | by intros ? [= <-]].
      + intros [Hp (t & Ht & Hf & Hto)].
        split; [split; [done|]|]; exists t; split; try done;
          apply Qle_bool_iff; auto.
    - injection Hd2 as <-. rewrite (date_select_spec _ _ _ Hd1). split.
      + intros [Hp (t & Ht & Hf%Qle_bool_iff)]. split; [done|].
        exists t. split; [done|]. split; [by intros ? [= <-] | done].
      + intros [Hp (t & Ht & Hf & _)]. split; [done|].
        exists t. split; [done|]. apply Qle_bool_iff. auto.
    - injection Hd1 as <-. rewrite (date_select_spec _ _ _ Hd2). split.
      + intros [Hp (t & Ht & Hto%Qle_bool_iff)]. split; [done|].
        exists t. split; [done|]. split; [done | by intros ? [= <-]].
      + intros [Hp (t & Ht & _ & Hto)]. split; [done|].
        exists t. split; [done|]. apply Qle_bool_iff. auto.
    - destruct Hdate as [[? ?] | [? ?]]; discriminate. }
  split.
  - intros p Hp.
    destruct (proj1 (photos_elem C db q sets l p Hsets Hl) Hp) as (_ & Hall & _).
    specialize (Hall _ Hin). apply elem_of_dom in Hall as [info Hinfo].
    apply Hspec in Hinfo as [Hp' (t & Ht & Hf & Hto)]. eauto 10.
  - intros Ga Gu Gk Gp p info t Hp Ht Hf Hto Hkeep.
    apply (photos_elem C db q sets l p Hsets Hl).
    rewrite (Honly Ga Gu Gk Gp). split; [done|]. split; [|done].
    intros s ->%list_elem_of_singleton. apply elem_of_dom. exists info.
    apply Hspec. eauto 10.
Qed.

Lemma album_set_members (db : PhotosDB) (ids : list string) (acc s : gset string) :
  foldM (λ acc album_id,
           members ← getitem (_dbalbums_album db) album_id;
           Ok (acc ∪ list_to_set members)) acc ids = Ok s →
  ∀ id, id ∈ ids → is_Some (_dbalbums_album db !! id).
Proof.
  revert acc. induction ids as [|i ids IH]; intros acc H id Hid.
  - by apply elem_of_nil in Hid.
  - simpl in H. apply bind_Ok in H as (acc' & Hstep & H).
    apply bind_Ok in Hstep as (members & Hm%getitem_Ok & _).
    apply elem_of_cons in Hid as [-> | Hid]; [eauto | by eapply IH].
Qed.

Lemma getitem_Err `{Countable K} {V} (d : gmap K V) (k : K) (e : exn) :
  getitem d k = Err e → e = KeyError ∧ d !! k = None.
Proof. unfold getitem. destruct (d !! k); [discriminate|]. by intros [= <-]. Qed.

Lemma albums_sets_Err (db : PhotosDB) (albums : list string) (e : exn) :
  albums_sets db albums = Err e → e = KeyError.
Proof.
  unfold albums_sets. intros H.
  apply foldM_Err in H as (sets & a & _ & H).
  destruct (album_titles _ !! Some a) as [ids|]; [|discriminate].
  destruct (album_set db ids) as [s|e'] eqn:Hs; [discriminate|].
  injection H as <-. unfold album_set in Hs.
  apply foldM_Err in Hs as (acc & id & _ & Hs).
  destruct (getitem (_dbalbums_album db) id) as [m|e''] eqn:Hg; [discriminate|].
  injection Hs as <-. by apply getitem_Err in Hg as [-> _].
Qed.

(** X23.  Asking [photos()] for an album title raises [KeyError] when an
    album with that title has a record in [_dbalbum_details] but no entry
    in [_dbalbums_album], which is the case of an album without photos: the
    members are fetched with [self._dbalbums_album[album_id]]. *)
Theorem photos_album_without_members (db : PhotosDB) (q : query)
    (a id : string) (det : album_details) :
  a ∈ values (q_albums q) →
  _dbalbum_details db !! id = Some det →
  title det = Some a →
  _dbalbums_album db !! id = None →
  photos C db q = Err KeyError.
Proof.
  intros Ha Hdet Ht Hnone.
  pose proof (values_given _ _ Ha) as Hgiven.
  assert (no_criteria q = false) as Hcrit.
  { unfold no_criteria. rewrite Hgiven. apply negb_false_iff.
    rewrite !orb_true_r. done. }
  assert (albums_sets db (values (q_albums q)) = Err KeyError) as Herr.
  { destruct (albums_sets db (values (q_albums q))) as [sets|e] eqn:Hsets.
    - exfalso.
      pose proof (album_titles_spec (_dbalbum_details db) (Some a)) as Hspec.
      destruct (album_titles _ !! Some a) as [ids|] eqn:Hids.
      + destruct (albums_sets_spec db _ [] sets Hsets a ids Ha Hids) as (s & _ & Hs).
        assert (id ∈ ids) as Hid by (apply Hspec; eauto).
        destruct (album_set_members db ids ∅ s Hs id Hid) as [m Hm]. congruence.
      + by apply (Hspec id det).
    - by apply albums_sets_Err in Hsets as ->. }
  unfold photos, photos_sets. rewrite Hcrit, Hgiven, Herr. done.
Qed.

End MoreQueries.

Lemma photos_distinct_and_known_witness :
  NoDup ["B"]
  ∧ ∀ p, p ∈ ["B"] →
         is_Some (_dbphotos (index_of (ingest5 sample_constants "6000" trip_store))
                    !! p).
Proof.
  apply (photos_distinct_and_known sample_constants
           (index_of (ingest5 sample_constants "6000" trip_store))
           (by_keywords ["cat"; "dog"]) ["B"]).
  run.
Defined.


Lemma photos_unknown_values_witness :
  photos sample_constants (index_of (ingest5 sample_constants "6000" trip_store))
    (by_keywords ["zebra"]) = Ok [].
Proof.
  apply (photos_unknown_values sample_constants
           (index_of (ingest5 sample_constants "6000" trip_store))
           (by_keywords ["zebra"])).
  - reflexivity.
  - reflexivity.
  - reflexivity.
  - intros a id det Ha. by apply elem_of_nil in Ha.
  - intros u Hu. by apply elem_of_nil in Hu.
  - intros k ->%list_elem_of_singleton. run.
  - intros n Hn. by apply elem_of_nil in Hn.
Defined.

Lemma photos_within_dates_witness :
  ∃ info t,
    _dbphotos (index_of (ingest5 sample_constants "6000" kinds_store)) !! "P"
    = Some info
    ∧ info !! "imageDate" = Some (PDate t)
    ∧ (∀ f, Some td = Some f → (f <= t)%Q)
    ∧ (∀ t', Some td = Some t' → (t <= t')%Q).
Proof.
  apply (proj1 (photos_within_dates sample_constants
                  (index_of (ingest5 sample_constants "6000" kinds_store))
                  (by_dates (Some td) (Some td)) ["P"]
                  ltac:(left; by eexists) ltac:(run)) "P").
  decided.
Defined.

Lemma photos_album_without_members_witness :
  photos sample_constants
    (index_of (ingest5 sample_constants "6000" empty_album_store))
    (by_albums ["Empty"]) = Err KeyError.
Proof.
  apply (photos_album_without_members sample_constants
           (index_of (ingest5 sample_constants "6000" empty_album_store))
           (by_albums ["Empty"]) "Empty" "album-2"
           {| title := Some "Empty"; cloudlibrarystate := PNone;
              cloudidentifier := PNone; cloudlocalstate := PNone;
              cloudownerfirstname := PNone; cloudownderlastname := PNone;
              cloudownerhashedpersonid := PNone |}).
  - decided.
  - run.
  - reflexivity.
  - run.
Defined.

(** ** The keyword, person and album views *)

Lemma count_view_fold (m : xref) (keys : list string) (acc : gmap string nat) :
  (∀ k, k ∈ keys → is_Some (m !! k)) →
  ∃ counts,
    foldM (λ counts k, l ← getitem m k; Ok (<[k := length l]> counts)) acc keys
    = Ok counts
    ∧ ∀ k, counts !! k = if bool_decide (k ∈ keys) then length <$> m !! k
                         else acc !! k.
Proof.
  revert acc. induction keys as [|k keys IH]; intros acc Hkeys.
  - exists acc. split; [done|]. intros k. by rewrite bool_decide_eq_false_2
      by apply not_elem_of_nil.
  - destruct (Hkeys k ltac:(left)) as [l Hl]. simpl.
    rewrite (proj2 (getitem_Ok m k l) Hl). simpl.
    destruct (IH (<[k := length l]> acc)) as (counts & -> & Hc).
    { intros k' Hk'. apply Hkeys. by right. }
    exists counts. split; [done|]. intros k'. rewrite Hc.
    destruct (decide (k' ∈ keys)) as [Hin | Hnin].
    + rewrite !bool_decide_eq_true_2; [done | by right | done].
    + rewrite (bool_decide_eq_false_2 (k' ∈ keys)) by done.
      destruct (decide (k = k')) as [<- | Hne].
      * rewrite lookup_insert_eq, bool_decide_eq_true_2 by left. by rewrite Hl.
      * rewrite lookup_insert_ne by done.
        rewrite bool_decide_eq_false_2; [done|].
        rewrite not_elem_of_cons. split; [congruence | done].
Qed.

(** The count views never raise: they walk the keys of the map they read. *)
Lemma count_view_spec (m : xref) : count_view m = Ok (length <$> m).
Proof.
  unfold count_view.
  destruct (count_view_fold m (map_to_list m).*1 ∅) as (counts & -> & Hc).
  { intros k Hk. by apply elem_of_map_keys. }
  f_equal. apply map_eq. intros k. rewrite Hc, lookup_fmap, lookup_empty.
  case_bool_decide as Hk; [done|].
  rewrite elem_of_map_keys in Hk.
  destruct (m !! k); [by destruct Hk | done].
Qed.

Lemma map_keys_NoDup {V} (m : gmap string V) : NoDup (map_to_list m).*1.
Proof. apply NoDup_fst_map_to_list. Qed.

Section Views.
Variable C : Constants.

(** X24.  For a modern index [keywords_as_dict] and [persons_as_dict] never
    raise, and they map every keyword (person) to the number of rows of the
    keyword (face) join that carry it, a photo joined twice counting twice;
    a keyword (person) without rows has no entry.  Face rows are counted
    under the unknown person when their name is empty and not at all when
    it is NULL.  [keywords] and [persons] list the same keys, each once. *)
Theorem ingest5_count_views (version : string) (s : store5) (db : PhotosDB) :
  ingest5 C version s = Ok db →
  (∃ counts, keywords_as_dict db = Ok counts ∧
     ∀ k, counts !! k
          = length <$> entry_list (uuids_of (omap keyword_pair (s5_keywords s)) k))
  ∧ (∃ counts, persons_as_dict db = Ok counts ∧
       ∀ n, counts !! n
            = length <$> entry_list (uuids_of (omap (face5_pair C) (s5_faces s)) n))
  ∧ NoDup (keywords db) ∧ NoDup (persons db)
  ∧ (∀ k, k ∈ keywords db ↔ ∃ row, row ∈ s5_keywords s ∧ k_name row = k)
  ∧ (∀ n, n ∈ persons db ↔ ∃ u, (n, u) ∈ omap (face5_pair C) (s5_faces s)).
Proof.
  intros Hdb.
  destruct (ingest5_tables C version s db Hdb) as (_ & _ & Hf & _ & Hk & _).
  pose proof (proj2 (foldl_xref keyword_pair add_keyword add_keyword_pair
                       (s5_keywords s))) as Tk.
  pose proof (proj2 (foldl_xref (face5_pair C) (add_face5 C) (add_face5_pair C)
                       (s5_faces s))) as Tf.
  rewrite <- Hk in Tk. rewrite <- Hf in Tf.
  unfold keywords_as_dict, persons_as_dict, keywords, persons.
  rewrite !count_view_spec.
  split; [|split; [|split; [|split; [|split]]]].
  - eexists. split; [done|]. intros k. by rewrite lookup_fmap, Tk.
  - eexists. split; [done|]. intros n. by rewrite lookup_fmap, Tf.
  - apply map_keys_NoDup.
  - apply map_keys_NoDup.
  - intros k. rewrite elem_of_map_keys, Tk. split.
    + intros [l Hl]. destruct (uuids_of _ k) as [|u l'] eqn:E; [discriminate|].
      assert (u ∈ uuids_of (omap keyword_pair (s5_keywords s)) k) as Hu
        by (rewrite E; left).
      apply elem_of_uuids_of, list_elem_of_omap in Hu as (row & Hrow & Hp).
      exists row. split; [done|]. unfold keyword_pair in Hp. congruence.
    + intros (row & Hrow & <-).
      assert (k_uuid row ∈ uuids_of (omap keyword_pair (s5_keywords s)) (k_name row))
        as Hu.
      { apply elem_of_uuids_of, list_elem_of_omap. by exists row. }
      destruct (uuids_of _ _); [by apply elem_of_nil in Hu | by eexists].
  - intros n. rewrite elem_of_map_keys, Tf. split.
    + intros [l Hl]. destruct (uuids_of _ n) as [|u l'] eqn:E; [discriminate|].
      exists u. apply elem_of_uuids_of. rewrite E. left.
    + intros (u & Hu%elem_of_uuids_of).
      destruct (uuids_of _ _); [by apply elem_of_nil in Hu | by eexists].
Qed.

(** X25.  For a legacy index [keywords_as_dict] and [persons_as_dict] never
    raise, and they map every keyword (person) to the number of rows of the
    keyword (face) join that carry it, a photo joined twice counting twice;
    a keyword (person) without rows has no entry.  Face rows with a NULL
    name are not counted, and those with an empty name are counted under
    the empty name.  [keywords] and [persons] list the same keys, each
    once. *)
Theorem ingest4_count_views (version : string) (s : store4) (db : PhotosDB) :
  ingest4 C version s = Ok db →
  (∃ counts, keywords_as_dict db = Ok counts ∧
     ∀ k, counts !! k
          = length <$> entry_list (uuids_of (omap keyword_pair (s4_keywords s)) k))
  ∧ (∃ counts, persons_as_dict db = Ok counts ∧
       ∀ n, counts !! n
            = length <$> entry_list (uuids_of (omap face4_pair (s4_faces s)) n))
  ∧ NoDup (keywords db) ∧ NoDup (persons db)
  ∧ (∀ k, k ∈ keywords db ↔ ∃ row, row ∈ s4_keywords s ∧ k_name row = k)
  ∧ (∀ n, n ∈ persons db ↔ ∃ u, (n, u) ∈ omap face4_pair (s4_faces s)).
Proof.
  intros Hdb.
  destruct (ingest4_tables C version s db Hdb) as (_ & _ & Hf & _ & Hk & _).
  pose proof (proj2 (foldl_xref keyword_pair add_keyword add_keyword_pair
                       (s4_keywords s))) as Tk.
  pose proof (proj2 (foldl_xref face4_pair add_face4 add_face4_pair
                       (s4_faces s))) as Tf.
  rewrite <- Hk in Tk. rewrite <- Hf in Tf.
  unfold keywords_as_dict, persons_as_dict, keywords, persons.
  rewrite !count_view_spec.
  split; [|split; [|split; [|split; [|split]]]].
  - eexists. split; [done|]. intros k. by rewrite lookup_fmap, Tk.
  - eexists. split; [done|]. intros n. by rewrite lookup_fmap, Tf.
  - apply map_keys_NoDup.
  - apply map_keys_NoDup.
  - intros k. rewrite elem_of_map_keys, Tk. split.
    + intros [l Hl]. destruct (uuids_of _ k) as [|u l'] eqn:E; [discriminate|].
      assert (u ∈ uuids_of (omap keyword_pair (s4_keywords s)) k) as Hu
        by (rewrite E; left).
      apply elem_of_uuids_of, list_elem_of_omap in Hu as (row & Hrow & Hp).
      exists row. split; [done|]. unfold keyword_pair in Hp. congruence.
    + intros (row & Hrow & <-).
      assert (k_uuid row ∈ uuids_of (omap keyword_pair (s4_keywords s)) (k_name row))
        as Hu.
      { apply elem_of_uuids_of, list_elem_of_omap. by exists row. }
      destruct (uuids_of _ _); [by apply elem_of_nil in Hu | by eexists].
  - intros n. rewrite elem_of_map_keys, Tf. split.
    + intros [l Hl]. destruct (uuids_of _ n) as [|u l'] eqn:E; [discriminate|].
      exists u. apply elem_of_uuids_of. rewrite E. left.
    + intros (u & Hu%elem_of_uuids_of).
      destruct (uuids_of _ _); [by apply elem_of_nil in Hu | by eexists].
Qed.

End Views.

Lemma ingest5_count_views_witness :
  ∃ counts,
    keywords_as_dict (index_of (ingest5 sample_constants "6000" trip_store))
    = Ok counts
    ∧ ∀ k, counts !! k
           = length <$> entry_list
                          (uuids_of (omap keyword_pair (s5_keywords trip_store)) k).
Proof.
  apply (ingest5_count_views sample_constants "6000" trip_store
           (index_of (ingest5 sample_constants "6000" trip_store))
           ltac:(ingested)).
Defined.

Lemma ingest4_count_views_witness :
  ∃ counts,
    keywords_as_dict (index_of (ingest4 sample_constants "4025" album_store4))
    = Ok counts
    ∧ ∀ k, counts !! k
           = length <$> entry_list
                          (uuids_of (omap keyword_pair (s4_keywords album_store4)) k).
Proof.
  apply (ingest4_count_views sample_constants "4025" album_store4
           (index_of (ingest4 sample_constants "4025" album_store4))
           ltac:(ingested)).
Defined.

(** ** The album views *)

Lemma is_own_true (db : PhotosDB) (k : string) :
  is_own db k = Ok true ↔
  ∃ det, _dbalbum_details db !! k = Some det ∧ cloudownerhashedpersonid det = PNone.
Proof.
  unfold is_own. rewrite bind_Ok. setoid_rewrite getitem_Ok. split.
  - intros (det & Hdet & Heq). exists det. split; [done|].
    destruct (cloudownerhashedpersonid det); congruence.
  - intros (det & Hdet & Hown). exists det. split; [done|]. by rewrite Hown.
Qed.

Lemma own_album_keys_spec (db : PhotosDB) (keys : list string) :
  own_album_keys db = Ok keys →
  ∀ k, k ∈ keys ↔
       is_Some (_dbalbums_album db !! k) ∧
       ∃ det, _dbalbum_details db !! k = Some det ∧
              cloudownerhashedpersonid det = PNone.
Proof.
  intros H k. unfold own_album_keys in H.
  rewrite (foldM_select _ _ _ _ H k), elem_of_nil, elem_of_map_keys, is_own_true.
  tauto.
Qed.

Lemma own_title_of_keys (db : PhotosDB) (keys : list string) (t : option string) :
  own_album_keys db = Ok keys →
  (∃ k det, k ∈ keys ∧ _dbalbum_details db !! k = Some det ∧ title det = t)
  ↔ own_title db t.
Proof.
  intros Hkeys. unfold own_title. split.
  - intros (k & det & Hk & Hdet & Ht).
    apply (own_album_keys_spec db keys Hkeys) in Hk
      as [[members Hm] (det' & Hdet' & Hne)].
    exists k, members, det. repeat split; try done. congruence.
  - intros (k & members & det & Hm & Hdet & Hne & Ht).
    exists k, det. repeat split; try done.
    apply (own_album_keys_spec db keys Hkeys). eauto.
Qed.

(** The album views raise exactly when an album with members has no
    record. *)
Lemma own_album_keys_outcome (db : PhotosDB) :
  match own_album_keys db with
  | Ok _ => ∀ k, is_Some (_dbalbums_album db !! k) →
                 is_Some (_dbalbum_details db !! k)
  | Err e => e = KeyError
             ∧ ∃ k, is_Some (_dbalbums_album db !! k)
                    ∧ _dbalbum_details db !! k = None
  end.
Proof.
  unfold own_album_keys.
  destruct (foldM _ _ _) as [keys|e] eqn:H.
  - intros k Hk%elem_of_map_keys.
    assert (∀ (ps acc l : list string),
      foldM (λ keys k, own ← is_own db k;
                       Ok (if (own : bool) then keys ++ [k] else keys)) acc ps = Ok l →
      ∀ p, p ∈ ps → is_Some (_dbalbum_details db !! p)) as Hall.
    { induction ps as [|a ps IH]; intros acc l Hl p Hp.
      - by apply elem_of_nil in Hp.
      - simpl in Hl. apply bind_Ok in Hl as (acc' & Ha & Hl).
        apply bind_Ok in Ha as (b & Hb & _). unfold is_own in Hb.
        apply bind_Ok in Hb as (det & Hdet%getitem_Ok & _).
        apply elem_of_cons in Hp as [-> | Hp]; [eauto | by eapply IH]. }
    by eapply Hall.
  - apply foldM_Err in H as (acc & k & Hk%elem_of_map_keys & H).
    unfold is_own in H.
    destruct (getitem (_dbalbum_details db) k) as [det|e'] eqn:Hg; [discriminate|].
    injection H as <-. apply getitem_Err in Hg as [-> Hnone]. eauto.
Qed.

Section AlbumViews.
Variable C : Constants.

(** X26.  [albums] and [albums_as_dict] return the titles of the albums
    that have at least one member and whose record names no cloud owner.
    They raise [KeyError], and nothing else, exactly when some album with
    members has no record in [_dbalbum_details].  For an index built by the
    legacy ingester every album with members and a record is listed, since
    that ingester gives no album a cloud owner. *)
Theorem album_views (db : PhotosDB) :
  (∀ titles, albums db = Ok titles → ∀ t, t ∈ titles ↔ own_title db t)
  ∧ (∀ counts, albums_as_dict db = Ok counts →
       ∀ t, t ∈ dom counts ↔ own_title db t)
  ∧ ((∀ k, is_Some (_dbalbums_album db !! k) → is_Some (_dbalbum_details db !! k))
     → is_ok (albums db) = true ∧ is_ok (albums_as_dict db) = true)
  ∧ ((∃ k, is_Some (_dbalbums_album db !! k) ∧ _dbalbum_details db !! k = None)
     → albums db = Err KeyError ∧ albums_as_dict db = Err KeyError)
  ∧ (∀ version s, ingest4 C version s = Ok db →
       ∀ t, own_title db t ↔
            ∃ k members det, _dbalbums_album db !! k = Some members ∧
                             _dbalbum_details db !! k = Some det ∧ title det = t).
Proof.
  split; [|split; [|split; [|split]]].
  - intros titles H t. unfold albums in H.
    apply bind_Ok in H as (keys & Hkeys & H).
    rewrite (shared_titles_spec db keys ∅ titles H t), elem_of_empty.
    rewrite (own_title_of_keys db keys t Hkeys). tauto.
  - intros counts H t. unfold albums_as_dict in H.
    apply bind_Ok in H as (keys & Hkeys & H).
    rewrite (shared_counts_spec db keys ∅ counts H t), dom_empty, elem_of_empty.
    rewrite (own_title_of_keys db keys t Hkeys). tauto.
  - intros Hrec. pose proof (own_album_keys_outcome db) as Hout.
    destruct (own_album_keys db) as [keys|e] eqn:Hkeys.
    2: { destruct Hout as [_ (k & Hk & Hnone)].
         destruct (Hrec k Hk) as [? ?]. congruence. }
    assert (∀ k, k ∈ keys → is_Some (_dbalbums_album db !! k)
                              ∧ is_Some (_dbalbum_details db !! k)) as Hin.
    { intros k Hk. apply (own_album_keys_spec db keys Hkeys) in Hk
        as [Hm (det & Hdet & _)]. eauto. }
    unfold albums, albums_as_dict. rewrite Hkeys. cbn [mbind result_bind]. split.
    + destruct (foldM_total
        (λ (albums : gset (option string)) album,
           det ← getitem (_dbalbum_details db) album; Ok (albums ∪ {[title det]}))
        keys ∅) as [r ->]; [|done].
      intros acc k [_ [det Hdet]]%Hin. unfold getitem. rewrite Hdet. simpl. eauto.
    + destruct (foldM_total
        (λ (albums : gmap (option string) nat) k,
           det ← getitem (_dbalbum_details db) k;
           members ← getitem (_dbalbums_album db) k;
           Ok (<[title det :=
                   (default 0 (albums !! title det) + length members)%nat]> albums))
        keys ∅) as [r ->]; [|done].
      intros acc k [[m Hm] [det Hdet]]%Hin. unfold getitem. rewrite Hdet, Hm.
      simpl. eauto.
  - intros (k & Hk & Hnone). pose proof (own_album_keys_outcome db) as Hout.
    destruct (own_album_keys db) as [keys|e] eqn:Hkeys.
    + destruct (Hout k Hk) as [? ?]. congruence.
    + destruct Hout as [-> _]. unfold albums, albums_as_dict. by rewrite Hkeys.
  - intros version s Hdb t. unfold own_title. split.
    + intros (k & members & det & ? & ? & _ & ?). eauto 10.
    + intros (k & members & det & Hm & Hdet & Ht). exists k, members, det.
      repeat split; try done.
      apply (ingest4_details_owner C version s db Hdb k det Hdet).
Qed.

End AlbumViews.

Lemma foldM_select_filter {A} (f : A → result bool) (sel : A → bool)
    (ps acc l : list A) :
  (∀ p b, p ∈ ps → f p = Ok b → sel p = b) →
  foldM (λ acc p, k ← f p; Ok (if (k : bool) then acc ++ [p] else acc)) acc ps = Ok l →
  l = acc ++ filter (λ p, sel p = true) ps.
Proof.
  revert acc. induction ps as [|a ps IH]; intros acc Hsel Hl; simpl in Hl.
  - injection Hl as <-. by rewrite app_nil_r.
  - apply bind_Ok in Hl as (acc' & Ha & Hl).
    apply bind_Ok in Ha as (k & Hk & [= <-]).
    rewrite (IH _ ltac:(intros p b Hp; apply Hsel; by right) Hl).
    rewrite filter_cons, (Hsel a k ltac:(left) Hk). destruct k.
    + rewrite decide_True by done. by rewrite <- app_assoc.
    + rewrite decide_False by done. done.
Qed.

(** The counting loop of the album views adds up the members of the albums
    of a title. *)
Lemma album_count_fold (db : PhotosDB) (keys : list string)
    (acc counts : gmap (option string) nat) (t : option string) :
  foldM (λ albums k,
           det ← getitem (_dbalbum_details db) k;
           members ← getitem (_dbalbums_album db) k;
           Ok (<[title det :=
                   (default 0 (albums !! title det) + length members)%nat]> albums))
        acc keys = Ok counts →
  default 0%nat (counts !! t)
  = (default 0 (acc !! t)
     + sum_list ((λ k, length (default [] (_dbalbums_album db !! k)))
                   <$> filter (λ k, title <$> _dbalbum_details db !! k = Some t) keys))%nat.
Proof.
  revert acc. induction keys as [|k keys IH]; intros acc H; simpl in H.
  - injection H as <-. simpl. lia.
  - apply bind_Ok in H as (acc' & Hstep & H).
    apply bind_Ok in Hstep as (det & Hdet%getitem_Ok & Hstep).
    apply bind_Ok in Hstep as (members & Hm%getitem_Ok & [= <-]).
    rewrite (IH _ H), filter_cons, Hdet. simpl.
    destruct (decide (title det = t)) as [-> | Hne].
    + rewrite decide_True by done. rewrite lookup_insert_eq, fmap_cons. simpl.
      rewrite Hm. simpl. lia.
    + rewrite decide_False by congruence. by rewrite lookup_insert_ne.
Qed.

Lemma title_count_keys (db : PhotosDB) (shared : bool) (t : option string)
    (L : list (string * list string)) :
  (∀ km, km ∈ L → _dbalbums_album db !! km.1 = Some km.2) →
  sum_list ((λ k, length (default [] (_dbalbums_album db !! k)))
              <$> filter (λ k, title <$> _dbalbum_details db !! k = Some t)
                         (filter (λ k, match _dbalbum_details db !! k with
                                       | Some det =>
                                           match cloudownerhashedpersonid det with
                                           | PNone => negb shared
                                           | _ => shared
                                           end
                                       | None => false
                                       end = true) L.*1))
  = sum_list ((λ km, length km.2)
                <$> filter (λ km, counts_for db shared t km.1 = true) L).
Proof.
  induction L as [|[k members] L IH]; intros HL; [done|].
  specialize (IH ltac:(intros km Hkm; apply HL; by right)).
  pose proof (HL (k, members) ltac:(left)) as Hk. simpl in Hk.
  rewrite fmap_cons. cbn [fst].
  destruct (counts_for db shared t k) eqn:Hc.
  - rewrite (filter_cons_True (λ km, counts_for db shared t km.1 = true))
      by done.
    unfold counts_for in Hc.
    destruct (_dbalbum_details db !! k) as [det|] eqn:Hdet; [|discriminate].
    apply andb_true_iff in Hc as [Ht%bool_decide_eq_true Hsel].
    rewrite (filter_cons_True _ k) by (by rewrite Hdet).
    rewrite (filter_cons_True _ k) by (rewrite Hdet; simpl; congruence).
    rewrite !fmap_cons. simpl. rewrite Hk. simpl. by rewrite IH.
  - rewrite (filter_cons_False (λ km, counts_for db shared t km.1 = true))
      by (simpl; congruence).
    rewrite <- IH. unfold counts_for in Hc.
    destruct (_dbalbum_details db !! k) as [det|] eqn:Hdet.
    + apply andb_false_iff in Hc as [Ht%bool_decide_eq_false | Hsel].
      * destruct (match cloudownerhashedpersonid det with
                  | PNone => negb shared | _ => shared end) eqn:Hsel.
        -- rewrite (filter_cons_True _ k) by (by rewrite Hdet).
           rewrite (filter_cons_False _ k) by (rewrite Hdet; simpl; congruence).
           done.
        -- rewrite (filter_cons_False _ k) by (rewrite Hdet; congruence). done.
      * rewrite (filter_cons_False _ k) by (rewrite Hdet; congruence). done.
    + rewrite (filter_cons_False _ k) by (by rewrite Hdet). done.
Qed.

Section AlbumCounts.
Variable C : Constants.

(** X27.  The count that [albums_as_dict] gives for a title is the number
    of members of all the albums of that title that are not shared, added
    up over the albums; [albums_shared_as_dict] gives the same sum over the
    shared albums of the title.  A photo that is in two albums of one title
    is counted twice. *)
Theorem album_counts (db : PhotosDB) :
  (∀ counts, albums_as_dict db = Ok counts →
     ∀ t n, counts !! t = Some n → n = title_count db false t)
  ∧ (∀ w counts, albums_shared_as_dict C db = Ok (w, counts) →
       ∀ t n, counts !! t = Some n → n = title_count db true t).
Proof.
  split.
  - intros counts H t n Hn. unfold albums_as_dict in H.
    apply bind_Ok in H as (keys & Hkeys & H).
    pose proof (album_count_fold db keys ∅ counts t H) as Hsum.
    rewrite Hn, lookup_empty in Hsum. simpl in Hsum. rewrite Hsum.
    unfold own_album_keys in Hkeys.
    apply (foldM_select_filter (is_own db)
             (λ k, match _dbalbum_details db !! k with
                   | Some det => match cloudownerhashedpersonid det with
                                 | PNone => negb false
                                 | _ => false
                                 end
                   | None => false
                   end)) in Hkeys.
    + rewrite Hkeys. cbn [app]. apply title_count_keys.
      intros [k m] Hkm. by apply elem_of_map_to_list.
    + intros k b _ Hb. unfold is_own in Hb.
      apply bind_Ok in Hb as (det & Hdet%getitem_Ok & [= <-]). rewrite Hdet.
      by destruct (cloudownerhashedpersonid det).
  - intros w counts H t n Hn. unfold albums_shared_as_dict in H.
    destruct (version_below_5 C db).
    { injection H as <- <-. by rewrite lookup_empty in Hn. }
    apply bind_Ok in H as (keys & Hkeys & H).
    apply bind_Ok in H as (counts' & H & [= <- <-]).
    pose proof (album_count_fold db keys ∅ counts' t H) as Hsum.
    rewrite Hn, lookup_empty in Hsum. simpl in Hsum. rewrite Hsum.
    unfold shared_album_keys in Hkeys.
    apply (foldM_select_filter (is_shared db)
             (λ k, match _dbalbum_details db !! k with
                   | Some det => match cloudownerhashedpersonid det with
                                 | PNone => negb true
                                 | _ => true
                                 end
                   | None => false
                   end)) in Hkeys.
    + rewrite Hkeys. cbn [app]. apply title_count_keys.
      intros [k m] Hkm. by apply elem_of_map_to_list.
    + intros k b _ Hb. unfold is_shared in Hb.
      apply bind_Ok in Hb as (det & Hdet%getitem_Ok & [= <-]). rewrite Hdet.
      by destruct (cloudownerhashedpersonid det).
Qed.

End AlbumCounts.

Lemma album_views_witness :
  is_ok (albums (index_of (ingest4 sample_constants "4025" album_store4))) = true
  ∧ is_ok (albums_as_dict (index_of (ingest4 sample_constants "4025" album_store4)))
    = true.
Proof.
  apply (proj1 (proj2 (proj2
           (album_views sample_constants
              (index_of (ingest4 sample_constants "4025" album_store4)))))).
  intros k Hk%elem_of_dom. apply elem_of_dom. revert k Hk.
  change (dom (_dbalbums_album
                 (index_of (ingest4 sample_constants "4025" album_store4)))
          ⊆ dom (_dbalbum_details
                   (index_of (ingest4 sample_constants "4025" album_store4)))).
  decided.
Defined.

Lemma album_counts_witness :
  ∃ counts,
    albums_as_dict (index_of (ingest5 sample_constants "6000" trip_store))
    = Ok counts
    ∧ ∀ t n, counts !! t = Some n →
             n = title_count (index_of (ingest5 sample_constants "6000" trip_store))
                   false t.
Proof.
  assert (is_ok (albums_as_dict
                   (index_of (ingest5 sample_constants "6000" trip_store))) = true)
    as Hok by run.
  destruct (albums_as_dict (index_of (ingest5 sample_constants "6000" trip_store)))
    as [counts|] eqn:H; [|discriminate].
  exists counts. split; [reflexivity|].
  apply (proj1 (album_counts sample_constants
                  (index_of (ingest5 sample_constants "6000" trip_store)))
           counts H).
Defined.

(** The album Trip of the sample store has the two members C and D. *)
Example album_count_of_trip :
  on_store5 trip_store
    (λ db, counts ← albums_as_dict db; Ok (counts !! Some "Trip"))
  = Ok (Some 2%nat).
Proof. run. Qed.

(** ** When [photos()] raises *)

Lemma foldM_select_each {A} (f : A → result bool) (ps acc l : list A) :
  foldM (λ acc p, k ← f p; Ok (if (k : bool) then acc ++ [p] else acc)) acc ps = Ok l →
  ∀ p, p ∈ ps → ∃ b, f p = Ok b.
Proof.
  revert acc. induction ps as [|a ps IH]; intros acc Hl p Hp.
  - by apply elem_of_nil in Hp.
  - simpl in Hl. apply bind_Ok in Hl as (acc' & Ha & Hl).
    apply bind_Ok in Ha as (k & Hk & _).
    apply elem_of_cons in Hp as [-> | Hp]; [eauto | by eapply IH].
Qed.



Section Raising.
Variable C : Constants.

Lemma keep_Err (db : PhotosDB) (q : query) (p : string) (e : exn) :
  keep C db q p = Err e → e = KeyError.
Proof.
  unfold keep. intros H.
  destruct (getitem (_dbphotos db) p) as [info|e1] eqn:H1;
    [|injection H as <-; by apply getitem_Err in H1 as [-> _]].
  cbn [mbind result_bind] in H.
  destruct (getitem info "burst") as [burst|e2] eqn:H2;
    [|injection H as <-; by apply getitem_Err in H2 as [-> _]].
  cbn [mbind result_bind] in H.
  destruct (getitem info "burst_key") as [bk|e3] eqn:H3;
    destruct (getitem info "type") as [t|e4] eqn:H4;
    try apply getitem_Err in H3 as [-> _];
    try apply getitem_Err in H4 as [-> _];
    destruct (truthy burst); cbn [mbind result_bind] in H;
    try destruct (negb (truthy bk)); destruct (q_images q);
    cbn [mbind result_bind] in H;
    try destruct (py_eq t _); try destruct (q_movies q);
    cbn [mbind result_bind] in H; congruence.
Qed.

(** X28.  [photos()] raises [KeyError] when a uuid that lies in every
    candidate set has no entry in [_dbphotos]: the final loop reads
    [self._dbphotos[p]] for every uuid of the intersection.  This happens
    when a join yields a uuid that the photo details query does not. *)
Theorem photos_candidate_without_entry (db : PhotosDB) (q : query)
    (sets : list (gset string)) (p : string) :
  photos_sets db q = Ok sets →
  sets ≠ [] →
  (∀ s, s ∈ sets → p ∈ s) →
  _dbphotos db !! p = None →
  photos C db q = Err KeyError.
Proof.
  intros Hsets Hne Hall Hnone. unfold photos. rewrite Hsets.
  cbn [mbind result_bind]. destruct sets as [|s rest]; [done|].
  destruct (foldM _ _ _) as [l|e] eqn:Hl.
  - exfalso.
    destruct (foldM_select_each (keep C db q) _ [] l Hl p) as [b Hb].
    { by apply elem_of_elements, elem_of_set_intersection. }
    unfold keep, getitem in Hb. by rewrite Hnone in Hb.
  - apply foldM_Err in Hl as (acc & p' & _ & Hl).
    destruct (keep C db q p') as [b|e'] eqn:Hk; [discriminate|].
    injection Hl as <-. by apply keep_Err in Hk as ->.
Qed.




End Raising.

Lemma photos_candidate_without_entry_witness :
  photos sample_constants
    (index_of (ingest5 sample_constants "6000" stray_keyword_store))
    (by_keywords ["cat"]) = Err KeyError.
Proof.
  apply (photos_candidate_without_entry sample_constants
           (index_of (ingest5 sample_constants "6000" stray_keyword_store))
           (by_keywords ["cat"]) [{["Z"]}] "Z").
  - run.
  - discriminate.
  - intros s ->%list_elem_of_singleton. decided.
  - run.
Defined.


(** ** The album records and the volumes *)

(** A loop of plain assignments [m[key(row)] = val(row)]: the last row of a
    key decides. *)
Lemma foldl_insert_last {R K V} `{Countable K} (key : R → K) (val : R → V)
    (rows : list R) (m : gmap K V) (k : K) :
  foldl (λ m r, <[key r := val r]> m) m rows !! k
  = match last (filter (λ r, key r = k) rows) with
    | Some r => Some (val r)
    | None => m !! k
    end.
Proof.
  revert m. induction rows as [|r rows IH]; intros m; [done|].
  cbn [foldl]. rewrite IH, filter_cons.
  destruct (decide (key r = k)) as [<- | Hne].
  - rewrite last_cons. destruct (last _); [done|]. by rewrite lookup_insert_eq.
  - destruct (last _); [done|]. by rewrite lookup_insert_ne.
Qed.

Lemma filter_none {A} (P : A → Prop) `{∀ x, Decision (P x)} (l : list A) :
  (∀ x, ¬ P x) → filter P l = [].
Proof.
  intros HP. induction l as [|a l IH]; [done|].
  by rewrite filter_cons_False by apply HP.
Qed.

Section DetailTables.
Variable C : Constants.

(** X30.  In an index built by either ingester [_dbalbum_details] holds,
    for every album uuid, the record of the last row of the album details
    query with that uuid, and no record for a uuid without a row; the
    legacy ingester sets the four cloud fields of Photos 5 to [None] and
    the modern one the two of Photos 4.  [_dbvolumes] holds the name of the
    last row of the volume query for every volume id, the integer model id
    in a legacy index and the uuid in a modern one. *)
Theorem detail_tables_last_row (version : string) (db : PhotosDB) :
  (∀ s, ingest4 C version s = Ok db →
     (∀ a, _dbalbum_details db !! a
           = details4_of <$> last_for ad4_uuid a (s4_album_details s))
     ∧ (∀ v, _dbvolumes db !! inl v
             = vol4_name <$> last (filter (λ r, vol4_modelId r = v) (s4_volumes s)))
     ∧ (∀ u, _dbvolumes db !! inr u = None))
  ∧ (∀ s, ingest5 C version s = Ok db →
       (∀ a, _dbalbum_details db !! a
             = details5_of <$> last_for ad5_uuid a (s5_album_details s))
       ∧ (∀ u, _dbvolumes db !! inr u = vol5_name <$> last_for vol5_uuid u (s5_volumes s))
       ∧ (∀ v, _dbvolumes db !! inl v = None)).
Proof.
  split.
  - intros s (_ & _ & _ & _ & _ & _ & _ & -> & ->)%ingest4_tables.
    split; [|split].
    + intros a. unfold last_for.
      etrans; [exact (foldl_insert_last ad4_uuid details4_of
                        (s4_album_details s) ∅ a)|].
      by destruct (last _).
    + intros v.
      pose proof (foldl_insert_last (λ r, inl (vol4_modelId r) : Z + string)
                    vol4_name (s4_volumes s) ∅ (inl v)) as Hv.
      etrans; [exact Hv|]. rewrite lookup_empty.
      rewrite (list_filter_iff _ (λ r, vol4_modelId r = v)); [by destruct (last _)|].
      intros r. split; [by intros [= ->] | by intros ->].
    + intros u.
      pose proof (foldl_insert_last (λ r, inl (vol4_modelId r) : Z + string)
                    vol4_name (s4_volumes s) ∅ (inr u)) as Hu.
      etrans; [exact Hu|]. rewrite lookup_empty.
      rewrite filter_none; [done|]. by intros r.
  - intros s (_ & _ & _ & _ & _ & _ & _ & -> & ->)%ingest5_tables.
    split; [|split].
    + intros a. unfold last_for.
      etrans; [exact (foldl_insert_last ad5_uuid details5_of
                        (s5_album_details s) ∅ a)|].
      by destruct (last _).
    + intros u. unfold last_for.
      pose proof (foldl_insert_last (λ r, inr (vol5_uuid r) : Z + string)
                    vol5_name (s5_volumes s) ∅ (inr u)) as Hu.
      etrans; [exact Hu|]. rewrite lookup_empty.
      rewrite (list_filter_iff _ (λ r, vol5_uuid r = u)); [by destruct (last _)|].
      intros r. split; [by intros [= ->] | by intros ->].
    + intros v.
      pose proof (foldl_insert_last (λ r, inr (vol5_uuid r) : Z + string)
                    vol5_name (s5_volumes s) ∅ (inl v)) as Hv.
      etrans; [exact Hv|]. rewrite lookup_empty.
      rewrite filter_none; [done|]. by intros r.
Qed.

End DetailTables.

Lemma detail_tables_last_row_witness :
  _dbalbum_details (index_of (ingest5 sample_constants "6000" shared_store))
    !! "album-1"
  = details5_of <$> last_for ad5_uuid "album-1" (s5_album_details shared_store).
Proof.
  apply (proj1 (proj2 (detail_tables_last_row sample_constants "6000"
                         (index_of (ingest5 sample_constants "6000" shared_store)))
                  shared_store ltac:(ingested)) "album-1").
Defined.
